(** * A solar-system animation script for Blender, and what it asks of its host

    [planets.py] is one linear script over Blender's Python API.  This file
    embeds it as a program over the host's calls, gives the calls a reference
    meaning on a model of the scene, and proves what the script does: which
    objects, materials and keyframes it leaves, in which order it calls the
    host, where exceptions go, and in which intervals its random numbers
    fall once binary64 rounding is taken into account. *)

From Stdlib Require Import ZArith Lia Bool Ascii String List Floats Reals Lra.
From stdpp Require Import gmap strings.

(** * Binary64 arithmetic

    Python floats are IEEE 754 binary64 numbers, which are Rocq's primitive
    floats.  The bounds below are proved against [SpecFloat], the
    specification the primitive operations are axiomatised to follow. *)
Module Binary64.
Local Open Scope Z_scope.


Definition fexp64 (e : Z) : Z := SpecFloat.fexp prec emax e.

Lemma fexp64_eq e : fexp64 e = Z.max (e - 53) (-1074).
Proof. reflexivity. Qed.

Lemma digits2_pos_bounds (m : positive) :
  2 ^ (Z.pos (digits2_pos m) - 1) <= Z.pos m < 2 ^ Z.pos (digits2_pos m).
Proof.
  induction m as [m IH|m IH|]; cbn [digits2_pos].
  - rewrite Pos2Z.inj_succ. change (Z.pos m~1) with (2 * Z.pos m + 1).
    replace (Z.succ (Z.pos (digits2_pos m)) - 1) with (Z.pos (digits2_pos m)) by lia.
    rewrite Z.pow_succ_r by lia.
    replace (2 ^ Z.pos (digits2_pos m)) with (2 * 2 ^ (Z.pos (digits2_pos m) - 1)) in *
      by (rewrite <- Z.pow_succ_r by lia; f_equal; lia).
    generalize dependent (2 ^ (Z.pos (digits2_pos m) - 1)). intros; lia.
  - rewrite Pos2Z.inj_succ. change (Z.pos m~0) with (2 * Z.pos m).
    replace (Z.succ (Z.pos (digits2_pos m)) - 1) with (Z.pos (digits2_pos m)) by lia.
    rewrite Z.pow_succ_r by lia.
    replace (2 ^ Z.pos (digits2_pos m)) with (2 * 2 ^ (Z.pos (digits2_pos m) - 1)) in *
      by (rewrite <- Z.pow_succ_r by lia; f_equal; lia).
    generalize dependent (2 ^ (Z.pos (digits2_pos m) - 1)). intros; lia.
  - cbn. lia.
Qed.

Lemma Zdigits2_le (z k : Z) : 0 <= z -> 0 <= k -> z < 2 ^ k -> Zdigits2 z <= k.
Proof.
  intros Hz Hk Hlt. destruct z as [|p|p]; cbn [Zdigits2]; try lia.
  destruct (digits2_pos_bounds p) as [Hlo _].
  destruct (Z.le_gt_cases (Z.pos (digits2_pos p)) k) as [|Hgt]; [assumption|].
  exfalso.
  assert (2 ^ k <= 2 ^ (Z.pos (digits2_pos p) - 1)) by (apply Z.pow_le_mono_r; lia).
  lia.
Qed.

Lemma Zdigits2_ge (z k : Z) : 0 <= k -> 2 ^ k <= z -> k < Zdigits2 z.
Proof.
  intros Hk Hle.
  assert (0 < 2 ^ k) by (apply Z.pow_pos_nonneg; lia).
  destruct z as [|p|p]; cbn [Zdigits2]; try lia.
  destruct (digits2_pos_bounds p) as [_ Hhi].
  apply (Z.pow_lt_mono_r_iff 2); lia.
Qed.

(** Invariant of the right shift with round and sticky bits: the record
    and the remainder together still hold the shifted integer. *)
Definition shr_inv (x n : Z) (r : shr_record) : Prop :=
  0 <= shr_m r /\
  exists rem, x = shr_m r * 2 ^ n + rem /\ 0 <= rem < 2 ^ n /\
              (rem = 0 <-> shr_r r = false /\ shr_s r = false).

Lemma shr_inv_init x : 0 <= x -> shr_inv x 0 (shr_record_of_loc x loc_Exact).
Proof.
  intros Hx. split; [exact Hx|]. exists 0. cbn. split; [lia|]. split; [lia|]. tauto.
Qed.

Lemma shr_inv_step x n r : 0 <= n -> shr_inv x n r -> shr_inv x (n + 1) (shr_1 r).
Proof.
  intros Hn [Hm (rem & Hx & Hrem & Hz)].
  assert (Hp : 0 < 2 ^ n) by (apply Z.pow_pos_nonneg; lia).
  assert (Hs : 2 ^ (n + 1) = 2 * 2 ^ n) by (rewrite Z.pow_add_r by lia; lia).
  destruct r as [m rb sb]. cbn [shr_m shr_r shr_s] in *.
  assert (Hor : rem = 0 <-> rb || sb = false).
  { rewrite Hz. destruct rb, sb; cbn; intuition congruence. }
  unfold shr_inv. rewrite Hs.
  destruct m as [|[p|p|]|p]; cbn [shr_1 shr_m shr_r shr_s]; try lia.
  - split; [lia|]. exists rem. repeat split; try lia; tauto.
  - split; [lia|]. exists (2 ^ n + rem).
    change (Z.pos p~1) with (2 * Z.pos p + 1) in Hx.
    repeat split; try lia; try discriminate; intros [? _]; discriminate.
  - split; [lia|]. exists rem.
    change (Z.pos p~0) with (2 * Z.pos p) in Hx.
    repeat split; try lia; tauto.
  - split; [lia|]. exists (2 ^ n + rem).
    repeat split; try lia; try discriminate; intros [? _]; discriminate.
Qed.

Lemma shr_inv_iter x p : forall n r, 0 <= n -> shr_inv x n r ->
  shr_inv x (n + Z.pos p) (SpecFloat.iter_pos shr_1 p r).
Proof.
  induction p as [p IH|p IH|]; intros n r Hn Hr; cbn [SpecFloat.iter_pos].
  - replace (n + Z.pos p~1) with (n + 1 + Z.pos p + Z.pos p) by lia.
    apply IH; [lia|]. apply IH; [lia|]. apply shr_inv_step; assumption.
  - replace (n + Z.pos p~0) with (n + Z.pos p + Z.pos p) by lia.
    apply IH; [lia|]. apply IH; assumption.
  - apply shr_inv_step; assumption.
Qed.
Definition mk_float (s : bool) (z e : Z) : spec_float :=
  match z with
  | Z0 => S754_zero s
  | Z.pos m => if e <=? emax - prec then S754_finite s m e else S754_infinity s
  | Z.neg _ => S754_nan
  end.

Lemma shr_fexp_exact (m e : Z) : 0 <= m ->
  exists r e', shr_fexp prec emax m e loc_Exact = (r, e') /\
    e' = Z.max e (fexp64 (Zdigits2 m + e)) /\ shr_inv m (e' - e) r.
Proof.
  intros Hm. unfold shr_fexp. fold (fexp64 (Zdigits2 m + e)).
  set (f := fexp64 (Zdigits2 m + e)).
  destruct (f - e) as [|p|p] eqn:Hn; cbn [shr].
  - eexists _, _. split; [reflexivity|]. split; [lia|].
    replace (e - e) with 0 by lia. apply shr_inv_init; assumption.
  - eexists _, _. split; [reflexivity|]. split; [lia|].
    replace (e + Z.pos p - e) with (0 + Z.pos p) by lia.
    apply shr_inv_iter; [lia|]. apply shr_inv_init; assumption.
  - eexists _, _. split; [reflexivity|]. split; [lia|].
    replace (e - e) with 0 by lia. apply shr_inv_init; assumption.
Qed.

Lemma round_nearest_even_cases (x n : Z) (r : shr_record) :
  shr_inv x n r ->
  let m1 := round_nearest_even (shr_m r) (loc_of_shr_record r) in
  exists rem, x = shr_m r * 2 ^ n + rem /\ 0 <= rem < 2 ^ n /\
    shr_m r <= m1 <= shr_m r + 1 /\ (rem = 0 -> m1 = shr_m r).
Proof.
  intros [Hm (rem & Hx & Hrem & Hz)] m1. exists rem. split; [exact Hx|]. split; [exact Hrem|].
  subst m1. destruct r as [m rb sb]. cbn [shr_m shr_r shr_s] in *.
  destruct rb, sb; cbn [loc_of_shr_record round_nearest_even].
  - split; [lia|]. intros H0. apply Hz in H0. destruct H0; discriminate.
  - destruct (Z.even m); (split; [lia|]); intros H0; apply Hz in H0; destruct H0; discriminate.
  - split; [lia|]. reflexivity.
  - split; [lia|]. reflexivity.
Qed.

Lemma fexp64_mono a b : a <= b -> fexp64 a <= fexp64 b.
Proof. rewrite !fexp64_eq. lia. Qed.

Lemma pow2_split (a b : Z) : 0 <= a -> 0 <= b -> 2 ^ (a + b) = 2 ^ a * 2 ^ b.
Proof. intros. apply Z.pow_add_r; assumption. Qed.

Lemma pow2_pos (a : Z) : 0 <= a -> 0 < 2 ^ a.
Proof. intros. apply Z.pow_pos_nonneg; lia. Qed.

(** Rounding a positive integer mantissa: the first shift brings the
    mantissa to the exponent [e1] of its binade and rounds to nearest even;
    the second shift only renormalises a mantissa that rounded up to a
    power of two, and loses nothing. *)
Lemma binary_round_aux_shape (s : bool) (mx ex : Z) :
  0 < mx -> ex <= fexp64 (Zdigits2 mx + ex) ->
  let e1 := fexp64 (Zdigits2 mx + ex) in
  exists q rem m1 z e2,
    mx = q * 2 ^ (e1 - ex) + rem /\ 0 <= rem < 2 ^ (e1 - ex) /\ 0 <= q /\
    q <= m1 <= q + 1 /\ (rem = 0 -> m1 = q) /\
    e1 <= e2 <= e1 + 1 /\ m1 = z * 2 ^ (e2 - e1) /\ 0 <= z /\
    e2 = Z.max e1 (fexp64 (Zdigits2 m1 + e1)) /\
    binary_round_aux prec emax s mx ex loc_Exact = mk_float s z e2.
Proof.
  intros Hmx Hn e1.
  destruct (shr_fexp_exact mx ex) as (r & e' & Hshr & He' & Hinv); [lia|].
  fold e1 in He'. assert (He1' : e' = e1) by lia. clear He'. subst e'.
  pose proof (round_nearest_even_cases _ _ _ Hinv) as (rem & Hx & Hrem & Hm1 & Hex).
  set (m1 := round_nearest_even (shr_m r) (loc_of_shr_record r)) in *.
  assert (Hq : 0 <= shr_m r) by (destruct Hinv; assumption).
  destruct (shr_fexp_exact m1 e1) as (r2 & e2 & Hshr2 & He2 & Hinv2); [lia|].
  exists (shr_m r), rem, m1, (shr_m r2), e2.
  assert (Hbra : binary_round_aux prec emax s mx ex loc_Exact = mk_float s (shr_m r2) e2).
  { unfold binary_round_aux. rewrite Hshr. fold m1. rewrite Hshr2.
    unfold mk_float. destruct (shr_m r2); reflexivity. }
  (* digits of the first quotient *)
  set (d := Zdigits2 mx) in *.
  assert (Hd : 2 ^ (d - 1) <= mx < 2 ^ d).
  { subst d. destruct mx as [|p|p]; try lia. apply digits2_pos_bounds. }
  assert (Hdpos : 0 < d).
  { subst d. destruct mx as [|p|p]; cbn; lia. }
  set (n := e1 - ex) in *.
  assert (Hn0 : 0 <= n) by lia.
  pose proof (pow2_pos n Hn0) as Hpn.
  set (D := d + ex - e1).
  assert (HD53 : D <= 53) by (subst D e1; rewrite fexp64_eq; lia).
  assert (Hm1D : m1 <= 2 ^ Z.max D 0).
  { destruct (Z.le_gt_cases 0 D) as [HD|HD].
    - rewrite Z.max_l by lia.
      assert (2 ^ d = 2 ^ D * 2 ^ n).
      { rewrite <- pow2_split by lia. f_equal. subst D n. lia. }
      assert (shr_m r < 2 ^ D) by nia. lia.
    - rewrite Z.max_r by lia. cbn.
      assert (2 ^ d <= 2 ^ n) by (apply Z.pow_le_mono_r; subst D n; lia).
      assert (shr_m r = 0) by nia. lia. }
  assert (Hsame : e2 = e1 -> m1 = shr_m r2).
  { intros Ee. rewrite Ee in Hinv2. replace (e1 - e1) with 0 in Hinv2 by lia.
    destruct Hinv2 as [_ (rem2 & Hx2 & Hr2 & _)]. change (2 ^ 0) with 1 in *. lia. }
  assert (Hcases : e2 = e1 /\ m1 = shr_m r2 \/
                   e2 = e1 + 1 /\ m1 = shr_m r2 * 2).
  { destruct (Z.eq_dec m1 (2 ^ Z.max D 0)) as [Heq|Hne].
    - destruct (Z.le_gt_cases D 0) as [HD|HD].
      + rewrite Z.max_r in Heq by lia. change (2 ^ 0) with 1 in Heq.
        assert (He1 : e1 = -1074) by (subst D e1; rewrite fexp64_eq in *; lia).
        assert (Ee : e2 = e1).
        { rewrite He2, Heq. cbn [Zdigits2 digits2_pos]. rewrite He1. reflexivity. }
        left. split; [assumption|]. apply Hsame; assumption.
      + rewrite Z.max_l in Heq by lia.
        assert (Hdig : Zdigits2 m1 = D + 1).
        { apply Z.le_antisymm.
          - apply Zdigits2_le; [lia|lia|]. rewrite Heq.
            apply Z.pow_lt_mono_r; lia.
          - pose proof (Zdigits2_ge m1 D ltac:(lia) ltac:(lia)). lia. }
        assert (Ee : e2 = e1 \/ e2 = e1 + 1).
        { rewrite He2, Hdig. subst D e1. rewrite !fexp64_eq. lia. }
        destruct Ee as [Ee|Ee]; [left|right]; (split; [assumption|]).
        * apply Hsame; assumption.
        * rewrite Ee in Hinv2. replace (e1 + 1 - e1) with 1 in Hinv2 by lia.
          destruct Hinv2 as [_ (rem2 & Hx2 & Hr2 & _)].
          change (2 ^ 1) with 2 in *.
          assert (2 ^ D = 2 * 2 ^ (D - 1)).
          { rewrite <- Z.pow_succ_r by lia. f_equal. lia. }
          lia.
    - assert (Hlt : m1 < 2 ^ Z.max D 0) by lia.
      assert (Hdig : Zdigits2 m1 <= Z.max D 0) by (apply Zdigits2_le; lia).
      assert (Ee : e2 = e1).
      { destruct (Z.le_gt_cases 0 D) as [HD|HD].
        - rewrite Z.max_l in Hdig by lia.
          assert (fexp64 (Zdigits2 m1 + e1) <= fexp64 (d + ex))
            by (apply fexp64_mono; subst D; lia).
          fold e1 in H. lia.
        - rewrite Z.max_r in Hdig by lia.
          assert (E0 : m1 = 0) by (rewrite Z.max_r in Hlt by lia; change (2 ^ 0) with 1 in Hlt; lia).
          rewrite E0 in He2. cbn [Zdigits2] in He2.
          assert (fexp64 (0 + e1) <= e1).
          { subst D e1. rewrite !fexp64_eq. lia. }
          lia. }
      left. split; [assumption|]. apply Hsame; assumption. }
  assert (Hz : 0 <= shr_m r2) by (destruct Hinv2; assumption).
  repeat split; try assumption; try lia.
  - destruct Hcases as [[-> ->]|[-> ->]].
    + replace (e1 - e1) with 0 by lia. cbn. lia.
    + replace (e1 + 1 - e1) with 1 by lia. cbn. lia.
Qed.
Local Open Scope R_scope.

Definition bpow (e : Z) : R := powerRZ 2 e.

Lemma bpow_pos e : 0 < bpow e.
Proof. apply powerRZ_lt; lra. Qed.

Lemma bpow_add a b : bpow (a + b) = bpow a * bpow b.
Proof. apply powerRZ_add; lra. Qed.

Lemma bpow_IZR (n : Z) : (0 <= n)%Z -> bpow n = IZR (2 ^ n).
Proof.
  intros Hn. unfold bpow. rewrite <- (Z2Nat.id n Hn) at 1.
  rewrite <- pow_powerRZ, pow_IZR, Z2Nat.id by assumption. reflexivity.
Qed.

Lemma bpow_0 : bpow 0 = 1.
Proof. reflexivity. Qed.

Lemma bpow_shift (v : R) (a b : Z) : v * bpow a = v * bpow (a - b) * bpow b.
Proof. rewrite Rmult_assoc, <- bpow_add. do 2 f_equal. lia. Qed.

Lemma bpow_le_cancel (u v : R) (e : Z) : u * bpow e <= v * bpow e -> u <= v.
Proof. intros H. pose proof (bpow_pos e). nra. Qed.

Lemma bpow_lt_cancel (u v : R) (e : Z) : u * bpow e < v * bpow e -> u < v.
Proof. intros H. pose proof (bpow_pos e). nra. Qed.

Lemma bpow_le_1 (e : Z) : (e <= 0)%Z -> bpow e <= 1.
Proof.
  intros He. replace e with (- (- e))%Z by lia. unfold bpow.
  rewrite powerRZ_neg'. fold (bpow (- e)). rewrite bpow_IZR by lia.
  assert (1 <= 2 ^ (- e))%Z by (pose proof (pow2_pos (- e)); lia).
  apply IZR_le in H. rewrite <- Rinv_1. apply Rinv_le_contravar; lra.
Qed.

(** The real number a finite binary64 value stands for. *)
Definition SF2R (f : spec_float) : R :=
  match f with
  | S754_finite s m e => IZR (cond_Zopp s (Z.pos m)) * bpow e
  | _ => 0
  end.

Definition SFfinite (f : spec_float) : bool :=
  match f with
  | S754_zero _ | S754_finite _ _ _ => true
  | _ => false
  end.

Lemma SF2R_mk_float s z e : (0 <= z)%Z -> (e <= 971)%Z ->
  SFfinite (mk_float s z e) = true /\
  SF2R (mk_float s z e) = IZR (cond_Zopp s z) * bpow e.
Proof.
  intros Hz He. unfold mk_float. destruct z as [|p|p]; try lia.
  - destruct s; cbn [SF2R SFfinite cond_Zopp Z.opp]; (split; [reflexivity|]);
      rewrite Rmult_0_l; reflexivity.
  - change (emax - prec)%Z with 971%Z.
    destruct (Z.leb_spec e 971); [|lia]. split; reflexivity.
Qed.

Lemma cond_Zopp_IZR s z : IZR (cond_Zopp s z) = if s then - IZR z else IZR z.
Proof. destruct s; cbn [cond_Zopp]; [apply opp_IZR|reflexivity]. Qed.

(** Bounds that are multiples of [2^g], with [g] at least the exponent of
    the binade of the exact value, survive rounding to nearest even. *)
Lemma binary_round_aux_pos_bounds (s : bool) (mx ex A B g k : Z) :
  (0 < mx)%Z -> (ex <= fexp64 (Zdigits2 mx + ex))%Z ->
  IZR A * bpow g <= IZR mx * bpow ex <= IZR B * bpow g ->
  IZR mx * bpow ex < bpow k -> (fexp64 k <= g)%Z -> (k <= 1023)%Z ->
  exists v, SFfinite (binary_round_aux prec emax s mx ex loc_Exact) = true /\
    SF2R (binary_round_aux prec emax s mx ex loc_Exact) = (if s then - v else v) /\
    IZR A * bpow g <= v <= IZR B * bpow g.
Proof.
  intros Hmx Hn [HA HB] Hk Hg Hk1023.
  destruct (binary_round_aux_shape s mx ex Hmx Hn)
    as (q & rem & m1 & z & e2 & Hx & Hrem & Hq & Hm1 & Hex & He2 & Hz & Hz0 & _ & Hbra).
  set (e1 := fexp64 (Zdigits2 mx + ex)) in *.
  (* the binade of the exact value is below k *)
  assert (Hkex : (ex < k)%Z).
  { destruct (Z.lt_ge_cases ex k) as [|Hge]; [assumption|exfalso].
    rewrite (bpow_shift (IZR mx) ex k) in Hk.
    assert (1 <= IZR mx) by (apply IZR_le; lia).
    assert (1 <= bpow (ex - k)).
    { rewrite bpow_IZR by lia. apply IZR_le. pose proof (pow2_pos (ex - k)). lia. }
    pose proof (bpow_pos k).
    assert (1 <= IZR mx * bpow (ex - k)) by nra. nra. }
  assert (Hmxk : (mx < 2 ^ (k - ex))%Z).
  { apply lt_IZR. rewrite <- bpow_IZR by lia.
    apply (bpow_lt_cancel _ _ ex). rewrite <- bpow_add.
    replace (k - ex + ex)%Z with k by lia. assumption. }
  assert (He1k : (e1 <= fexp64 k)%Z).
  { apply fexp64_mono. pose proof (Zdigits2_le mx (k - ex)). lia. }
  set (n := (e1 - ex)%Z) in *.
  set (j := (g - e1)%Z).
  assert (Hj : (0 <= j)%Z) by (subst j; lia).
  assert (Hn0 : (0 <= n)%Z) by (subst n; lia).
  pose proof (pow2_pos n Hn0) as Hpn.
  pose proof (pow2_pos j Hj) as Hpj.
  assert (Hscale : forall C : Z, IZR C * bpow g = IZR (C * 2 ^ j * 2 ^ n) * bpow ex).
  { intros C. rewrite !mult_IZR, <- !bpow_IZR by assumption.
    rewrite !Rmult_assoc, <- !bpow_add. do 2 f_equal. subst j n. lia. }
  assert (HAz : (A * 2 ^ j * 2 ^ n <= mx)%Z).
  { apply le_IZR. apply (bpow_le_cancel _ _ ex). rewrite <- Hscale. assumption. }
  assert (HBz : (mx <= B * 2 ^ j * 2 ^ n)%Z).
  { apply le_IZR. apply (bpow_le_cancel _ _ ex). rewrite <- Hscale. assumption. }
  assert (HAm : (A * 2 ^ j <= m1)%Z) by nia.
  assert (HBm : (m1 <= B * 2 ^ j)%Z).
  { destruct (Z.eq_dec rem 0%Z) as [E|E]; [rewrite (Hex E); nia|nia]. }
  assert (Hval : IZR z * bpow e2 = IZR m1 * bpow e1).
  { rewrite Hz, mult_IZR, <- bpow_IZR by lia.
    rewrite Rmult_assoc, <- bpow_add. do 2 f_equal. lia. }
  assert (Hscale1 : forall C : Z, IZR C * bpow g = IZR (C * 2 ^ j) * bpow e1).
  { intros C. rewrite mult_IZR, <- bpow_IZR by assumption.
    rewrite Rmult_assoc, <- bpow_add. do 2 f_equal. subst j. lia. }
  assert (He2fin : (e2 <= 971)%Z).
  { rewrite fexp64_eq in He1k. lia. }
  destruct (SF2R_mk_float s z e2 Hz0 He2fin) as [Hfin Hv].
  exists (IZR m1 * bpow e1). rewrite Hbra. split; [exact Hfin|]. split.
  - rewrite Hv, cond_Zopp_IZR, <- Hval. destruct s; lra.
  - rewrite !Hscale1. pose proof (bpow_pos e1).
    apply IZR_le in HAm, HBm. split; apply Rmult_le_compat_r; lra.
Qed.

Lemma bpow_le (a b : Z) : (a <= b)%Z -> bpow a <= bpow b.
Proof.
  intros Hab. replace b with (a + (b - a))%Z by lia. rewrite bpow_add.
  assert (1 <= bpow (b - a)).
  { rewrite bpow_IZR by lia. apply IZR_le. pose proof (pow2_pos (b - a)). lia. }
  pose proof (bpow_pos a). nra.
Qed.

Lemma binary_round_aux_bounds (s : bool) (mx ex A B g k : Z) :
  (0 < mx)%Z -> (ex <= fexp64 (Zdigits2 mx + ex))%Z ->
  let x := IZR (cond_Zopp s mx) * bpow ex in
  IZR A * bpow g <= x <= IZR B * bpow g ->
  Rabs x < bpow k -> (fexp64 k <= g)%Z -> (k <= 1023)%Z ->
  SFfinite (binary_round_aux prec emax s mx ex loc_Exact) = true /\
  IZR A * bpow g <= SF2R (binary_round_aux prec emax s mx ex loc_Exact) <= IZR B * bpow g.
Proof.
  intros Hmx Hn x Hx Habs Hg Hk. subst x. rewrite cond_Zopp_IZR in *.
  assert (Hpos : 0 < IZR mx * bpow ex).
  { apply Rmult_lt_0_compat; [apply IZR_lt; lia|apply bpow_pos]. }
  destruct s.
  - replace (- IZR mx * bpow ex) with (- (IZR mx * bpow ex)) in * by lra.
    rewrite Rabs_Ropp, Rabs_pos_eq in Habs by lra.
    destruct (binary_round_aux_pos_bounds true mx ex (- B) (- A) g k) as (v & Hf & Hv & Hb);
      try assumption.
    { rewrite !opp_IZR. lra. }
    split; [exact Hf|]. rewrite Hv. rewrite !opp_IZR in Hb. lra.
  - rewrite Rabs_pos_eq in Habs by lra.
    destruct (binary_round_aux_pos_bounds false mx ex A B g k) as (v & Hf & Hv & Hb);
      try assumption.
    split; [exact Hf|]. rewrite Hv. exact Hb.
Qed.

Lemma Pos_iter_xO (m d : positive) : Z.pos (Pos.iter xO m d) = (Z.pos m * 2 ^ Z.pos d)%Z.
Proof.
  induction d as [|d IH] using Pos.peano_ind.
  - cbn. lia.
  - rewrite Pos.iter_succ, Pos2Z.inj_succ, Z.pow_succ_r by lia.
    change (Z.pos (Pos.iter xO m d)~0) with (2 * Z.pos (Pos.iter xO m d))%Z.
    rewrite IH. lia.
Qed.

Lemma shl_align_spec (mx : positive) (ex ex' : Z) :
  exists mz ez, shl_align mx ex ex' = (mz, ez) /\ ez = Z.min ex ex' /\
    Z.pos mz = (Z.pos mx * 2 ^ (ex - ez))%Z.
Proof.
  unfold shl_align. destruct (ex' - ex)%Z as [|d|d] eqn:E.
  - exists mx, ex. split; [reflexivity|]. split; [lia|].
    replace (ex - ex)%Z with 0%Z by lia. cbn. lia.
  - exists mx, ex. split; [reflexivity|]. split; [lia|].
    replace (ex - ex)%Z with 0%Z by lia. cbn. lia.
  - exists (Pos.iter xO mx d), ex'. split; [reflexivity|]. split; [lia|].
    rewrite Pos_iter_xO. do 2 f_equal. lia.
Qed.

Lemma Zdigits2_shift (m : positive) (j : Z) : (0 <= j)%Z ->
  Zdigits2 (Z.pos m * 2 ^ j) = (Zdigits2 (Z.pos m) + j)%Z.
Proof.
  intros Hj. destruct (digits2_pos_bounds m) as [Hlo Hhi].
  cbn [Zdigits2]. set (d := Z.pos (digits2_pos m)) in *.
  pose proof (pow2_pos j Hj).
  apply Z.le_antisymm.
  - apply Zdigits2_le; [lia|lia|]. rewrite pow2_split by lia. nia.
  - assert (d - 1 + j < Zdigits2 (Z.pos m * 2 ^ j))%Z; [|lia].
    apply Zdigits2_ge; [lia|]. rewrite pow2_split by lia. nia.
Qed.

Lemma binary_round_bounds (s : bool) (mx : positive) (ex A B g k : Z) :
  let x := IZR (cond_Zopp s (Z.pos mx)) * bpow ex in
  IZR A * bpow g <= x <= IZR B * bpow g ->
  Rabs x < bpow k -> (fexp64 k <= g)%Z -> (k <= 1023)%Z ->
  SFfinite (binary_round prec emax s mx ex) = true /\
  IZR A * bpow g <= SF2R (binary_round prec emax s mx ex) <= IZR B * bpow g.
Proof.
  intros x Hx Habs Hg Hk. unfold binary_round.
  fold (fexp64 (Z.pos (digits2_pos mx) + ex)).
  destruct (shl_align_spec mx ex (fexp64 (Z.pos (digits2_pos mx) + ex)))
    as (mz & ez & -> & Hez & Hmz).
  assert (Hval : IZR (Z.pos mz) * bpow ez = IZR (Z.pos mx) * bpow ex).
  { rewrite Hmz, mult_IZR, <- bpow_IZR by lia.
    rewrite Rmult_assoc, <- bpow_add. do 2 f_equal. lia. }
  assert (Hxz : x = IZR (cond_Zopp s (Z.pos mz)) * bpow ez).
  { subst x. rewrite !cond_Zopp_IZR. destruct s; lra. }
  apply (binary_round_aux_bounds s (Z.pos mz) ez A B g k); try assumption; try lia.
  - rewrite Hmz, Zdigits2_shift by lia. cbn [Zdigits2].
    replace (Z.pos (digits2_pos mx) + (ex - ez) + ez)%Z
      with (Z.pos (digits2_pos mx) + ex)%Z by lia. lia.
  - rewrite <- Hxz. exact Hx.
  - rewrite <- Hxz. exact Habs.
Qed.

Lemma binary_normalize_bounds (z e A B g k : Z) :
  let x := IZR z * bpow e in
  IZR A * bpow g <= x <= IZR B * bpow g ->
  Rabs x < bpow k -> (fexp64 k <= g)%Z -> (k <= 1023)%Z ->
  SFfinite (binary_normalize prec emax z e false) = true /\
  IZR A * bpow g <= SF2R (binary_normalize prec emax z e false) <= IZR B * bpow g.
Proof.
  intros x Hx Habs Hg Hk. destruct z as [|p|p]; cbn [binary_normalize].
  - subst x. rewrite Rmult_0_l in Hx. split; [reflexivity|exact Hx].
  - apply (binary_round_bounds false p e A B g k); assumption.
  - apply (binary_round_bounds true p e A B g k); assumption.
Qed.

Lemma SF2R_aligned (s : bool) (m : positive) (e ez : Z) : (ez <= e)%Z ->
  IZR (cond_Zopp s (Z.pos (fst (shl_align m e ez)))) * bpow ez =
  SF2R (S754_finite s m e).
Proof.
  intros Hle. destruct (shl_align_spec m e ez) as (mz & ez' & -> & Hez & Hmz).
  cbn [fst SF2R]. rewrite !cond_Zopp_IZR, Hmz, mult_IZR, <- bpow_IZR by lia.
  replace ez' with ez in * by lia.
  replace (bpow e) with (bpow (e - ez) * bpow ez)
    by (rewrite <- bpow_add; f_equal; lia).
  destruct s; ring.
Qed.

Section Bounds.
Variables (A B g k : Z).
Hypothesis Hg : (fexp64 k <= g)%Z.
Hypothesis Hk : (k <= 1023)%Z.

Lemma SFadd_bounds (x y : spec_float) :
  SFfinite x = true -> SFfinite y = true ->
  IZR A * bpow g <= SF2R x + SF2R y <= IZR B * bpow g ->
  Rabs (SF2R x + SF2R y) < bpow k ->
  SFfinite (SFadd prec emax x y) = true /\
  IZR A * bpow g <= SF2R (SFadd prec emax x y) <= IZR B * bpow g.
Proof.
  intros Hx Hy Hb Habs.
  destruct x as [sx|sx| |sx mx ex]; try discriminate;
    destruct y as [sy|sy| |sy my ey]; try discriminate; cbn [SFadd].
  - cbn [SF2R] in Hb. destruct sx, sy; cbn; (split; [reflexivity|lra]).
  - cbn [SF2R] in Hb |- *. rewrite Rplus_0_l in Hb. split; [reflexivity|exact Hb].
  - cbn [SF2R] in Hb |- *. rewrite Rplus_0_r in Hb. split; [reflexivity|exact Hb].
  - set (ez := Z.min ex ey).
    assert (Hsum : IZR (cond_Zopp sx (Z.pos (fst (shl_align mx ex ez))) +
                        cond_Zopp sy (Z.pos (fst (shl_align my ey ez)))) * bpow ez =
                   SF2R (S754_finite sx mx ex) + SF2R (S754_finite sy my ey)).
    { rewrite plus_IZR, Rmult_plus_distr_r, !SF2R_aligned by (subst ez; lia). reflexivity. }
    apply (binary_normalize_bounds _ ez A B g k); try assumption; rewrite Hsum; assumption.
Qed.

Lemma SFsub_bounds (x y : spec_float) :
  SFfinite x = true -> SFfinite y = true ->
  IZR A * bpow g <= SF2R x - SF2R y <= IZR B * bpow g ->
  Rabs (SF2R x - SF2R y) < bpow k ->
  SFfinite (SFsub prec emax x y) = true /\
  IZR A * bpow g <= SF2R (SFsub prec emax x y) <= IZR B * bpow g.
Proof.
  intros Hx Hy Hb Habs.
  destruct x as [sx|sx| |sx mx ex]; try discriminate;
    destruct y as [sy|sy| |sy my ey]; try discriminate; cbn [SFsub].
  - cbn [SF2R] in Hb. destruct sx, sy; cbn; (split; [reflexivity|lra]).
  - cbn [SF2R] in Hb |- *. split; [reflexivity|].
    rewrite !cond_Zopp_IZR in *. destruct sy; cbn [negb]; lra.
  - cbn [SF2R] in Hb |- *. rewrite Rminus_0_r in Hb. split; [reflexivity|exact Hb].
  - set (ez := Z.min ex ey).
    assert (Hdiff : IZR (cond_Zopp sx (Z.pos (fst (shl_align mx ex ez))) -
                         cond_Zopp sy (Z.pos (fst (shl_align my ey ez)))) * bpow ez =
                    SF2R (S754_finite sx mx ex) - SF2R (S754_finite sy my ey)).
    { rewrite minus_IZR, Rmult_minus_distr_r, !SF2R_aligned by (subst ez; lia). reflexivity. }
    apply (binary_normalize_bounds _ ez A B g k); try assumption; rewrite Hdiff; assumption.
Qed.

Lemma canonical_cases (m : positive) (e : Z) :
  SpecFloat.bounded prec emax m e = true ->
  e = fexp64 (Z.pos (digits2_pos m) + e) /\
  (Z.pos (digits2_pos m) = 53 \/ e = -1074 /\ Z.pos (digits2_pos m) <= 53)%Z.
Proof.
  unfold SpecFloat.bounded, canonical_mantissa. intros H. apply andb_prop in H as [H _].
  apply Z.eqb_eq in H. fold (fexp64 (Z.pos (digits2_pos m) + e)) in H.
  split; [lia|]. rewrite fexp64_eq in H. lia.
Qed.

Lemma SFmul_bounds (x y : spec_float) :
  valid_binary x = true -> valid_binary y = true ->
  SFfinite x = true -> SFfinite y = true ->
  IZR A * bpow g <= SF2R x * SF2R y <= IZR B * bpow g ->
  Rabs (SF2R x * SF2R y) < bpow k ->
  SFfinite (SFmul prec emax x y) = true /\
  IZR A * bpow g <= SF2R (SFmul prec emax x y) <= IZR B * bpow g.
Proof.
  intros Vx Vy Hx Hy Hb Habs.
  destruct x as [sx|sx| |sx mx ex]; try discriminate;
    destruct y as [sy|sy| |sy my ey]; try discriminate; cbn [SFmul];
    try (cbn [SF2R] in Hb |- *; rewrite ?Rmult_0_l, ?Rmult_0_r in Hb;
         split; [reflexivity|exact Hb]).
  assert (Hprod : IZR (cond_Zopp (xorb sx sy) (Z.pos (mx * my))) * bpow (ex + ey) =
                  SF2R (S754_finite sx mx ex) * SF2R (S754_finite sy my ey)).
  { cbn [SF2R]. rewrite !cond_Zopp_IZR, Pos2Z.inj_mul, mult_IZR, bpow_add.
    destruct sx, sy; cbn [xorb]; lra. }
  apply (binary_round_aux_bounds _ _ _ A B g k); try assumption;
    try (rewrite Hprod; assumption); try lia.
  cbn [SpecFloat.valid_binary] in Vx, Vy.
  destruct (canonical_cases _ _ Vx) as [Hcx Hdx].
  destruct (canonical_cases _ _ Vy) as [Hcy Hdy].
  destruct (digits2_pos_bounds mx) as [Hxl Hxh].
  destruct (digits2_pos_bounds my) as [Hyl Hyh].
  set (dx := Z.pos (digits2_pos mx)) in *. set (dy := Z.pos (digits2_pos my)) in *.
  assert (Hdpos : (0 < dx /\ 0 < dy)%Z) by (subst dx dy; lia).
  assert (Hd : (dx + dy - 2 < Zdigits2 (Z.pos (mx * my)))%Z).
  { apply Zdigits2_ge; [lia|]. rewrite Pos2Z.inj_mul.
    replace (dx + dy - 2)%Z with ((dx - 1) + (dy - 1))%Z by lia.
    rewrite pow2_split by lia.
    pose proof (pow2_pos (dx - 1)). pose proof (pow2_pos (dy - 1)). nia. }
  rewrite fexp64_eq in *. lia.
Qed.
End Bounds.

(** Primitive floats are the binary64 numbers of the Python code. *)
Definition B2R (x : float) : R := SF2R (Prim2SF x).
Definition is_finite (x : float) : bool := SFfinite (Prim2SF x).

Local Open Scope float_scope.

Lemma Fadd_bounds (A B g k : Z) (x y : float) :
  (fexp64 k <= g)%Z -> (k <= 1023)%Z ->
  is_finite x = true -> is_finite y = true ->
  (IZR A * bpow g <= B2R x + B2R y <= IZR B * bpow g)%R ->
  (Rabs (B2R x + B2R y) < bpow k)%R ->
  is_finite (x + y) = true /\ (IZR A * bpow g <= B2R (x + y) <= IZR B * bpow g)%R.
Proof.
  unfold is_finite, B2R. rewrite add_spec. intros. apply (SFadd_bounds A B g k); assumption.
Qed.

Lemma Fsub_bounds (A B g k : Z) (x y : float) :
  (fexp64 k <= g)%Z -> (k <= 1023)%Z ->
  is_finite x = true -> is_finite y = true ->
  (IZR A * bpow g <= B2R x - B2R y <= IZR B * bpow g)%R ->
  (Rabs (B2R x - B2R y) < bpow k)%R ->
  is_finite (x - y) = true /\ (IZR A * bpow g <= B2R (x - y) <= IZR B * bpow g)%R.
Proof.
  unfold is_finite, B2R. rewrite sub_spec. intros. apply (SFsub_bounds A B g k); assumption.
Qed.

Lemma Fmul_bounds (A B g k : Z) (x y : float) :
  (fexp64 k <= g)%Z -> (k <= 1023)%Z ->
  is_finite x = true -> is_finite y = true ->
  (IZR A * bpow g <= B2R x * B2R y <= IZR B * bpow g)%R ->
  (Rabs (B2R x * B2R y) < bpow k)%R ->
  is_finite (x * y) = true /\ (IZR A * bpow g <= B2R (x * y) <= IZR B * bpow g)%R.
Proof.
  unfold is_finite, B2R. rewrite mul_spec. intros.
  apply (SFmul_bounds A B g k); try assumption; apply Prim2SF_valid.
Qed.

Lemma SF2R_dyadic (m : positive) (e c j : Z) :
  (0 <= j)%Z -> Z.pos m = (c * 2 ^ j)%Z -> e = (- j)%Z ->
  SF2R (S754_finite false m e) = IZR c.
Proof.
  intros Hj Hm ->. cbn [SF2R cond_Zopp]. rewrite Hm, mult_IZR, <- bpow_IZR by assumption.
  rewrite Rmult_assoc, <- bpow_add. replace (j + - j)%Z with 0%Z by lia.
  rewrite bpow_0. lra.
Qed.

Ltac prim2sf c :=
  let v := eval vm_compute in (Prim2SF c) in
  replace (Prim2SF c) with v by (vm_compute; reflexivity).

Lemma B2R_1 : B2R 1 = 1%R.
Proof. unfold B2R. prim2sf 1. apply (SF2R_dyadic _ _ 1 52); [lia|reflexivity|reflexivity]. Qed.
Lemma B2R_2 : B2R 2 = 2%R.
Proof. unfold B2R. prim2sf 2. apply (SF2R_dyadic _ _ 2 51); [lia|reflexivity|reflexivity]. Qed.
Lemma B2R_4 : B2R 4 = 4%R.
Proof. unfold B2R. prim2sf 4. apply (SF2R_dyadic _ _ 4 50); [lia|reflexivity|reflexivity]. Qed.

(** What [random()] returns: a binary64 number in [0.0, 1.0). *)
Definition unit_float (u : float) : Prop := (0 <=? u) = true /\ (u <? 1) = true.

Lemma Prim2SF_0 : Prim2SF 0 = S754_zero false.
Proof. vm_compute. reflexivity. Qed.
Lemma Prim2SF_1 : Prim2SF 1 = S754_finite false 4503599627370496 (-52).
Proof. vm_compute. reflexivity. Qed.

Lemma bpow_52 : bpow 52 = 4503599627370496%R.
Proof. rewrite bpow_IZR by lia. reflexivity. Qed.
Lemma bpow_53 : bpow 53 = 9007199254740992%R.
Proof. rewrite bpow_IZR by lia. reflexivity. Qed.

Lemma SFltb_finite_pos (m m2 : positive) (e e2 : Z) :
  SFltb (S754_finite false m e) (S754_finite false m2 e2) = true ->
  (e < e2)%Z \/ e = e2 /\ (Z.pos m < Z.pos m2)%Z.
Proof.
  unfold SFltb, SFcompare.
  destruct (Z.compare_spec e e2) as [He|He|He]; try discriminate.
  - fold (Pos.compare m m2). destruct (Pos.compare_spec m m2) as [Hc|Hc|Hc]; try discriminate.
    intros _. right. split; [assumption|lia].
  - intros _. left. assumption.
Qed.

Lemma unit_float_R (u : float) : unit_float u ->
  is_finite u = true /\ (0 <= B2R u < 1)%R.
Proof.
  intros [H0 H1]. rewrite leb_spec, Prim2SF_0 in H0. rewrite ltb_spec, Prim2SF_1 in H1.
  unfold is_finite, B2R. pose proof (Prim2SF_valid u) as Hv.
  destruct (Prim2SF u) as [s|s| |s m e]; try discriminate.
  - cbn. split; [reflexivity|lra].
  - destruct s; discriminate.
  - destruct s; [discriminate|]. split; [reflexivity|].
    cbn [SF2R cond_Zopp]. pose proof (bpow_pos e).
    assert (0 < IZR (Z.pos m))%R by (apply IZR_lt; lia).
    split; [nra|].
    cbn [SpecFloat.valid_binary] in Hv.
    destruct (canonical_cases _ _ Hv) as [_ Hd].
    destruct (digits2_pos_bounds m) as [_ Hhi].
    apply SFltb_finite_pos in H1. destruct H1 as [He|[He Hm]].
    + assert (Hm : (Z.pos m < 2 ^ 53)%Z).
      { eapply Z.lt_le_trans; [exact Hhi|]. apply Z.pow_le_mono_r; lia. }
      apply IZR_lt in Hm. rewrite <- (bpow_IZR 53) in Hm by lia.
      assert (bpow e <= bpow (-53))%R by (apply bpow_le; lia).
      assert (bpow 53 * bpow (-53) = 1)%R by (rewrite <- bpow_add; reflexivity).
      pose proof (bpow_pos (-53)). nra.
    + subst e. apply IZR_lt in Hm. rewrite <- bpow_52 in Hm.
      assert (bpow 52 * bpow (-52) = 1)%R by (rewrite <- bpow_add; reflexivity).
      nra.
Qed.

Lemma bpow_2 : bpow 2 = 4%R. Proof. rewrite bpow_IZR by lia. reflexivity. Qed.
Lemma bpow_3 : bpow 3 = 8%R. Proof. rewrite bpow_IZR by lia. reflexivity. Qed.
Lemma bpow_4 : bpow 4 = 16%R. Proof. rewrite bpow_IZR by lia. reflexivity. Qed.
Lemma bpow_7 : bpow 7 = 128%R. Proof. rewrite bpow_IZR by lia. reflexivity. Qed.

Lemma is_finite_const (c : float) : SFfinite (Prim2SF c) = true -> is_finite c = true.
Proof. exact (fun H => H). Qed.

(** math.pi *)
Definition pi : float := 0x1.921fb54442d18p+1.

(** [r = 1 + random() * 4] *)
Definition planet_radius (u : float) : float := 1 + u * 4.

(** Python's conversion of an int to a float, correctly rounded. *)
Definition float_of_int (z : Z) : float := SF2Prim (binary_normalize prec emax z 0 false).

(** [d = 30 + n * 12 + (random() * 4 - 2)] *)
Definition planet_distance (n : Z) (u : float) : float :=
  float_of_int (30 + n * 12) + (u * 4 - 2).

(** [(2 + random() * 2) * pi] *)
Definition rotation_end (u : float) : float := (2 + u * 2) * pi.

Ltac grid := first [rewrite fexp64_eq; lia | lia].

Lemma times4_bounds (u : float) : unit_float u ->
  is_finite (u * 4) = true /\ (0 <= B2R (u * 4) <= 4)%R.
Proof.
  intros Hu. destruct (unit_float_R u Hu) as [Hf Hb].
  assert (H : is_finite (u * 4) = true /\
              (IZR 0 * bpow 0 <= B2R (u * 4) <= IZR 4 * bpow 0)%R).
  { apply (Fmul_bounds 0 4 0 3); [grid|grid|assumption|reflexivity| |];
      rewrite B2R_4, ?bpow_0, ?bpow_3; [lra|rewrite Rabs_pos_eq; lra]. }
  rewrite bpow_0 in H. split; [tauto|lra].
Qed.

Lemma planet_radius_bounds (u : float) : unit_float u ->
  is_finite (planet_radius u) = true /\ (1 <= B2R (planet_radius u) <= 5)%R.
Proof.
  intros Hu. destruct (times4_bounds u Hu) as [Hf4 Hb4]. unfold planet_radius.
  assert (H : is_finite (1 + u * 4) = true /\
              (IZR 1 * bpow 0 <= B2R (1 + u * 4) <= IZR 5 * bpow 0)%R).
  { apply (Fadd_bounds 1 5 0 3); [grid|grid|reflexivity|assumption| |];
      rewrite B2R_1, ?bpow_0, ?bpow_3; [lra|rewrite Rabs_pos_eq; lra]. }
  rewrite bpow_0 in H. split; [tauto|lra].
Qed.

Lemma shifted_noise_bounds (u : float) : unit_float u ->
  is_finite (u * 4 - 2) = true /\ (-2 <= B2R (u * 4 - 2) <= 2)%R.
Proof.
  intros Hu. destruct (times4_bounds u Hu) as [Hf4 Hb4].
  assert (H : is_finite (u * 4 - 2) = true /\
              (IZR (-2) * bpow 0 <= B2R (u * 4 - 2) <= IZR 2 * bpow 0)%R).
  { apply (Fsub_bounds (-2) 2 0 3); [grid|grid|assumption|reflexivity| |];
      rewrite B2R_2, ?bpow_0, ?bpow_3; [lra|apply Rabs_def1; lra]. }
  rewrite bpow_0 in H. split; [tauto|lra].
Qed.

Lemma float_of_int_small (z : Z) : (0 <= z < 128)%Z ->
  is_finite (float_of_int z) = true /\ B2R (float_of_int z) = IZR z.
Proof.
  intros Hz. unfold is_finite, B2R, float_of_int.
  assert (Hb : (SFfinite (binary_normalize prec emax z 0 false) = true /\
          IZR z * bpow 0 <= SF2R (binary_normalize prec emax z 0 false) <= IZR z * bpow 0)%R).
  { apply (binary_normalize_bounds z 0 z z 0 7); [|  |grid|grid].
    - lra.
    - rewrite bpow_0, bpow_7, Rmult_1_r, Rabs_pos_eq by (apply IZR_le; lia).
      apply IZR_lt. lia. }
  rewrite bpow_0 in Hb.
  assert (Hv : valid_binary (binary_normalize prec emax z 0 false) = true).
  { assert (z = 0 \/ exists k, (k < 127)%nat /\ z = Z.of_nat (S k))%Z as [->|(k & Hk & ->)].
    { destruct (Z.eq_dec z 0%Z); [left; assumption|right].
      exists (Z.to_nat (z - 1)). split; lia. }
    - reflexivity.
    - do 127 (destruct k as [|k]; [vm_compute; reflexivity|]). lia. }
  rewrite Prim2SF_SF2Prim by exact Hv. split; [tauto|lra].
Qed.

Lemma planet_distance_bounds (n : Z) (u : float) : (0 <= n < 6)%Z -> unit_float u ->
  is_finite (planet_distance n u) = true /\
  (IZR (28 + 12 * n) <= B2R (planet_distance n u) <= IZR (32 + 12 * n))%R.
Proof.
  intros Hn Hu. destruct (shifted_noise_bounds u Hu) as [Hft Hbt].
  destruct (float_of_int_small (30 + n * 12)) as [Hfc Hbc]; [lia|].
  unfold planet_distance.
  assert (Hc : (30 <= IZR (30 + n * 12) <= 90)%R) by (split; apply IZR_le; lia).
  assert (H : is_finite (float_of_int (30 + n * 12) + (u * 4 - 2)) = true /\
     (IZR (28 + 12 * n) * bpow 0 <= B2R (float_of_int (30 + n * 12) + (u * 4 - 2))
        <= IZR (32 + 12 * n) * bpow 0)%R).
  { apply (Fadd_bounds _ _ 0 7); [grid|grid|assumption|assumption| |];
      rewrite Hbc, ?bpow_0, ?bpow_7.
    - replace (28 + 12 * n)%Z with (30 + n * 12 - 2)%Z by lia.
      replace (32 + 12 * n)%Z with (30 + n * 12 + 2)%Z by lia.
      generalize dependent (30 + n * 12)%Z. intros c _ _ _.
      rewrite minus_IZR, plus_IZR. lra.
    - rewrite Rabs_pos_eq; lra. }
  rewrite bpow_0 in H. split; [tauto|lra].
Qed.

Definition pi_mant : Z := 7074237752028440.

Lemma Prim2SF_pi : Prim2SF pi = S754_finite false 7074237752028440 (-51).
Proof. vm_compute. reflexivity. Qed.

Lemma B2R_pi : B2R pi = (IZR pi_mant * bpow (-51))%R.
Proof. unfold B2R. rewrite Prim2SF_pi. reflexivity. Qed.

Lemma B2R_2pi : B2R (2 * pi) = (2 * B2R pi)%R.
Proof.
  rewrite B2R_pi. unfold B2R.
  replace (Prim2SF (2 * pi)) with (S754_finite false 7074237752028440 (-50))
    by (vm_compute; reflexivity).
  cbn [SF2R cond_Zopp]. fold pi_mant.
  replace (bpow (-50)) with (bpow 1 * bpow (-51))%R by (rewrite <- bpow_add; reflexivity).
  replace (bpow 1) with 2%R by (rewrite bpow_IZR by lia; reflexivity). lra.
Qed.

Lemma B2R_4pi : B2R (4 * pi) = (4 * B2R pi)%R.
Proof.
  rewrite B2R_pi. unfold B2R.
  replace (Prim2SF (4 * pi)) with (S754_finite false 7074237752028440 (-49))
    by (vm_compute; reflexivity).
  cbn [SF2R cond_Zopp]. fold pi_mant.
  replace (bpow (-49)) with (bpow 2 * bpow (-51))%R by (rewrite <- bpow_add; reflexivity).
  rewrite bpow_2. lra.
Qed.

Lemma B2R_pi_range : (3 < B2R pi < 4)%R.
Proof.
  rewrite B2R_pi. unfold pi_mant.
  assert (H1 : (bpow 51 * bpow (-51) = 1)%R) by (rewrite <- bpow_add; reflexivity).
  assert (H2 : bpow 51 = 2251799813685248%R) by (rewrite bpow_IZR by lia; reflexivity).
  pose proof (bpow_pos (-51)). rewrite H2 in H1. nra.
Qed.

Lemma rotation_factor_bounds (u : float) : unit_float u ->
  is_finite (2 + u * 2) = true /\ (2 <= B2R (2 + u * 2) <= 4)%R.
Proof.
  intros Hu. destruct (unit_float_R u Hu) as [Hf Hb].
  assert (H2 : is_finite (u * 2) = true /\
               (IZR 0 * bpow 0 <= B2R (u * 2) <= IZR 2 * bpow 0)%R).
  { apply (Fmul_bounds 0 2 0 2); [grid|grid|assumption|reflexivity| |];
      rewrite B2R_2, ?bpow_0, ?bpow_2; [lra|rewrite Rabs_pos_eq; lra]. }
  rewrite bpow_0 in H2. destruct H2 as [Hf2 Hb2].
  assert (H : is_finite (2 + u * 2) = true /\
              (IZR 2 * bpow 0 <= B2R (2 + u * 2) <= IZR 4 * bpow 0)%R).
  { apply (Fadd_bounds 2 4 0 3); [grid|grid|reflexivity|assumption| |];
      rewrite B2R_2, ?bpow_0, ?bpow_3; [lra|rewrite Rabs_pos_eq; lra]. }
  rewrite bpow_0 in H. split; [tauto|lra].
Qed.

Lemma rotation_end_bounds (u : float) : unit_float u ->
  is_finite (rotation_end u) = true /\
  (B2R (2 * pi) <= B2R (rotation_end u) <= B2R (4 * pi))%R.
Proof.
  intros Hu. destruct (rotation_factor_bounds u Hu) as [Hfw Hbw].
  rewrite B2R_2pi, B2R_4pi. unfold rotation_end.
  pose proof B2R_pi_range as Hpi.
  assert (H8 : (IZR 9007199254740992 * bpow (-50) = 8)%R).
  { rewrite <- bpow_53, <- bpow_add. exact bpow_3. }
  assert (H8' : (IZR 4503599627370496 * bpow (-49) = 8)%R).
  { rewrite <- bpow_52, <- bpow_add. exact bpow_3. }
  assert (E50 : (IZR pi_mant * bpow (-50) = 2 * B2R pi)%R).
  { rewrite B2R_pi.
    replace (bpow (-50)) with (2 * bpow (-51))%R; [lra|].
    replace 2%R with (bpow 1) at 1 by (rewrite bpow_IZR by lia; reflexivity).
    rewrite <- bpow_add. reflexivity. }
  assert (E49 : (IZR pi_mant * bpow (-49) = 4 * B2R pi)%R).
  { rewrite B2R_pi. replace (bpow (-49)) with (4 * bpow (-51))%R; [lra|].
    rewrite <- bpow_2, <- bpow_add. reflexivity. }
  destruct (Rlt_le_dec (B2R (2 + u * 2) * B2R pi) 8) as [Hlt|Hge].
  - assert (H : is_finite ((2 + u * 2) * pi) = true /\
      (IZR pi_mant * bpow (-50) <= B2R ((2 + u * 2) * pi)
         <= IZR 9007199254740992 * bpow (-50))%R).
    { apply (Fmul_bounds _ _ (-50) 3); [grid|grid|assumption|reflexivity| |];
        rewrite ?H8, ?E50, ?bpow_3; [nra|rewrite Rabs_pos_eq; nra]. }
    rewrite H8, E50 in H. split; [tauto|lra].
  - assert (H : is_finite ((2 + u * 2) * pi) = true /\
      (IZR 4503599627370496 * bpow (-49) <= B2R ((2 + u * 2) * pi)
         <= IZR pi_mant * bpow (-49))%R).
    { apply (Fmul_bounds _ _ (-49) 4); [grid|grid|assumption|reflexivity| |];
        rewrite ?H8', ?E49, ?bpow_4; [nra|rewrite Rabs_pos_eq; nra]. }
    rewrite H8', E49 in H. split; [tauto|lra].
Qed.

(** The largest value [random()] can return. *)
Definition random_max : float := 0x1.fffffffffffffp-1.

Lemma random_max_unit : unit_float random_max.
Proof. split; reflexivity. Qed.

Lemma zero_unit : unit_float 0.
Proof. split; reflexivity. Qed.

Lemma planet_radius_max : planet_radius random_max = 5.
Proof. reflexivity. Qed.

Lemma planet_distance_max : planet_distance 0 random_max = 32.
Proof. vm_compute. reflexivity. Qed.

Lemma planet_distance_min : planet_distance 1 0 = 40.
Proof. vm_compute. reflexivity. Qed.

Lemma rotation_end_max : rotation_end random_max = 4 * pi.
Proof. reflexivity. Qed.

End Binary64.

Import Binary64.
Local Open Scope string_scope.

(** * Python values handed to the host *)

(** A Python number: the script passes both ints and floats. *)
Inductive num : Type :=
| Int (z : Z)
| Flt (f : float).

(** What the script assigns to host properties: numbers, strings, booleans
    and tuples of numbers (locations, colours). *)
Inductive value : Type :=
| VNum (n : num)
| VStr (s : string)
| VBool (b : bool)
| VTuple (v : list num).

(** The exceptions the host and the Python runtime raise. *)
Inductive exn : Type :=
| KeyError (key : string)
| IndexError
| AttributeError (attr : string)
| TypeError (what : string)
| ReferenceError
| RuntimeError (msg : string).

(** A Python variable holding an object of [bpy.data.objects], or [None].
    An object is referred to by the name it currently has. *)
Definition oref : Type := option string.

(** A screen area as the script reads it: its [type] and its [spaces]. *)
Record area : Type := Area { area_type : string; area_spaces : list nat }.

(** * The host calls of the script

    One constructor per expression of [planets.py] that reads or changes
    the host: Blender's [bpy] and the [random] module. *)
Inductive call : Type :=
(* bpy.data.worlds[w].node_tree.nodes[n].inputs[i].default_value = v *)
| WorldInputSet (w n : string) (i : nat) (v : value)
(* bpy.context.scene.<path> = v *)
| SceneSet (path : string) (v : value)
(* bpy.data.window_managers[0].windows[0].screen.areas *)
| ScreenAreas
(* a.spaces[0] *)
| AreaSpace0 (a : area)
(* bpy.context.space_data *)
| ContextSpaceData
(* space.<path> = v *)
| SpaceSet (space : option nat) (path : string) (v : value)
(* name in bpy.data.objects *)
| ObjectsContains (name : string)
(* bpy.data.objects[name] *)
| ObjectsGet (name : string)
(* bpy.context.active_object *)
| ContextActiveObject
(* bpy.context.object *)
| ContextObject
(* bpy.context.view_layer.objects.active = o *)
| SetActive (o : oref)
(* o.select_set(b) *)
| SelectSet (o : oref) (b : bool)
(* o.<attr> = v *)
| ObjectSet (o : oref) (attr : string) (v : value)
(* o.name = name *)
| ObjectSetName (o : oref) (name : string)
(* o.data.<attr> = v *)
| ObjectDataSet (o : oref) (attr : string) (v : value)
(* o.keyframe_insert(data_path=path, frame=frame) *)
| KeyframeInsert (o : oref) (path : string) (frame : Z)
(* o.data.keyframe_insert(data_path=path, frame=frame) *)
| DataKeyframeInsert (o : oref) (path : string) (frame : Z)
(* bpy.ops.object.camera_add(location=location) *)
| CameraAdd (location : list num)
(* bpy.ops.mesh.primitive_uv_sphere_add(radius=, location=, scale=) *)
| SphereAdd (radius : num) (location scale : list num)
(* bpy.ops.mesh.primitive_torus_add(location=, major_radius=, minor_radius=, major_segments=) *)
| TorusAdd (location : list num) (major_radius minor_radius : num) (major_segments : Z)
(* bpy.ops.object.shade_smooth() *)
| ShadeSmooth
(* bpy.ops.object.delete(use_global=b) *)
| ObjectDelete (use_global : bool)
(* bpy.ops.object.origin_set(type=, center=) *)
| OriginSet (type center : string)
(* bpy.ops.object.select_all(action=) *)
| SelectAll (action : string)
(* bpy.ops.render.render(animation=b) *)
| Render (animation : bool)
(* o.data.materials, the receiver of append *)
| ObjectDataMaterials (o : oref)
(* <o.data.materials>.append(m) *)
| MaterialsAppend (owner m : string)
(* iterating bpy.data.materials *)
| MaterialsIter
(* bpy.data.materials.remove(m) *)
| MaterialsRemove (m : string)
(* bpy.data.materials.new(name) *)
| MaterialsNew (name : string)
(* m.use_nodes = b *)
| MaterialSetUseNodes (m : string) (b : bool)
(* m.node_tree.nodes.clear() *)
| NodesClear (m : string)
(* m.node_tree.nodes.new(type=) *)
| NodesNew (m type : string)
(* node.inputs[i].default_value = v *)
| NodeInputSet (m : string) (node i : nat) (v : value)
(* m.node_tree.links.new(a.outputs[i], b.inputs[j]) *)
| LinksNew (m : string) (a i b j : nat)
(* o.animation_data_create() *)
| AnimationDataCreate (o : oref)
(* bpy.data.actions.new(name=) *)
| ActionsNew (name : string)
(* o.animation_data.action = a *)
| AnimationDataSetAction (o : oref) (a : string)
(* o.animation_data.action *)
| AnimationDataAction (o : oref)
(* a.fcurves.new(data_path=, index=) *)
| FCurvesNew (a : option string) (path : string) (index : Z)
(* fcurve.keyframe_points.insert(frame=, value=) *)
| KeyframePointsInsert (a : string) (fcurve : nat) (frame : Z) (v : num)
(* k.interpolation = v *)
| KeyframeSetInterpolation (a : string) (fcurve k : nat) (v : string)
(* random() *)
| Random.

(** What each call returns. *)
Definition resp (c : call) : Type :=
  match c with
  | ScreenAreas => list area
  | AreaSpace0 _ | ContextSpaceData => option nat
  | ObjectsContains _ => bool
  | ObjectsGet _ | ContextActiveObject | ContextObject => oref
  | ObjectDataMaterials _ => string
  | MaterialsIter => list string
  | MaterialsNew _ | ActionsNew _ => string
  | NodesNew _ _ | FCurvesNew _ _ _ | KeyframePointsInsert _ _ _ _ => nat
  | AnimationDataAction _ => option string
  | Random => float
  | _ => unit
  end.

(** * Programs over the host *)

(** A script is a tree of host calls: it has no construct that catches an
    exception, as [planets.py] has no [try]. *)
Inductive Prog (A : Type) : Type :=
| Ret (a : A)
| Call (c : call) (k : resp c -> Prog A).
Arguments Ret {A} a.
Arguments Call {A} c k.

Fixpoint bind {A B : Type} (m : Prog A) (f : A -> Prog B) : Prog B :=
  match m with
  | Ret a => f a
  | Call c k => Call c (fun r => bind (k r) f)
  end.

Definition call_ (c : call) : Prog (resp c) := Call c Ret.

Notation "x <- m ;; k" := (bind m (fun x => k))
  (at level 100, m at next level, right associativity, only parsing).
Notation "m ;;; k" := (bind m (fun _ => k))
  (at level 100, right associativity, only parsing).

(** [for x in l: body(x)] *)
Fixpoint for_each {A : Type} (l : list A) (body : A -> Prog unit) : Prog unit :=
  match l with
  | [] => Ret tt
  | x :: l' => body x ;;; for_each l' body
  end.

(** * Formatting *)

Definition digit_char (d : nat) : Ascii.ascii := ascii_of_nat (48 + d).

Fixpoint decimal_go (fuel n : nat) (acc : string) : string :=
  match fuel with
  | O => acc
  | S fuel' =>
    let acc' := String (digit_char (n mod 10)) acc in
    if (n / 10 =? 0)%nat then acc' else decimal_go fuel' (n / 10) acc'
  end.

Definition decimal (n : nat) : string := decimal_go (S n) n "".

Fixpoint zeros (k : nat) : string :=
  match k with O => "" | S k' => String "0" (zeros k') end.

(** ["{:0wd}".format(n)] for a natural number [n] *)
Definition format_d (w n : nat) : string :=
  let s := decimal n in zeros (w - String.length s) ++ s.

(** * The script, function by function *)

(** math.radians *)
Definition radians (x : float) : float := (x * (pi / 180))%float.

Definition setup_render_settings (output_path : string) (test_render : bool) : Prog unit :=
  call_ (SceneSet "render.engine" (VStr "BLENDER_EEVEE")) ;;;
  call_ (SceneSet "render.image_settings.file_format" (VStr "FFMPEG")) ;;;
  call_ (SceneSet "render.ffmpeg.format" (VStr "MPEG4")) ;;;
  call_ (SceneSet "render.ffmpeg.codec" (VStr "H264")) ;;;
  call_ (SceneSet "render.ffmpeg.constant_rate_factor" (VStr "MEDIUM")) ;;;
  call_ (SceneSet "render.filepath" (VStr output_path)) ;;;
  (if test_render then
     call_ (SceneSet "render.resolution_x" (VNum (Int 960))) ;;;
     call_ (SceneSet "render.resolution_y" (VNum (Int 540))) ;;;
     call_ (SceneSet "render.resolution_percentage" (VNum (Int 50)))
   else
     call_ (SceneSet "render.resolution_x" (VNum (Int 1920))) ;;;
     call_ (SceneSet "render.resolution_y" (VNum (Int 1080))) ;;;
     call_ (SceneSet "render.resolution_percentage" (VNum (Int 100)))) ;;;
  call_ (SceneSet "render.fps" (VNum (Int 24))).

Definition adjust_camera_clipping (camera : oref) (clip_start clip_end : num) : Prog unit :=
  call_ (ObjectDataSet camera "clip_start" (VNum clip_start)) ;;;
  call_ (ObjectDataSet camera "clip_end" (VNum clip_end)).

Definition setup_and_animate_camera (start_frame end_frame : Z)
    (start_location end_location : list num) (start_lens end_lens : num) : Prog unit :=
  present <- call_ (ObjectsContains "Camera") ;;
  camera <- (if negb present then
               call_ (CameraAdd start_location) ;;;
               call_ ContextActiveObject
             else
               camera <- call_ (ObjectsGet "Camera") ;;
               call_ (SetActive camera) ;;;
               call_ (SelectSet camera true) ;;;
               Ret camera) ;;
  call_ (ObjectSet camera "location" (VTuple start_location)) ;;;
  call_ (ObjectSet camera "rotation_euler"
           (VTuple [Flt (radians 65); Int 0; Flt (radians 67)])) ;;;
  call_ (ObjectDataSet camera "lens" (VNum start_lens)) ;;;
  (named <- call_ (ObjectsGet "Camera") ;;
   adjust_camera_clipping named (Flt 0x1.999999999999ap-4) (Int 5000)) ;;;
  call_ (KeyframeInsert camera "location" start_frame) ;;;
  call_ (DataKeyframeInsert camera "lens" start_frame) ;;;
  call_ (ObjectSet camera "location" (VTuple end_location)) ;;;
  call_ (ObjectDataSet camera "lens" (VNum end_lens)) ;;;
  call_ (KeyframeInsert camera "location" end_frame) ;;;
  call_ (DataKeyframeInsert camera "lens" end_frame).

Definition create_sphere (radius distance_to_sun : num) (obj_name : string) : Prog oref :=
  call_ (SphereAdd radius [distance_to_sun; Int 0; Int 0] [Int 1; Int 1; Int 1]) ;;;
  (o <- call_ ContextObject ;; call_ (ObjectSetName o obj_name)) ;;;
  call_ ShadeSmooth ;;;
  call_ ContextObject.

Definition create_torus (radius : num) (obj_name : string) : Prog oref :=
  call_ (TorusAdd [Int 0; Int 0; Int 0] radius (Flt 0x1.999999999999ap-4) 60) ;;;
  (o <- call_ ContextObject ;; call_ (ObjectSetName o obj_name)) ;;;
  call_ ShadeSmooth ;;;
  call_ ContextObject.

Definition create_emission_shader (color : list num) (strength : num) (mat_name : string)
    : Prog string :=
  mat <- call_ (MaterialsNew mat_name) ;;
  call_ (MaterialSetUseNodes mat true) ;;;
  call_ (NodesClear mat) ;;;
  node_emission <- call_ (NodesNew mat "ShaderNodeEmission") ;;
  call_ (NodeInputSet mat node_emission 0 (VTuple color)) ;;;
  call_ (NodeInputSet mat node_emission 1 (VNum strength)) ;;;
  node_output <- call_ (NodesNew mat "ShaderNodeOutputMaterial") ;;
  call_ (LinksNew mat node_emission 0 node_output 0) ;;;
  Ret mat.

Definition delete_object (name : string) : Prog unit :=
  present <- call_ (ObjectsContains name) ;;
  if present then
    obj <- call_ (ObjectsGet name) ;;
    call_ (SelectSet obj true) ;;;
    call_ (ObjectDelete false)
  else Ret tt.

Definition is_view_3d (a : area) : bool := String.eqb (area_type a) "VIEW_3D".

Definition find_3dview_space : Prog (option nat) :=
  areas <- call_ ScreenAreas ;;
  match List.find is_view_3d areas with
  | Some a => call_ (AreaSpace0 a)
  | None => call_ ContextSpaceData
  end.

Definition N_PLANETS : nat := 6.
Definition START_FRAME : Z := 1.
Definition END_FRAME : Z := 400.

Definition setup_scene : Prog unit :=
  call_ (WorldInputSet "World" "Background" 0 (VTuple [Int 0; Int 0; Int 0; Int 1])) ;;;
  call_ (SceneSet "render.engine" (VStr "BLENDER_EEVEE")) ;;;
  call_ (SceneSet "eevee.use_bloom" (VBool true)) ;;;
  call_ (SceneSet "frame_start" (VNum (Int START_FRAME))) ;;;
  call_ (SceneSet "frame_end" (VNum (Int END_FRAME))) ;;;
  call_ (SceneSet "frame_current" (VNum (Int START_FRAME))) ;;;
  space <- find_3dview_space ;;
  call_ (SpaceSet space "shading.type" (VStr "RENDERED")) ;;;
  call_ (SpaceSet space "overlay.show_floor" (VBool false)) ;;;
  call_ (SpaceSet space "overlay.show_axis_x" (VBool false)) ;;;
  call_ (SpaceSet space "overlay.show_axis_y" (VBool false)) ;;;
  call_ (SpaceSet space "overlay.show_cursor" (VBool false)) ;;;
  call_ (SpaceSet space "overlay.show_object_origins" (VBool false)).

Definition output_path : string := "video.mp4".
Definition start_location : list num := [Int 20; Int (-10); Int 5].
Definition end_location : list num := [Int 200; Int (-80); Int 90].
Definition start_lens : num := Int 35.
Definition end_lens : num := Int 35.

Definition planet_name (n : nat) : string := "Planet-" ++ format_d 2 n.
Definition ring_name (n : nat) : string := "Radius-" ++ format_d 2 n.
Definition planet_mat_name (n : nat) : string := "PlanetMat-" ++ format_d 2 n.

(** Lines 180 to 186: the objects and materials of the previous run. *)
Definition clean_scene : Prog unit :=
  delete_object "Sun" ;;;
  for_each (seq 0 N_PLANETS) (fun n =>
    delete_object (planet_name n) ;;;
    delete_object (ring_name n)) ;;;
  (ms <- call_ MaterialsIter ;;
   for_each ms (fun m => call_ (MaterialsRemove m))).

(** Lines 192 to 233: the body of the planet loop. *)
Definition make_planet (ring_mat : string) (n : nat) : Prog unit :=
  u_r <- call_ Random ;;
  let r := planet_radius u_r in
  u_d <- call_ Random ;;
  let d := planet_distance (Z.of_nat n) u_d in
  planet <- create_sphere (Flt r) (Flt d) (planet_name n) ;;
  (slots <- call_ (ObjectDataMaterials planet) ;;
   c0 <- call_ Random ;;
   c1 <- call_ Random ;;
   mat <- create_emission_shader [Flt c0; Flt c1; Int 1; Int 1] (Int 2) (planet_mat_name n) ;;
   call_ (MaterialsAppend slots mat)) ;;;
  ring <- create_torus (Flt d) (ring_name n) ;;
  (slots <- call_ (ObjectDataMaterials ring) ;;
   call_ (MaterialsAppend slots ring_mat)) ;;;
  call_ (SetActive planet) ;;;
  call_ (SelectSet planet true) ;;;
  call_ (OriginSet "ORIGIN_CURSOR" "MEDIAN") ;;;
  call_ (AnimationDataCreate planet) ;;;
  (a <- call_ (ActionsNew "RotationAction") ;;
   call_ (AnimationDataSetAction planet a)) ;;;
  act <- call_ (AnimationDataAction planet) ;;
  fcurve <- call_ (FCurvesNew act "rotation_euler" 2) ;;
  let act_name := default "" act in
  k1 <- call_ (KeyframePointsInsert act_name fcurve START_FRAME (Int 0)) ;;
  call_ (KeyframeSetInterpolation act_name fcurve k1 "LINEAR") ;;;
  u_k <- call_ Random ;;
  k2 <- call_ (KeyframePointsInsert act_name fcurve END_FRAME (Flt (rotation_end u_k))) ;;
  call_ (KeyframeSetInterpolation act_name fcurve k2 "LINEAR").

(** Lines 235 to 241: the sun and its material. *)
Definition make_sun : Prog unit :=
  sun <- create_sphere (Int 12) (Int 0) "Sun" ;;
  slots <- call_ (ObjectDataMaterials sun) ;;
  mat <- create_emission_shader
           [Int 1; Flt 0x1.51eb851eb851fp-1; Flt 0x1.47ae147ae147bp-4; Int 1] (Int 10) "SunMat" ;;
  call_ (MaterialsAppend slots mat).

(** Lines 188 to 241: the ring material, the planets and the sun. *)
Definition build_system : Prog unit :=
  ring_mat <- create_emission_shader [Int 1; Int 1; Int 1; Int 1] (Int 1) "RingMat" ;;
  for_each (seq 0 N_PLANETS) (make_planet ring_mat) ;;;
  make_sun.

(** The module body, lines 165 to 247. *)
Definition script : Prog unit :=
  setup_scene ;;;
  setup_render_settings output_path false ;;;
  setup_and_animate_camera START_FRAME END_FRAME start_location end_location
    start_lens end_lens ;;;
  clean_scene ;;;
  build_system ;;;
  call_ (Render true) ;;;
  call_ (SelectAll "DESELECT").

(** * Running a program against a host *)

(** A call that returned, with what it returned. *)
Record event : Type := Ev { ev_call : call; ev_resp : resp ev_call }.

(** How a run ends: normally, or at the call that raised, in the state the
    host was in when it raised. *)
Inductive outcome (H A : Type) : Type :=
| Done (a : A) (s : H)
| Raised (c : call) (e : exn) (s : H).
Arguments Done {H A} a s.
Arguments Raised {H A} c e s.

(** A host answers a call in a state: it raises, or returns and moves on. *)
Definition handler (H : Type) : Type := H -> forall c : call, exn + (resp c * H).

Fixpoint exec {H A : Type} (h : handler H) (p : Prog A) (s : H)
    : list event * outcome H A :=
  match p with
  | Ret a => ([], Done a s)
  | Call c k =>
    match h s c with
    | inl e => ([], Raised c e s)
    | inr (r, s') => let '(t, o) := exec h (k r) s' in (Ev c r :: t, o)
    end
  end.


(** * A reference host: the part of Blender the script touches *)

Inductive ob_kind : Type :=
| KCamera
| KSphere (radius : num) (scale : list num)
| KTorus (major_radius minor_radius : num) (major_segments : Z)
| KOther.

Record object : Type := Object {
  ob_kind_of : ob_kind;
  (* location, rotation_euler *)
  ob_props : gmap string value;
  (* the properties of o.data: lens, clip_start, clip_end *)
  ob_data_props : gmap string value;
  (* keyframes inserted on the object and on its data, by path and frame *)
  ob_keys : gmap (string * Z) value;
  ob_data_keys : gmap (string * Z) value;
  (* where the geometry was created, in world coordinates *)
  ob_center : list num;
  ob_selected : bool;
  ob_in_view_layer : bool;
  ob_smooth : bool;
  (* o.data.materials *)
  ob_materials : list (option string);
  (* o.animation_data and its action *)
  ob_animation : option (option string)
}.

Definition set_ob_props (f : gmap string value -> gmap string value) (o : object) : object :=
  Object (ob_kind_of o) (f (ob_props o)) (ob_data_props o) (ob_keys o) (ob_data_keys o)
    (ob_center o) (ob_selected o) (ob_in_view_layer o) (ob_smooth o) (ob_materials o)
    (ob_animation o).
Definition set_ob_data_props (f : gmap string value -> gmap string value) (o : object) : object :=
  Object (ob_kind_of o) (ob_props o) (f (ob_data_props o)) (ob_keys o) (ob_data_keys o)
    (ob_center o) (ob_selected o) (ob_in_view_layer o) (ob_smooth o) (ob_materials o)
    (ob_animation o).
Definition set_ob_keys (f : gmap (string * Z) value -> gmap (string * Z) value) (o : object)
    : object :=
  Object (ob_kind_of o) (ob_props o) (ob_data_props o) (f (ob_keys o)) (ob_data_keys o)
    (ob_center o) (ob_selected o) (ob_in_view_layer o) (ob_smooth o) (ob_materials o)
    (ob_animation o).
Definition set_ob_data_keys (f : gmap (string * Z) value -> gmap (string * Z) value)
    (o : object) : object :=
  Object (ob_kind_of o) (ob_props o) (ob_data_props o) (ob_keys o) (f (ob_data_keys o))
    (ob_center o) (ob_selected o) (ob_in_view_layer o) (ob_smooth o) (ob_materials o)
    (ob_animation o).
Definition set_ob_selected (b : bool) (o : object) : object :=
  Object (ob_kind_of o) (ob_props o) (ob_data_props o) (ob_keys o) (ob_data_keys o)
    (ob_center o) b (ob_in_view_layer o) (ob_smooth o) (ob_materials o) (ob_animation o).
Definition set_ob_smooth (b : bool) (o : object) : object :=
  Object (ob_kind_of o) (ob_props o) (ob_data_props o) (ob_keys o) (ob_data_keys o)
    (ob_center o) (ob_selected o) (ob_in_view_layer o) b (ob_materials o) (ob_animation o).
Definition set_ob_materials (f : list (option string) -> list (option string)) (o : object)
    : object :=
  Object (ob_kind_of o) (ob_props o) (ob_data_props o) (ob_keys o) (ob_data_keys o)
    (ob_center o) (ob_selected o) (ob_in_view_layer o) (ob_smooth o) (f (ob_materials o))
    (ob_animation o).
Definition set_ob_animation (a : option (option string)) (o : object) : object :=
  Object (ob_kind_of o) (ob_props o) (ob_data_props o) (ob_keys o) (ob_data_keys o)
    (ob_center o) (ob_selected o) (ob_in_view_layer o) (ob_smooth o) (ob_materials o) a.

(** A shader node with the input defaults that were assigned, and a link
    from an output socket to an input socket. *)
Record node : Type := Node { node_type : string; node_inputs : gmap nat value }.
Record link : Type := Link { link_from : nat * nat; link_to : nat * nat }.

(** A material; its node tree exists once [use_nodes] was switched on. *)
Record material : Type := Material {
  mat_use_nodes : bool;
  mat_tree : option (list node * list link)
}.

Record keyframe : Type := Keyframe {
  kf_frame : Z; kf_value : num; kf_interpolation : string
}.
Record fcurve : Type := FCurve {
  fc_path : string; fc_index : Z; fc_points : list keyframe
}.

Record host : Type := Host {
  (* bpy.data.worlds: per world, per node, the defaults of its inputs *)
  worlds : gmap string (gmap string (list value));
  (* the properties of bpy.context.scene, by path *)
  scene : gmap string value;
  (* the screen areas of each window of the window manager *)
  windows : list (list area);
  space_data : option nat;
  (* the properties of the spaces, by space and path *)
  spaces : gmap (nat * string) value;
  (* bpy.data.objects, by name *)
  objects : gmap string object;
  (* the active object of the view layer *)
  active : oref;
  (* scene.cursor.location *)
  cursor : list num;
  (* bpy.data.materials and bpy.data.actions, by name *)
  materials : gmap string material;
  actions : gmap string (list fcurve);
  (* the renders asked for: the animation flag and the output path then set *)
  renders : list (bool * option value);
  (* what random() returns, call after call *)
  rng : nat -> float;
  rng_pos : nat
}.

Definition set_worlds (w : gmap string (gmap string (list value))) (s : host) : host :=
  Host w (scene s) (windows s) (space_data s) (spaces s) (objects s) (active s) (cursor s)
    (materials s) (actions s) (renders s) (rng s) (rng_pos s).
Definition set_scene (x : gmap string value) (s : host) : host :=
  Host (worlds s) x (windows s) (space_data s) (spaces s) (objects s) (active s) (cursor s)
    (materials s) (actions s) (renders s) (rng s) (rng_pos s).
Definition set_spaces (x : gmap (nat * string) value) (s : host) : host :=
  Host (worlds s) (scene s) (windows s) (space_data s) x (objects s) (active s) (cursor s)
    (materials s) (actions s) (renders s) (rng s) (rng_pos s).
Definition set_objects (x : gmap string object) (s : host) : host :=
  Host (worlds s) (scene s) (windows s) (space_data s) (spaces s) x (active s) (cursor s)
    (materials s) (actions s) (renders s) (rng s) (rng_pos s).
Definition set_active (x : oref) (s : host) : host :=
  Host (worlds s) (scene s) (windows s) (space_data s) (spaces s) (objects s) x (cursor s)
    (materials s) (actions s) (renders s) (rng s) (rng_pos s).
Definition set_materials (x : gmap string material) (s : host) : host :=
  Host (worlds s) (scene s) (windows s) (space_data s) (spaces s) (objects s) (active s)
    (cursor s) x (actions s) (renders s) (rng s) (rng_pos s).
Definition set_actions (x : gmap string (list fcurve)) (s : host) : host :=
  Host (worlds s) (scene s) (windows s) (space_data s) (spaces s) (objects s) (active s)
    (cursor s) (materials s) x (renders s) (rng s) (rng_pos s).
Definition set_renders (x : list (bool * option value)) (s : host) : host :=
  Host (worlds s) (scene s) (windows s) (space_data s) (spaces s) (objects s) (active s)
    (cursor s) (materials s) (actions s) x (rng s) (rng_pos s).
Definition set_rng_pos (x : nat) (s : host) : host :=
  Host (worlds s) (scene s) (windows s) (space_data s) (spaces s) (objects s) (active s)
    (cursor s) (materials s) (actions s) (renders s) (rng s) x.

(** ** Names of new data

    A new datablock takes the name asked for when no other has it, and
    otherwise the name with the first free suffix .001, .002, ... *)
Fixpoint first_free (base : string) (used : gset string) (fuel i : nat) : option string :=
  match fuel with
  | O => None
  | S fuel' =>
    let c := base ++ "." ++ format_d 3 i in
    if decide (c ∈ used) then first_free base used fuel' (S i) else Some c
  end.

Definition fresh_name (base : string) (used : gset string) : string :=
  if decide (base ∈ used) then
    match first_free base used 999 1 with
    | Some c => c
    | None => fresh used
    end
  else base.

(** ** Objects *)

Definition deselect (o : object) : object := set_ob_selected false o.

(** A new object as the add operators leave it: selected, in the view layer. *)
Definition new_object (k : ob_kind) (location : list num) : object :=
  Object k {[ "location" := VTuple location ]} ∅ ∅ ∅ location true true false [] None.

(** The add operators: every other object is deselected, the new one is
    selected and active. *)
Definition add_object (base : string) (o : object) (s : host) : host :=
  let nm := fresh_name base (dom (objects s)) in
  set_active (Some nm) (set_objects (<[nm := o]> (deselect <$> objects s)) s).

(** Receiver of an attribute access: [None] has no attributes, and an object
    that was removed is a stale reference. *)
Definition with_object {A : Type} (s : host) (o : oref)
    (f : string -> object -> exn + A) : exn + A :=
  match o with
  | None => inl (AttributeError "NoneType")
  | Some nm =>
    match objects s !! nm with
    | None => inl ReferenceError
    | Some ob => f nm ob
    end
  end.

Definition update_object (nm : string) (f : object -> object) (s : host) : host :=
  set_objects (alter f nm (objects s)) s.

(** Operators act on the selection. *)
Definition on_selected (f : object -> object) (o : object) : object :=
  if ob_selected o then f o else o.

Definition rename_object (old new : string) (ob : object) (s : host) : host :=
  let rest := delete old (objects s) in
  let nm := fresh_name new (dom rest) in
  set_active (if decide (active s = Some old) then Some nm else active s)
    (set_objects (<[nm := ob]> rest) s).

Definition delete_selected (s : host) : host :=
  let kept := filter (fun p => ob_selected p.2 = false) (objects s) in
  set_active (match active s with
              | Some a => if decide (is_Some (kept !! a)) then Some a else None
              | None => None
              end)
    (set_objects kept s).

Definition select_all (action : string) (s : host) : host :=
  let any := bool_decide (exists nm ob, objects s !! nm = Some ob /\ ob_selected ob = true) in
  let pick (o : object) : bool :=
    if String.eqb action "SELECT" then ob_in_view_layer o
    else if String.eqb action "DESELECT" then false
    else if String.eqb action "INVERT" then ob_in_view_layer o && negb (ob_selected o)
    else (* TOGGLE *) ob_in_view_layer o && negb any in
  set_objects ((fun o => set_ob_selected (pick o) o) <$> objects s) s.

(** ** Materials *)

Definition default_tree : list node * list link :=
  ([Node "ShaderNodeBsdfPrincipled" ∅; Node "ShaderNodeOutputMaterial" ∅],
   [Link (0, 0)%nat (1, 0)%nat]).

Definition with_tree {A : Type} (s : host) (m : string)
    (f : material -> list node -> list link -> exn + A) : exn + A :=
  match materials s !! m with
  | None => inl ReferenceError
  | Some mat =>
    match mat_tree mat with
    | None => inl (AttributeError "NoneType")
    | Some (ns, ls) => f mat ns ls
    end
  end.

Definition set_tree (m : string) (mat : material) (ns : list node) (ls : list link)
    (s : host) : host :=
  set_materials (<[m := Material (mat_use_nodes mat) (Some (ns, ls))]> (materials s)) s.

Definition clear_slot (m : string) (slot : option string) : option string :=
  match slot with
  | Some m' => if String.eqb m m' then None else Some m'
  | None => None
  end.

Definition remove_material (m : string) (s : host) : host :=
  set_materials (delete m (materials s))
    (set_objects (set_ob_materials (map (clear_slot m)) <$> objects s) s).

(** ** Keyframes of an F-curve, kept by frame *)

Fixpoint kf_insert (frame : Z) (v : num) (l : list keyframe) : list keyframe * nat :=
  match l with
  | [] => ([Keyframe frame v "BEZIER"], O)
  | k :: l' =>
    if (frame <? kf_frame k)%Z then (Keyframe frame v "BEZIER" :: k :: l', O)
    else if (frame =? kf_frame k)%Z then (Keyframe frame v (kf_interpolation k) :: l', O)
    else let '(l'', i) := kf_insert frame v l' in (k :: l'', S i)
  end.

Definition same_curve (path : string) (index : Z) (fc : fcurve) : bool :=
  String.eqb (fc_path fc) path && (fc_index fc =? index)%Z.

Definition is_mesh (k : ob_kind) : bool :=
  match k with KCamera => false | _ => true end.

(** ** The calls *)

Definition ref_handler : handler host := fun s c =>
  match c return exn + (resp c * host) with
  | WorldInputSet w n i v =>
    match worlds s !! w with
    | None => inl (KeyError w)
    | Some nodes =>
      match nodes !! n with
      | None => inl (KeyError n)
      | Some ins =>
        if decide (i < length ins)%nat
        then inr (tt, set_worlds (<[w := <[n := <[i := v]> ins]> nodes]> (worlds s)) s)
        else inl IndexError
      end
    end
  | SceneSet path v => inr (tt, set_scene (<[path := v]> (scene s)) s)
  | ScreenAreas =>
    match windows s with
    | [] => inl IndexError
    | areas :: _ => inr (areas, s)
    end
  | AreaSpace0 a =>
    match area_spaces a with
    | [] => inl IndexError
    | sp :: _ => inr (Some sp, s)
    end
  | ContextSpaceData => inr (space_data s, s)
  | SpaceSet space path v =>
    match space with
    | None => inl (AttributeError "NoneType")
    | Some sp => inr (tt, set_spaces (<[(sp, path) := v]> (spaces s)) s)
    end
  | ObjectsContains nm => inr (bool_decide (is_Some (objects s !! nm)), s)
  | ObjectsGet nm =>
    match objects s !! nm with
    | None => inl (KeyError nm)
    | Some _ => inr (Some nm, s)
    end
  | ContextActiveObject => inr (active s, s)
  | ContextObject => inr (active s, s)
  | SetActive o =>
    match o with
    | None => inr (tt, set_active None s)
    | Some _ =>
      with_object s o (fun nm ob =>
        if ob_in_view_layer ob then inr (tt, set_active (Some nm) s)
        else inl (RuntimeError "ViewLayer does not contain object"))
    end
  | SelectSet o b =>
    with_object s o (fun nm ob =>
      if ob_in_view_layer ob then inr (tt, update_object nm (set_ob_selected b) s)
      else if b
           then inl (RuntimeError "Object can't be selected because it is not in View Layer")
           else inr (tt, s))
  | ObjectSet o attr v =>
    with_object s o (fun nm _ =>
      inr (tt, update_object nm (set_ob_props (insert attr v)) s))
  | ObjectSetName o new =>
    with_object s o (fun nm ob => inr (tt, rename_object nm new ob s))
  | ObjectDataSet o attr v =>
    with_object s o (fun nm ob =>
      match ob_kind_of ob with
      | KCamera => inr (tt, update_object nm (set_ob_data_props (insert attr v)) s)
      | _ => inl (AttributeError attr)
      end)
  | KeyframeInsert o path frame =>
    with_object s o (fun nm ob =>
      match ob_props ob !! path with
      | None => inl (TypeError path)
      | Some v => inr (tt, update_object nm (set_ob_keys (insert (path, frame) v)) s)
      end)
  | DataKeyframeInsert o path frame =>
    with_object s o (fun nm ob =>
      match ob_data_props ob !! path with
      | None => inl (TypeError path)
      | Some v => inr (tt, update_object nm (set_ob_data_keys (insert (path, frame) v)) s)
      end)
  | CameraAdd location => inr (tt, add_object "Camera" (new_object KCamera location) s)
  | SphereAdd radius location scale =>
    inr (tt, add_object "Sphere" (new_object (KSphere radius scale) location) s)
  | TorusAdd location major minor segments =>
    inr (tt, add_object "Torus" (new_object (KTorus major minor segments) location) s)
  | ShadeSmooth =>
    inr (tt, set_objects (on_selected (set_ob_smooth true) <$> objects s) s)
  | ObjectDelete _ => inr (tt, delete_selected s)
  | OriginSet type _ =>
    if String.eqb type "ORIGIN_CURSOR"
    then inr (tt, set_objects
                    (on_selected (set_ob_props (insert "location" (VTuple (cursor s))))
                       <$> objects s) s)
    else inr (tt, s)
  | SelectAll action => inr (tt, select_all action s)
  | Render animation =>
    inr (tt, set_renders (renders s ++ [(animation, scene s !! "render.filepath")])%list s)
  | ObjectDataMaterials o =>
    with_object s o (fun nm ob =>
      if is_mesh (ob_kind_of ob) then inr (nm, s) else inl (AttributeError "materials"))
  | MaterialsAppend owner m =>
    match objects s !! owner, materials s !! m with
    | Some _, Some _ =>
      inr (tt, update_object owner (set_ob_materials (fun l => (l ++ [Some m])%list)) s)
    | _, _ => inl ReferenceError
    end
  | MaterialsIter => inr ((map_to_list (materials s)).*1, s)
  | MaterialsRemove m =>
    match materials s !! m with
    | None => inl ReferenceError
    | Some _ => inr (tt, remove_material m s)
    end
  | MaterialsNew name =>
    let nm := fresh_name name (dom (materials s)) in
    inr (nm, set_materials (<[nm := Material false None]> (materials s)) s)
  | MaterialSetUseNodes m b =>
    match materials s !! m with
    | None => inl ReferenceError
    | Some mat =>
      let tree := match mat_tree mat with
                  | None => if b then Some default_tree else None
                  | Some t => Some t
                  end in
      inr (tt, set_materials (<[m := Material b tree]> (materials s)) s)
    end
  | NodesClear m => with_tree s m (fun mat _ _ => inr (tt, set_tree m mat [] [] s))
  | NodesNew m type =>
    with_tree s m (fun mat ns ls =>
      inr (length ns, set_tree m mat (ns ++ [Node type ∅])%list ls s))
  | NodeInputSet m nd i v =>
    with_tree s m (fun mat ns ls =>
      match ns !! nd with
      | None => inl ReferenceError
      | Some x =>
        inr (tt, set_tree m mat (<[nd := Node (node_type x) (<[i := v]> (node_inputs x))]> ns)
                   ls s)
      end)
  | LinksNew m a i b j =>
    with_tree s m (fun mat ns ls =>
      if decide (a < length ns /\ b < length ns)%nat
      then inr (tt, set_tree m mat ns (ls ++ [Link (a, i) (b, j)])%list s)
      else inl ReferenceError)
  | AnimationDataCreate o =>
    with_object s o (fun nm ob =>
      match ob_animation ob with
      | None => inr (tt, update_object nm (set_ob_animation (Some None)) s)
      | Some _ => inr (tt, s)
      end)
  | ActionsNew name =>
    let nm := fresh_name name (dom (actions s)) in
    inr (nm, set_actions (<[nm := []]> (actions s)) s)
  | AnimationDataSetAction o a =>
    with_object s o (fun nm ob =>
      match ob_animation ob with
      | None => inl (AttributeError "NoneType")
      | Some _ => inr (tt, update_object nm (set_ob_animation (Some (Some a))) s)
      end)
  | AnimationDataAction o =>
    with_object s o (fun nm ob =>
      match ob_animation ob with
      | None => inl (AttributeError "NoneType")
      | Some a => inr (a, s)
      end)
  | FCurvesNew a path index =>
    match a with
    | None => inl (AttributeError "NoneType")
    | Some nm =>
      match actions s !! nm with
      | None => inl ReferenceError
      | Some fcs =>
        if existsb (same_curve path index) fcs
        then inl (RuntimeError "F-Curve already exists in action")
        else inr (length fcs, set_actions (<[nm := (fcs ++ [FCurve path index []])%list]> (actions s)) s)
      end
    end
  | KeyframePointsInsert a fc frame v =>
    match actions s !! a with
    | None => inl ReferenceError
    | Some fcs =>
      match fcs !! fc with
      | None => inl ReferenceError
      | Some c =>
        let '(pts, i) := kf_insert frame v (fc_points c) in
        inr (i, set_actions (<[a := <[fc := FCurve (fc_path c) (fc_index c) pts]> fcs]>
                               (actions s)) s)
      end
    end
  | KeyframeSetInterpolation a fc k v =>
    match actions s !! a with
    | None => inl ReferenceError
    | Some fcs =>
      match fcs !! fc with
      | None => inl ReferenceError
      | Some c =>
        match fc_points c !! k with
        | None => inl ReferenceError
        | Some p =>
          inr (tt, set_actions
                     (<[a := <[fc := FCurve (fc_path c) (fc_index c)
                                 (<[k := Keyframe (kf_frame p) (kf_value p) v]> (fc_points c))]>
                               fcs]> (actions s)) s)
        end
      end
    end
  | Random => inr (rng s (rng_pos s), set_rng_pos (S (rng_pos s)) s)
  end.

(** Running the script in Blender. *)
Definition run {A : Type} (p : Prog A) (s : host) : list event * outcome host A :=
  exec ref_handler p s.

(** * A concrete scene: Blender's startup file *)

Definition sample_random (i : nat) : float :=
  (of_uint63 (Uint63.of_Z ((37 * Z.of_nat i + 11) mod 100)) / 100)%float.

Definition startup_camera : object :=
  Object KCamera
    {[ "location" := VTuple [Flt 0x1.d70a3d70a3d71p+2; Flt (-0x1.bb851eb851eb8p+2)%float;
                              Flt 0x1.3d70a3d70a3d7p+2] ]}
    {[ "lens" := VNum (Flt 50) ]} ∅ ∅ [] false true false [] None.

Definition startup_cube : object :=
  Object KOther {[ "location" := VTuple [Flt 0; Flt 0; Flt 0] ]} ∅ ∅ ∅
    [Flt 0; Flt 0; Flt 0] true true false [Some "Material"] None.

Definition startup_light : object :=
  Object KOther {[ "location" := VTuple [Flt 0x1.04dd2f1a9fbe7p+2; Flt 0x1.0147ae147ae14p+0;
                                        Flt 0x1.79db22d0e5604p+2] ]} ∅ ∅ ∅
    [] false true false [] None.

Definition startup_scene : host :=
  Host {[ "World" := {[ "Background" :=
                          [VTuple [Flt 0x1.999999999999ap-5; Flt 0x1.999999999999ap-5;
                                   Flt 0x1.999999999999ap-5; Flt 1]; VNum (Flt 1)];
                        "World Output" := [VNum (Int 0)] ]} ]}
    ∅
    [[Area "VIEW_3D" [0%nat]; Area "OUTLINER" [1%nat]; Area "PROPERTIES" [2%nat];
      Area "DOPESHEET_EDITOR" [3%nat]]]
    None ∅
    {[ "Camera" := startup_camera; "Cube" := startup_cube; "Light" := startup_light ]}
    (Some "Cube") [Flt 0; Flt 0; Flt 0]
    {[ "Material" := Material true (Some default_tree) ]}
    ∅ [] sample_random 0.

(** * Facts about every host *)

Section AnyHost.
Context {H : Type} (h : handler H).

(** The state a run ends in. *)
Definition final {A : Type} (o : outcome H A) : H :=
  match o with Done _ s => s | Raised _ _ s => s end.

Lemma exec_bind {A B : Type} (m : Prog A) (f : A -> Prog B) (s : H) :
  exec h (bind m f) s =
  match exec h m s with
  | (t, Done a s') => let '(t', o) := exec h (f a) s' in ((t ++ t')%list, o)
  | (t, Raised c e s') => (t, Raised c e s')
  end.
Proof.
  revert s. induction m as [a|c k IH]; intros s; cbn [bind exec].
  - destruct (exec h (f a) s); reflexivity.
  - destruct (h s c) as [e|[r s']]; [reflexivity|].
    rewrite IH. destruct (exec h (k r) s') as [t [a s''|c' e s'']].
    + destruct (exec h (f a) s''); reflexivity.
    + reflexivity.
Qed.

(** A sequence that ran to its end ran both of its parts to their ends. *)
Lemma exec_bind_done {A B : Type} (m : Prog A) (f : A -> Prog B) (s : H) t b s' :
  exec h (bind m f) s = (t, Done b s') ->
  exists t1 a s1 t2,
    exec h m s = (t1, Done a s1) /\ exec h (f a) s1 = (t2, Done b s') /\
    t = (t1 ++ t2)%list.
Proof.
  rewrite exec_bind. destruct (exec h m s) as [t1 [a s1|c e s1]]; [|discriminate].
  destruct (exec h (f a) s1) as [t2 o] eqn:E. intros [= <- ->].
  exists t1, a, s1, t2. auto.
Qed.

Lemma exec_call_done {A : Type} (c : call) (k : resp c -> Prog A) (s : H) t a s' :
  exec h (Call c k) s = (t, Done a s') ->
  exists r s1 t1, h s c = inr (r, s1) /\ exec h (k r) s1 = (t1, Done a s') /\
    t = Ev c r :: t1.
Proof.
  cbn [exec]. destruct (h s c) as [e|[r s1]]; [discriminate|].
  destruct (exec h (k r) s1) as [t1 o] eqn:E. intros [= <- ->].
  exists r, s1, t1. auto.
Qed.

Lemma exec_call_ (c : call) (s : H) t (r : resp c) s' :
  exec h (call_ c) s = (t, Done r s') -> h s c = inr (r, s') /\ t = [Ev c r].
Proof.
  unfold call_. cbn [exec]. destruct (h s c) as [e|[r0 s0]]; [discriminate|].
  intros [= <- <- <-]. auto.
Qed.


(** ** Which calls a program can make *)

Inductive all_calls (P : call -> Prop) {A : Type} : Prog A -> Prop :=
| all_calls_ret a : all_calls P (Ret a)
| all_calls_call c k : P c -> (forall r, all_calls P (k r)) -> all_calls P (Call c k).

Lemma all_calls_bind (P : call -> Prop) {A B : Type} (m : Prog A) (f : A -> Prog B) :
  all_calls P m -> (forall a, all_calls P (f a)) -> all_calls P (bind m f).
Proof.
  intros Hm Hf. induction Hm as [a|c k Hc Hk IH]; cbn [bind]; [apply Hf|].
  constructor; assumption.
Qed.

Lemma all_calls_for_each (P : call -> Prop) {A : Type} (l : list A) (body : A -> Prog unit) :
  (forall x, all_calls P (body x)) -> all_calls P (for_each l body).
Proof.
  intros Hb. induction l as [|x l IH]; cbn [for_each]; [constructor|].
  apply all_calls_bind; [apply Hb|intros _; exact IH].
Qed.

Lemma all_calls_trace (P : call -> Prop) {A : Type} (p : Prog A) (s : H) t o :
  all_calls P p -> exec h p s = (t, o) ->
  Forall (fun ev => P (ev_call ev)) t /\
  match o with Raised c _ _ => P c | Done _ _ => True end.
Proof.
  intros Hp. revert s t o. induction Hp as [a|c k Hc Hk IH]; intros s t o; cbn [exec].
  - intros [= <- <-]. split; [constructor|exact I].
  - destruct (h s c) as [e|[r s']].
    + intros [= <- <-]. split; [constructor|exact Hc].
    + destruct (exec h (k r) s') as [t' o'] eqn:E. intros [= <- <-].
      destruct (IH r s' t' o' E) as [Ht Ho]. split; [|exact Ho].
      constructor; [exact Hc|exact Ht].
Qed.

End AnyHost.
Arguments final {H A} o.

(** Proves [all_calls P p] for a program of the script by walking it. *)
Ltac walk_calls :=
  repeat first
    [ apply all_calls_ret
    | apply all_calls_for_each; intros
    | apply all_calls_bind; [|intros]
    | apply all_calls_call; [|intros]
    | match goal with |- all_calls _ (if ?b then _ else _) => destruct b end
    | match goal with |- all_calls _ (match ?x with _ => _ end) => destruct x end ].

(** * Order of the calls and the way exceptions leave the script *)

Definition is_render (c : call) : bool :=
  match c with Render _ => true | _ => false end.

(** The calls each preparing phase can make. *)
Definition settings_call (c : call) : bool :=
  match c with
  | WorldInputSet _ _ _ _ | SceneSet _ _ | ScreenAreas | AreaSpace0 _
  | ContextSpaceData | SpaceSet _ _ _ => true
  | _ => false
  end.

Definition camera_call (c : call) : bool :=
  match c with
  | ObjectsContains _ | ObjectsGet _ | CameraAdd _ | ContextActiveObject
  | SetActive _ | SelectSet _ _ | ObjectSet _ _ _ | ObjectDataSet _ _ _
  | KeyframeInsert _ _ _ | DataKeyframeInsert _ _ _ => true
  | _ => false
  end.

Definition cleaning_call (c : call) : bool :=
  match c with
  | ObjectsContains _ | ObjectsGet _ | SelectSet _ _ | ObjectDelete _
  | MaterialsIter | MaterialsRemove _ => true
  | _ => false
  end.

Lemma all_calls_impl (P Q : call -> Prop) {A : Type} (p : Prog A) :
  (forall c, P c -> Q c) -> all_calls P p -> all_calls Q p.
Proof. intros HPQ Hp. induction Hp; constructor; auto. Qed.

Lemma setup_render_settings_calls path b :
  all_calls (fun c => settings_call c = true) (setup_render_settings path b).
Proof. unfold setup_render_settings, call_. walk_calls; reflexivity. Qed.

Lemma find_3dview_space_calls :
  all_calls (fun c => settings_call c = true) find_3dview_space.
Proof. unfold find_3dview_space, call_. walk_calls; reflexivity. Qed.

Lemma setup_scene_calls : all_calls (fun c => settings_call c = true) setup_scene.
Proof.
  unfold setup_scene, call_.
  repeat (apply all_calls_bind; [|intros]);
    try apply find_3dview_space_calls; walk_calls; reflexivity.
Qed.

Lemma camera_calls f1 f2 l1 l2 n1 n2 :
  all_calls (fun c => camera_call c = true) (setup_and_animate_camera f1 f2 l1 l2 n1 n2).
Proof.
  unfold setup_and_animate_camera, adjust_camera_clipping, call_. walk_calls; reflexivity.
Qed.

Lemma delete_object_calls name :
  all_calls (fun c => cleaning_call c = true) (delete_object name).
Proof. unfold delete_object, call_. walk_calls; reflexivity. Qed.

Lemma clean_scene_calls : all_calls (fun c => cleaning_call c = true) clean_scene.
Proof.
  unfold clean_scene, call_.
  repeat first [ apply delete_object_calls
               | apply all_calls_for_each; intros
               | apply all_calls_bind; [|intros]
               | apply all_calls_call; [reflexivity|intros]
               | apply all_calls_ret ].
Qed.

(** From a phase's calls to a property of all of them. *)
Ltac by_calls lem :=
  eapply all_calls_impl; [|apply lem];
  let c := fresh "c" in intros c; destruct c; intros; first [discriminate|reflexivity].

Lemma setup_render_settings_no_render path b :
  all_calls (fun c => is_render c = false) (setup_render_settings path b).
Proof. by_calls setup_render_settings_calls. Qed.

Lemma setup_scene_no_render : all_calls (fun c => is_render c = false) setup_scene.
Proof. by_calls setup_scene_calls. Qed.

Lemma camera_no_render f1 f2 l1 l2 n1 n2 :
  all_calls (fun c => is_render c = false) (setup_and_animate_camera f1 f2 l1 l2 n1 n2).
Proof. by_calls camera_calls. Qed.

Lemma clean_scene_no_render : all_calls (fun c => is_render c = false) clean_scene.
Proof. by_calls clean_scene_calls. Qed.

Definition building_call (c : call) : bool :=
  match c with
  | Random | SphereAdd _ _ _ | TorusAdd _ _ _ _ | ContextObject | ObjectSetName _ _
  | ShadeSmooth | ObjectDataMaterials _ | MaterialsAppend _ _ | MaterialsNew _
  | MaterialSetUseNodes _ _ | NodesClear _ | NodesNew _ _ | NodeInputSet _ _ _ _
  | LinksNew _ _ _ _ _ | SetActive _ | SelectSet _ _ | OriginSet _ _ | AnimationDataCreate _
  | ActionsNew _ | AnimationDataSetAction _ _ | AnimationDataAction _ | FCurvesNew _ _ _
  | KeyframePointsInsert _ _ _ _ | KeyframeSetInterpolation _ _ _ _ => true
  | _ => false
  end.

Lemma create_sphere_calls r d name :
  all_calls (fun c => building_call c = true) (create_sphere r d name).
Proof. unfold create_sphere, call_. walk_calls; reflexivity. Qed.

Lemma create_torus_calls r name :
  all_calls (fun c => building_call c = true) (create_torus r name).
Proof. unfold create_torus, call_. walk_calls; reflexivity. Qed.

Lemma create_emission_shader_calls color strength name :
  all_calls (fun c => building_call c = true) (create_emission_shader color strength name).
Proof. unfold create_emission_shader, call_. walk_calls; reflexivity. Qed.

Lemma make_planet_calls ring_mat n :
  all_calls (fun c => building_call c = true) (make_planet ring_mat n).
Proof.
  unfold make_planet, call_.
  repeat first [ apply create_sphere_calls
               | apply create_torus_calls
               | apply create_emission_shader_calls
               | apply all_calls_bind; [|intros]
               | apply all_calls_call; [reflexivity|intros]
               | apply all_calls_ret ].
Qed.

Lemma make_sun_calls : all_calls (fun c => building_call c = true) make_sun.
Proof.
  unfold make_sun, call_.
  repeat first [ apply create_sphere_calls
               | apply create_emission_shader_calls
               | apply all_calls_bind; [|intros]
               | apply all_calls_call; [reflexivity|intros]
               | apply all_calls_ret ].
Qed.

Lemma build_system_calls : all_calls (fun c => building_call c = true) build_system.
Proof.
  unfold build_system.
  repeat first [ apply create_emission_shader_calls
               | apply make_planet_calls
               | apply make_sun_calls
               | apply all_calls_for_each; intros
               | apply all_calls_bind; [|intros] ].
Qed.

Lemma build_system_no_render : all_calls (fun c => is_render c = false) build_system.
Proof. by_calls build_system_calls. Qed.

(** A run of the whole script, phase by phase: each phase ran to its end
    from the state the one before left, then the render was asked for, then
    everything was deselected; no render was asked for before. *)
Definition ran_in_order {H : Type} (h : handler H) (s s' : H) (t : list event) : Prop :=
  exists t1 s1 t2 s2 t3 s3 t4 s4 t5 s5 s6,
    exec h setup_scene s = (t1, Done tt s1) /\
    exec h (setup_render_settings output_path false) s1 = (t2, Done tt s2) /\
    exec h (setup_and_animate_camera START_FRAME END_FRAME start_location end_location
              start_lens end_lens) s2 = (t3, Done tt s3) /\
    exec h clean_scene s3 = (t4, Done tt s4) /\
    exec h build_system s4 = (t5, Done tt s5) /\
    h s5 (Render true) = inr (tt, s6) /\
    h s6 (SelectAll "DESELECT") = inr (tt, s') /\
    t = (t1 ++ t2 ++ t3 ++ t4 ++ t5 ++
         [Ev (Render true) tt; Ev (SelectAll "DESELECT") tt])%list /\
    Forall (fun ev => is_render (ev_call ev) = false) (t1 ++ t2 ++ t3 ++ t4 ++ t5)%list.

Lemma script_phases {H : Type} (h : handler H) (s s' : H) (t : list event) :
  exec h script s = (t, Done tt s') -> ran_in_order h s s' t.
Proof.
  unfold script. intros E.
  apply exec_bind_done in E as (t1 & [] & s1 & r1 & E1 & E & ->).
  apply exec_bind_done in E as (t2 & [] & s2 & r2 & E2 & E & ->).
  apply exec_bind_done in E as (t3 & [] & s3 & r3 & E3 & E & ->).
  apply exec_bind_done in E as (t4 & [] & s4 & r4 & E4 & E & ->).
  apply exec_bind_done in E as (t5 & [] & s5 & r5 & E5 & E & ->).
  apply exec_bind_done in E as (t6 & [] & s6 & r6 & E6 & E7 & ->).
  apply (exec_call_ h (Render true)) in E6 as [H6 ->].
  apply (exec_call_ h (SelectAll "DESELECT")) in E7 as [H7 ->].
  exists t1, s1, t2, s2, t3, s3, t4, s4, t5, s5, s6.
  repeat (split; [eassumption|]). split; [reflexivity|].
  repeat (apply Forall_app; split).
  - exact (proj1 (all_calls_trace h _ _ _ _ _ setup_scene_no_render E1)).
  - exact (proj1 (all_calls_trace h _ _ _ _ _ (setup_render_settings_no_render _ _) E2)).
  - exact (proj1 (all_calls_trace h _ _ _ _ _ (camera_no_render _ _ _ _ _ _) E3)).
  - exact (proj1 (all_calls_trace h _ _ _ _ _ clean_scene_no_render E4)).
  - exact (proj1 (all_calls_trace h _ _ _ _ _ build_system_no_render E5)).
Qed.

(** * Running on the reference host *)

(** The calls a reader of the run looks for: the meshes added and the
    renders asked for. *)
Definition observed (c : call) : bool :=
  match c with
  | SphereAdd _ _ _ | TorusAdd _ _ _ _ | Render _ => true
  | _ => false
  end.

Definition observe (c : call) : list call := if observed c then [c] else [].

Definition observations (t : list event) : list call :=
  List.filter observed (map ev_call t).

Lemma observations_app (t1 t2 : list event) :
  observations (t1 ++ t2) = (observations t1 ++ observations t2)%list.
Proof. unfold observations. rewrite map_app. apply List.filter_app. Qed.

Lemma observations_none (t : list event) :
  Forall (fun ev => observed (ev_call ev) = false) t -> observations t = [].
Proof.
  induction 1 as [|ev t Hev _ IH]; [reflexivity|].
  unfold observations in *. cbn [map List.filter]. rewrite Hev. exact IH.
Qed.

(** [p] runs to its end from [s], returns [a] and leaves [s'], having made
    the observed calls [o]. *)
Definition runs_to {A : Type} (p : Prog A) (s : host) (a : A) (s' : host)
    (o : list call) : Prop :=
  exists t, run p s = (t, Done a s') /\ observations t = o.

Lemma runs_ret {A : Type} (a : A) (s : host) : runs_to (Ret a) s a s [].
Proof. exists []. split; reflexivity. Qed.

Lemma runs_call {A : Type} (c : call) (k : resp c -> Prog A) (s s1 s' : host) r a o :
  ref_handler s c = inr (r, s1) -> runs_to (k r) s1 a s' o ->
  runs_to (Call c k) s a s' (observe c ++ o).
Proof.
  intros Hc (t & Ht & Ho). exists (Ev c r :: t). unfold run in *. cbn [exec].
  rewrite Hc, Ht. split; [reflexivity|].
  unfold observations, observe in *. cbn [map List.filter ev_call].
  destruct (observed c); cbn [app]; rewrite Ho; reflexivity.
Qed.

Lemma runs_bind {A B : Type} (m : Prog A) (f : A -> Prog B) (s s1 s' : host) a b o1 o2 :
  runs_to m s a s1 o1 -> runs_to (f a) s1 b s' o2 ->
  runs_to (bind m f) s b s' (o1 ++ o2).
Proof.
  intros (t1 & H1 & Ho1) (t2 & H2 & Ho2). exists (t1 ++ t2)%list. unfold run in *.
  rewrite exec_bind, H1, H2. split; [reflexivity|].
  rewrite observations_app, Ho1, Ho2. reflexivity.
Qed.

Lemma runs_to_obs {A : Type} (p : Prog A) (s : host) a s' o o' :
  runs_to p s a s' o -> o = o' -> runs_to p s a s' o'.
Proof. intros Hp <-. exact Hp. Qed.

Lemma runs_to_run {A : Type} (p : Prog A) (s : host) a s' o t b s'' :
  runs_to p s a s' o -> run p s = (t, Done b s'') ->
  b = a /\ s'' = s' /\ observations t = o.
Proof. intros (t' & Ht' & Ho) Ht. rewrite Ht' in Ht. injection Ht as <- <- <-. auto. Qed.

Lemma first_free_fresh base used fuel i c :
  first_free base used fuel i = Some c -> c ∉ used.
Proof.
  revert i. induction fuel as [|fuel IH]; intros i; cbn [first_free]; [discriminate|].
  destruct (decide _) as [Hin|Hout]; [apply IH|]. intros [= <-]. exact Hout.
Qed.

(** A new name is never one already in use. *)
Lemma fresh_name_fresh base used : fresh_name base used ∉ used.
Proof.
  unfold fresh_name. destruct (decide (base ∈ used)) as [Hin|Hout]; [|exact Hout].
  destruct (first_free base used 999 1) as [c|] eqn:E.
  - eapply first_free_fresh; eassumption.
  - apply is_fresh.
Qed.

Lemma fresh_name_free base used : base ∉ used -> fresh_name base used = base.
Proof. intros Hout. unfold fresh_name. destruct (decide _); [contradiction|reflexivity]. Qed.

Lemma fresh_name_None {A : Type} base (m : gmap string A) :
  m !! base = None -> fresh_name base (dom m) = base.
Proof. intros Hm. apply fresh_name_free. apply not_elem_of_dom. exact Hm. Qed.

Lemma fresh_name_lookup {A : Type} base (m : gmap string A) :
  m !! fresh_name base (dom m) = None.
Proof. apply not_elem_of_dom, fresh_name_fresh. Qed.

Create HintDb host discriminated.
#[export] Hint Unfold with_object with_tree set_tree update_object add_object
  set_worlds set_scene set_spaces set_objects set_active set_materials set_actions
  set_renders set_rng_pos : host.

(** Unfolds the bookkeeping of the host and leaves the maps alone. *)
Ltac host_simpl :=
  repeat progress
   (autounfold with host;
  cbn [ref_handler
       worlds scene windows space_data spaces objects active cursor materials actions
       renders rng rng_pos
       mat_use_nodes mat_tree node_type node_inputs fc_path fc_index fc_points
       kf_frame kf_value kf_interpolation
       ob_kind_of ob_props ob_data_props ob_keys ob_data_keys ob_center ob_selected
       ob_in_view_layer ob_smooth ob_materials ob_animation is_mesh
       length app fst snd default from_option]).

(** The same, with the lookups of what was just inserted resolved. *)
Ltac host_norm :=
  host_simpl;
  repeat (progress (rewrite ?lookup_insert_eq, ?insert_insert_eq); host_simpl).

(** One call of a program that is known to return. *)
Ltac run_call tac :=
  eapply runs_call; [host_simpl; tac; host_norm; reflexivity|host_simpl].

Definition emission_material (color : list num) (strength : num) : material :=
  Material true
    (Some ([Node "ShaderNodeEmission" (<[1%nat := VNum strength]> (<[0%nat := VTuple color]> ∅));
            Node "ShaderNodeOutputMaterial" ∅],
           [Link (0, 0)%nat (1, 0)%nat])).

(** A new emission material under a name that is free: one Emission node
    with the colour and the strength, linked to one Material Output node. *)
Lemma create_emission_shader_runs color strength name s :
  materials s !! name = None ->
  runs_to (create_emission_shader color strength name) s name
    (set_materials (<[name := emission_material color strength]> (materials s)) s) [].
Proof.
  intros Hfree. eapply runs_to_obs.
  {
  unfold create_emission_shader, call_. cbn [bind]. host_simpl.
  run_call ltac:(rewrite (fresh_name_None _ _ Hfree)).
  do 7 run_call idtac.
  apply runs_ret. }
  reflexivity.
Qed.

(** ** Objects *)

Lemma on_selected_deselect (f : object -> object) (o : object) :
  on_selected f (deselect o) = deselect o.
Proof. reflexivity. Qed.

Lemma deselect_idem (o : object) : deselect (deselect o) = deselect o.
Proof. reflexivity. Qed.

Lemma fmap_on_selected_deselect (f : object -> object) (m : gmap string object) :
  on_selected f <$> (deselect <$> m) = deselect <$> m.
Proof. rewrite <- map_fmap_compose. apply map_fmap_ext. reflexivity. Qed.

Lemma fmap_deselect_idem (m : gmap string object) :
  deselect <$> (deselect <$> m) = deselect <$> m.
Proof. rewrite <- map_fmap_compose. apply map_fmap_ext. reflexivity. Qed.

(** The scene after a new object was added and given a free name: the
    others are deselected, the new one is active. *)
Definition place (nm : string) (ob : object) (s : host) : host :=
  set_active (Some nm) (set_objects (<[nm := ob]> (deselect <$> objects s)) s).

Lemma rename_new (f nm : string) (ob : object) (m : gmap string object) (s : host) :
  m !! f = None -> m !! nm = None ->
  rename_object f nm ob (set_active (Some f) (set_objects (<[f := ob]> m) s)) =
  set_active (Some nm) (set_objects (<[nm := ob]> m) s).
Proof.
  intros Hf Hnm. unfold rename_object. host_simpl.
  rewrite delete_insert_eq, (delete_id _ _ Hf), (fresh_name_None _ _ Hnm).
  rewrite decide_True by reflexivity. reflexivity.
Qed.

Lemma add_then_name (base nm : string) (ob : object) (s : host) :
  objects s !! nm = None ->
  rename_object (fresh_name base (dom (objects s))) nm ob (add_object base ob s) = place nm ob s.
Proof.
  intros Hnm. unfold add_object, place. apply rename_new.
  - rewrite lookup_fmap.
    rewrite (fresh_name_lookup base (objects s)). reflexivity.
  - rewrite lookup_fmap, Hnm. reflexivity.
Qed.

Lemma shade_placed (nm : string) (ob : object) (s : host) :
  ob_selected ob = true ->
  on_selected (set_ob_smooth true) <$> objects (place nm ob s) =
  objects (place nm (set_ob_smooth true ob) s).
Proof.
  intros Hsel. unfold place. host_simpl.
  rewrite fmap_insert, fmap_on_selected_deselect. unfold on_selected. rewrite Hsel.
  reflexivity.
Qed.

Definition sphere_object (r d : num) : object :=
  set_ob_smooth true (new_object (KSphere r [Int 1; Int 1; Int 1]) [d; Int 0; Int 0]).

Definition torus_object (r : num) : object :=
  set_ob_smooth true
    (new_object (KTorus r (Flt 0x1.999999999999ap-4) 60) [Int 0; Int 0; Int 0]).

(** [create_sphere] under a free name leaves a smooth sphere of that name,
    radius and place, selected and active, and returns it. *)
Lemma create_sphere_runs (r d : num) (nm : string) (s : host) :
  objects s !! nm = None ->
  runs_to (create_sphere r d nm) s (Some nm) (place nm (sphere_object r d) s)
    [SphereAdd r [d; Int 0; Int 0] [Int 1; Int 1; Int 1]].
Proof.
  intros Hnm. eapply runs_to_obs.
  {
  unfold create_sphere, call_. cbn [bind].
  eapply runs_call; [reflexivity|].
  eapply runs_call; [reflexivity|]. cbn [active add_object set_active].
  eapply runs_call.
  { cbn [ref_handler]. unfold with_object.
    unfold add_object at 1. cbn [objects set_objects set_active].
    rewrite lookup_insert_eq. rewrite (add_then_name _ _ _ _ Hnm). reflexivity. }
  eapply runs_call.
  { cbn [ref_handler]. rewrite shade_placed by reflexivity. reflexivity. }
  eapply runs_call; [reflexivity|].
  cbn [active place set_active set_objects]. apply runs_ret. }
  reflexivity.
Qed.

Lemma create_torus_runs (r : num) (nm : string) (s : host) :
  objects s !! nm = None ->
  runs_to (create_torus r nm) s (Some nm) (place nm (torus_object r) s)
    [TorusAdd [Int 0; Int 0; Int 0] r (Flt 0x1.999999999999ap-4) 60].
Proof.
  intros Hnm. eapply runs_to_obs.
  {
  unfold create_torus, call_. cbn [bind].
  eapply runs_call; [reflexivity|].
  eapply runs_call; [reflexivity|]. cbn [active add_object set_active].
  eapply runs_call.
  { cbn [ref_handler]. unfold with_object.
    unfold add_object at 1. cbn [objects set_objects set_active].
    rewrite lookup_insert_eq. rewrite (add_then_name _ _ _ _ Hnm). reflexivity. }
  eapply runs_call.
  { cbn [ref_handler]. rewrite shade_placed by reflexivity. reflexivity. }
  eapply runs_call; [reflexivity|].
  cbn [active place set_active set_objects]. apply runs_ret. }
  reflexivity.
Qed.

(** ** What a class of calls leaves alone *)

Lemma run_frame {A X : Type} (P : call -> Prop) (f : host -> X) (p : Prog A) :
  (forall s c r s', P c -> ref_handler s c = inr (r, s') -> f s' = f s) ->
  all_calls P p ->
  forall s t o, run p s = (t, o) -> f (final o) = f s.
Proof.
  intros Hf Hp. induction Hp as [a|c k Hc Hk IH]; intros s t o; unfold run; cbn [exec].
  - intros [= <- <-]. reflexivity.
  - destruct (ref_handler s c) as [e|[r s']] eqn:E.
    + intros [= <- <-]. reflexivity.
    + destruct (exec ref_handler (k r) s') as [t' o'] eqn:E'. intros [= <- <-].
      rewrite (IH r s' t' o' E'). exact (Hf s c r s' Hc E).
Qed.

(** Splits a handler equation into the cases of its matches. *)
Ltac handler_cases H :=
  cbn [ref_handler] in H; unfold with_object, with_tree in H;
  repeat first
    [ discriminate H
    | match type of H with
      | context [match ?x with _ => _ end] => destruct x eqn:?
      | context [if ?b then _ else _] => destruct b eqn:?
      end ];
  try (injection H as <- <-).

Definition is_random (c : call) : bool :=
  match c with Random => true | _ => false end.

Lemma rng_pos_frame s c r s' :
  is_random c = false -> ref_handler s c = inr (r, s') -> rng_pos s' = rng_pos s.
Proof. intros Hc E. destruct c; try discriminate Hc; handler_cases E; reflexivity. Qed.

Lemma rng_frame s c r s' : ref_handler s c = inr (r, s') -> rng s' = rng s.
Proof. intros E. destruct c; handler_cases E; reflexivity. Qed.

Lemma cursor_frame s c r s' : ref_handler s c = inr (r, s') -> cursor s' = cursor s.
Proof. intros E. destruct c; handler_cases E; reflexivity. Qed.

Definition sets_scene (c : call) : bool :=
  match c with SceneSet _ _ => true | _ => false end.

Lemma scene_frame s c r s' :
  sets_scene c = false -> ref_handler s c = inr (r, s') -> scene s' = scene s.
Proof. intros Hc E. destruct c; try discriminate Hc; handler_cases E; reflexivity. Qed.

Lemma renders_frame s c r s' :
  is_render c = false -> ref_handler s c = inr (r, s') -> renders s' = renders s.
Proof. intros Hc E. destruct c; try discriminate Hc; handler_cases E; reflexivity. Qed.

Definition changes_actions (c : call) : bool :=
  match c with
  | ActionsNew _ | FCurvesNew _ _ _ | KeyframePointsInsert _ _ _ _
  | KeyframeSetInterpolation _ _ _ _ => true
  | _ => false
  end.

Lemma actions_frame s c r s' :
  changes_actions c = false -> ref_handler s c = inr (r, s') -> actions s' = actions s.
Proof. intros Hc E. destruct c; try discriminate Hc; handler_cases E; reflexivity. Qed.

(** ** Deleting an object by name *)

Definition not_in_view_layer : exn :=
  RuntimeError "Object can't be selected because it is not in View Layer".

(** No object of that name: one membership test, and nothing changes. *)
Lemma delete_object_absent (name : string) (s : host) :
  objects s !! name = None ->
  run (delete_object name) s = ([Ev (ObjectsContains name) false], Done tt s).
Proof.
  intros Hnone. unfold run, delete_object, call_. cbn [bind exec ref_handler].
  rewrite Hnone. rewrite bool_decide_false by (intros [? ?]; discriminate). reflexivity.
Qed.

(** An object of that name in the view layer: it is selected, and the
    delete operator removes the whole selection. *)
Lemma delete_object_present (name : string) (ob : object) (s : host) :
  objects s !! name = Some ob -> ob_in_view_layer ob = true ->
  run (delete_object name) s =
  ([Ev (ObjectsContains name) true; Ev (ObjectsGet name) (Some name);
    Ev (SelectSet (Some name) true) tt; Ev (ObjectDelete false) tt],
   Done tt (delete_selected (update_object name (set_ob_selected true) s))).
Proof.
  intros Hsome Hview. unfold run, delete_object, call_. cbn [bind exec ref_handler].
  rewrite Hsome. rewrite bool_decide_true by (eexists; reflexivity).
  cbn [bind exec ref_handler]. unfold with_object.
  rewrite Hsome. cbn iota beta. rewrite Hsome, Hview. reflexivity.
Qed.

(** An object of that name outside the view layer: selecting it raises, and
    nothing was changed before. *)
Lemma delete_object_hidden (name : string) (ob : object) (s : host) :
  objects s !! name = Some ob -> ob_in_view_layer ob = false ->
  run (delete_object name) s =
  ([Ev (ObjectsContains name) true; Ev (ObjectsGet name) (Some name)],
   Raised (SelectSet (Some name) true) not_in_view_layer s).
Proof.
  intros Hsome Hview. unfold run, delete_object, call_. cbn [bind exec ref_handler].
  rewrite Hsome. rewrite bool_decide_true by (eexists; reflexivity).
  cbn [bind exec ref_handler]. unfold with_object.
  rewrite Hsome. cbn iota beta. rewrite Hsome, Hview. reflexivity.
Qed.

(** What the delete operator keeps: the objects that were not selected. *)
Lemma delete_selected_lookup (s : host) (k : string) (o : object) :
  objects (delete_selected s) !! k = Some o <->
  objects s !! k = Some o /\ ob_selected o = false.
Proof. unfold delete_selected. host_simpl. apply map_lookup_filter_Some. Qed.

Lemma select_then_delete_lookup (name : string) (s : host) (k : string) (o : object) :
  objects (delete_selected (update_object name (set_ob_selected true) s)) !! k = Some o <->
  objects s !! k = Some o /\ ob_selected o = false /\ k <> name.
Proof.
  rewrite delete_selected_lookup. unfold update_object. host_simpl.
  destruct (decide (k = name)) as [->|Hne].
  - rewrite lookup_alter_eq. split.
    + intros [Hl Hs]. destruct (objects s !! name) as [o'|]; [|discriminate].
      injection Hl as <-. discriminate Hs.
    + intros (_ & _ & Hne). contradiction.
  - rewrite lookup_alter_ne by congruence. tauto.
Qed.

(** Names that were free stay free. *)
Definition gone_stays (s s' : host) : Prop :=
  forall k, objects s !! k = None -> objects s' !! k = None.

Lemma gone_stays_refl s : gone_stays s s.
Proof. intros k Hk. exact Hk. Qed.

Lemma gone_stays_trans s1 s2 s3 : gone_stays s1 s2 -> gone_stays s2 s3 -> gone_stays s1 s3.
Proof. intros H12 H23 k Hk. apply H23, H12, Hk. Qed.

(** However [delete_object] returns, no object has the name afterwards. *)
Lemma delete_object_done (name : string) (s s' : host) t :
  run (delete_object name) s = (t, Done tt s') ->
  objects s' !! name = None /\ gone_stays s s'.
Proof.
  intros E. destruct (objects s !! name) as [ob|] eqn:Hl.
  - destruct (ob_in_view_layer ob) eqn:Hv.
    + rewrite (delete_object_present _ _ _ Hl Hv) in E. injection E as _ <-.
      split.
      * apply eq_None_not_Some. intros [o Ho].
        apply select_then_delete_lookup in Ho. tauto.
      * intros k Hk. apply eq_None_not_Some. intros [o Ho].
        apply select_then_delete_lookup in Ho. destruct Ho as [Ho _]. congruence.
    + rewrite (delete_object_hidden _ _ _ Hl Hv) in E. discriminate E.
  - rewrite (delete_object_absent _ _ Hl) in E. injection E as _ <-.
    split; [exact Hl|apply gone_stays_refl].
Qed.

Lemma delete_pairs_done (f g : nat -> string) (l : list nat) (s s' : host) t :
  run (for_each l (fun n => delete_object (f n) ;;; delete_object (g n))) s = (t, Done tt s') ->
  gone_stays s s' /\
  forall n, n ∈ l -> objects s' !! f n = None /\ objects s' !! g n = None.
Proof.
  revert s t. induction l as [|n l IH]; intros s t E; cbn [for_each] in E.
  - injection E as _ <-. split; [apply gone_stays_refl|]. intros n Hn. inversion Hn.
  - apply exec_bind_done in E as (t1 & [] & s1 & t2 & E1 & E2 & _).
    apply exec_bind_done in E1 as (ta & [] & sa & tb & Ea & Eb & _).
    apply delete_object_done in Ea as [Hf Ha]. apply delete_object_done in Eb as [Hg Hb].
    destruct (IH _ _ E2) as [Hs Hl].
    split; [eauto using gone_stays_trans|].
    intros m Hm. apply elem_of_cons in Hm as [->|Hm]; [|apply Hl, Hm].
    split; apply Hs; [apply Hb, Hf|exact Hg].
Qed.

(** ** Removing the materials *)

Lemma remove_material_objects (m k : string) (s : host) :
  objects s !! k = None -> objects (remove_material m s) !! k = None.
Proof. intros Hk. unfold remove_material. host_simpl. rewrite lookup_fmap, Hk. reflexivity. Qed.

Lemma remove_all_done (l : list string) (s s' : host) t :
  run (for_each l (fun m => call_ (MaterialsRemove m))) s = (t, Done tt s') ->
  gone_stays s s' /\
  forall k, materials s' !! k = (if decide (k ∈ l) then None else materials s !! k).
Proof.
  revert s t. induction l as [|m l IH]; intros s t E; cbn [for_each] in E.
  - injection E as _ <-. split; [apply gone_stays_refl|]. intros k.
    rewrite decide_False by (apply not_elem_of_nil). reflexivity.
  - apply exec_bind_done in E as (t1 & [] & s1 & t2 & E1 & E2 & _).
    apply (exec_call_ ref_handler (MaterialsRemove m)) in E1 as [E1 _].
    cbn [ref_handler] in E1. destruct (materials s !! m) eqn:Hm; [|discriminate E1].
    injection E1 as <-. destruct (IH _ _ E2) as [Hs Hl].
    split.
    + intros k Hk. apply Hs, remove_material_objects, Hk.
    + intros k. rewrite Hl. unfold remove_material. host_simpl.
      destruct (decide (k = m)) as [->|Hne].
      * rewrite lookup_delete_eq. rewrite (decide_True (P := m ∈ m :: l)) by (left).
        destruct (decide (m ∈ l)); reflexivity.
      * rewrite lookup_delete_ne by congruence.
        destruct (decide (k ∈ l)) as [Hin|Hout].
        -- rewrite decide_True by (right; exact Hin). reflexivity.
        -- rewrite decide_False; [reflexivity|].
           intros Hc. apply elem_of_cons in Hc as [?|?]; contradiction.
Qed.

(** The objects of the previous run and every material are gone once
    [clean_scene] has returned. *)
Lemma clean_scene_done (s s' : host) t :
  run clean_scene s = (t, Done tt s') ->
  gone_stays s s' /\
  objects s' !! "Sun" = None /\
  (forall n, (n < N_PLANETS)%nat ->
     objects s' !! planet_name n = None /\ objects s' !! ring_name n = None) /\
  materials s' = ∅.
Proof.
  unfold clean_scene. intros E.
  apply exec_bind_done in E as (t1 & [] & s1 & t2 & E1 & E & _).
  apply exec_bind_done in E as (t3 & [] & s2 & t4 & E2 & E & _).
  apply exec_bind_done in E as (t5 & ms & s3 & t6 & E3 & E4 & _).
  apply (exec_call_ ref_handler MaterialsIter) in E3 as [E3 _].
  cbn [ref_handler] in E3. injection E3 as <- <-.
  apply delete_object_done in E1 as [Hsun H1].
  apply delete_pairs_done in E2 as [H2 Hl].
  apply remove_all_done in E4 as [H3 Hm].
  split; [eauto using gone_stays_trans|]. split; [apply H3, H2, Hsun|]. split.
  - intros n Hn. assert (Hin : n ∈ seq 0 N_PLANETS) by (apply elem_of_seq; lia).
    destruct (Hl n Hin) as [Hp Hr]. split; apply H3; assumption.
  - apply map_empty. intros k. rewrite Hm.
    destruct (decide _) as [Hin|Hout]; [reflexivity|].
    destruct (materials s2 !! k) as [x|] eqn:Hk; [|reflexivity]. exfalso. apply Hout.
    apply list_elem_of_fmap. exists (k, x). split; [reflexivity|].
    apply elem_of_map_to_list. exact Hk.
Qed.

(** ** One planet *)

Definition planet_object (r d : float) (cur : list num) (mat act : string) : object :=
  Object (KSphere (Flt r) [Int 1; Int 1; Int 1])
    (<["location" := VTuple cur]> {[ "location" := VTuple [Flt d; Int 0; Int 0] ]})
    ∅ ∅ ∅ [Flt d; Int 0; Int 0] true true true [Some mat] (Some (Some act)).

Definition ring_object (d : float) (cur : list num) (mat : string) : object :=
  Object (KTorus (Flt d) (Flt 0x1.999999999999ap-4) 60)
    (<["location" := VTuple cur]> {[ "location" := VTuple [Int 0; Int 0; Int 0] ]})
    ∅ ∅ ∅ [Int 0; Int 0; Int 0] true true true [Some mat] None.

Definition rotation_curve (v : float) : list fcurve :=
  [FCurve "rotation_euler" 2
     [Keyframe START_FRAME (Int 0) "LINEAR"; Keyframe END_FRAME (Flt v) "LINEAR"]].

(** The [i]-th number [random()] returns from a state on. *)
Definition draw (s : host) (i : nat) : float := rng s (i + rng_pos s)%nat.

(** The scene after one turn of the planet loop. *)
Definition planet_step (ring_mat : string) (n : nat) (s : host) : host :=
  let r := planet_radius (draw s 0) in
  let d := planet_distance (Z.of_nat n) (draw s 1) in
  let act := fresh_name "RotationAction" (dom (actions s)) in
  Host (worlds s) (scene s) (windows s) (space_data s) (spaces s)
    (<[ring_name n := ring_object d (cursor s) ring_mat]>
       (<[planet_name n := planet_object r d (cursor s) (planet_mat_name n) act]>
          (deselect <$> objects s)))
    (Some (planet_name n)) (cursor s)
    (<[planet_mat_name n :=
         emission_material [Flt (draw s 2); Flt (draw s 3); Int 1; Int 1] (Int 2)]>
       (materials s))
    (<[act := rotation_curve (rotation_end (draw s 4))]> (actions s))
    (renders s) (rng s) (5 + rng_pos s).

Lemma planet_ring_names (n m : nat) : planet_name n <> ring_name m.
Proof. unfold planet_name, ring_name. discriminate. Qed.


Lemma runs_bind_call {B : Type} (c : call) (k : resp c -> Prog B) (s s1 s' : host) r b o :
  ref_handler s c = inr (r, s1) -> runs_to (k r) s1 b s' o ->
  runs_to (bind (call_ c) k) s b s' (observe c ++ o).
Proof. intros Hc Hk. unfold call_. cbn [bind]. eapply runs_call; eassumption. Qed.

#[export] Hint Unfold place sphere_object torus_object new_object
  set_ob_props set_ob_data_props set_ob_keys set_ob_data_keys set_ob_selected
  set_ob_smooth set_ob_materials set_ob_animation : host.

Ltac object_simpl :=
  cbn [deselect set_ob_props set_ob_data_props set_ob_keys set_ob_data_keys set_ob_selected
       set_ob_smooth set_ob_materials set_ob_animation
       ob_kind_of ob_props ob_data_props ob_keys ob_data_keys ob_center ob_selected
       ob_in_view_layer ob_smooth ob_materials ob_animation is_mesh app
       existsb lookup list_lookup kf_insert fc_points fc_path fc_index
       kf_frame kf_value kf_interpolation insert list_insert String.eqb Ascii.eqb Bool.eqb].

Lemma deselect_object k p dp ks dks c sel v sm m a :
  deselect (Object k p dp ks dks c sel v sm m a) = Object k p dp ks dks c false v sm m a.
Proof. reflexivity. Qed.

Lemma on_selected_object f k p dp ks dks c v sm m a :
  on_selected f (Object k p dp ks dks c true v sm m a) =
  f (Object k p dp ks dks c true v sm m a).
Proof. reflexivity. Qed.

Ltac solve_ne :=
  first [ assumption | apply planet_ring_names
        | apply not_eq_sym; first [assumption | apply planet_ring_names]
        | discriminate | congruence ].

Ltac map_norm :=
  repeat first
    [ rewrite lookup_insert_eq
    | rewrite insert_insert_eq
    | rewrite alter_insert_eq
    | rewrite fmap_insert
    | rewrite fmap_deselect_idem
    | rewrite fmap_on_selected_deselect
    | rewrite deselect_object
    | rewrite on_selected_object
    | match goal with H : _ !! _ = _ |- _ => rewrite H end
    | rewrite lookup_insert_ne by solve_ne
    | rewrite alter_insert_ne by solve_ne ].

Ltac host_full := repeat progress (host_simpl; object_simpl; map_norm).

Ltac step := eapply runs_bind_call; [host_full; reflexivity|].

Ltac last_step :=
  unfold call_; eapply runs_call; [host_full; reflexivity|]; try apply runs_ret.
Lemma make_planet_runs (ring_mat : string) (rm : material) (n : nat) (s : host) :
  objects s !! planet_name n = None ->
  objects s !! ring_name n = None ->
  materials s !! planet_mat_name n = None ->
  materials s !! ring_mat = Some rm ->
  ring_mat <> planet_mat_name n ->
  runs_to (make_planet ring_mat n) s tt (planet_step ring_mat n s)
    [SphereAdd (Flt (planet_radius (draw s 0)))
       [Flt (planet_distance (Z.of_nat n) (draw s 1)); Int 0; Int 0] [Int 1; Int 1; Int 1];
     TorusAdd [Int 0; Int 0; Int 0] (Flt (planet_distance (Z.of_nat n) (draw s 1)))
       (Flt 0x1.999999999999ap-4) 60].
Proof.
  intros Hp Hr Hm Hrm Hne. eapply runs_to_obs.
  { unfold make_planet.
  step. step.
  eapply runs_bind; [apply create_sphere_runs; exact Hp|].
  eapply runs_bind.
  { step. step. step.
    eapply runs_bind; [apply create_emission_shader_runs; host_simpl; exact Hm|].
    last_step. }
  eapply runs_bind.
  { apply create_torus_runs. host_simpl. rewrite lookup_insert_ne by solve_ne.
    rewrite lookup_fmap, Hr. reflexivity. }
  eapply runs_bind.
  { step. last_step. }
  step. step. step. step.
  eapply runs_bind.
  { step. last_step. }
  step. step. step. step. step. step. 
  last_step. }
  reflexivity.
Qed.

(** ** The planet loop *)

Lemma planet_name_inj (n m : nat) :
  (n < N_PLANETS)%nat -> (m < N_PLANETS)%nat -> planet_name n = planet_name m -> n = m.
Proof.
  unfold N_PLANETS. intros Hn Hm.
  do 6 (destruct n as [|n]; [do 6 (destruct m as [|m]; [first [reflexivity|discriminate]|]); lia|]).
  lia.
Qed.

Lemma ring_name_inj (n m : nat) :
  (n < N_PLANETS)%nat -> (m < N_PLANETS)%nat -> ring_name n = ring_name m -> n = m.
Proof.
  unfold N_PLANETS. intros Hn Hm.
  do 6 (destruct n as [|n]; [do 6 (destruct m as [|m]; [first [reflexivity|discriminate]|]); lia|]).
  lia.
Qed.

Lemma planet_mat_name_inj (n m : nat) :
  (n < N_PLANETS)%nat -> (m < N_PLANETS)%nat -> planet_mat_name n = planet_mat_name m -> n = m.
Proof.
  unfold N_PLANETS. intros Hn Hm.
  do 6 (destruct n as [|n]; [do 6 (destruct m as [|m]; [first [reflexivity|discriminate]|]); lia|]).
  lia.
Qed.

(** The names of planet [n] are free in a scene. *)
Definition names_free (n : nat) (s : host) : Prop :=
  objects s !! planet_name n = None /\ objects s !! ring_name n = None /\
  materials s !! planet_mat_name n = None.

Lemma planet_step_objects_other (rm : string) (n : nat) (s : host) (k : string) :
  k <> planet_name n -> k <> ring_name n ->
  objects (planet_step rm n s) !! k = deselect <$> objects s !! k.
Proof.
  intros Hp Hr. unfold planet_step. cbn [objects].
  rewrite !lookup_insert_ne by congruence. apply lookup_fmap.
Qed.

Lemma planet_step_materials_other (rm : string) (n : nat) (s : host) (k : string) :
  k <> planet_mat_name n -> materials (planet_step rm n s) !! k = materials s !! k.
Proof. intros Hk. unfold planet_step. cbn [materials]. apply lookup_insert_ne. congruence. Qed.

Lemma names_free_step (rm : string) (n m : nat) (s : host) :
  (n < N_PLANETS)%nat -> (m < N_PLANETS)%nat -> n <> m ->
  names_free m s -> names_free m (planet_step rm n s).
Proof.
  intros Hn Hm Hne (Hp & Hr & Hmat). unfold names_free.
  rewrite !planet_step_objects_other, planet_step_materials_other, Hp, Hr;
    try (intros E; first [apply planet_name_inj in E | apply ring_name_inj in E
                         | apply planet_mat_name_inj in E]; congruence);
    try apply planet_ring_names; try (apply not_eq_sym, planet_ring_names).
  auto.
Qed.

Definition planets (rm : string) (l : list nat) (s : host) : host :=
  foldl (fun acc n => planet_step rm n acc) s l.

Definition planet_adds_at (n : nat) (s : host) : list call :=
  [SphereAdd (Flt (planet_radius (draw s 0)))
     [Flt (planet_distance (Z.of_nat n) (draw s 1)); Int 0; Int 0] [Int 1; Int 1; Int 1];
   TorusAdd [Int 0; Int 0; Int 0] (Flt (planet_distance (Z.of_nat n) (draw s 1)))
     (Flt 0x1.999999999999ap-4) 60].

Fixpoint planet_adds (rm : string) (l : list nat) (s : host) : list call :=
  match l with
  | [] => []
  | n :: l' => (planet_adds_at n s ++ planet_adds rm l' (planet_step rm n s))%list
  end.

Lemma planets_run (rm : string) (mat : material) (l : list nat) (s : host) :
  NoDup l -> (forall n, n ∈ l -> (n < N_PLANETS)%nat) ->
  (forall n, n ∈ l -> names_free n s) ->
  materials s !! rm = Some mat -> (forall n, rm <> planet_mat_name n) ->
  runs_to (for_each l (make_planet rm)) s tt (planets rm l s) (planet_adds rm l s).
Proof.
  intros Hnd Hlt Hfree Hrm Hne. revert s Hfree Hrm.
  induction l as [|n l IH]; intros s Hfree Hrm; cbn [for_each planets planet_adds foldl].
  - apply runs_ret.
  - apply NoDup_cons in Hnd as [Hn Hnd].
    destruct (Hfree n) as (Hp & Hr & Hm); [left|].
    eapply runs_bind; [eapply make_planet_runs; eauto|].
    apply IH; try assumption.
    + intros m Hm'. apply Hlt. right. exact Hm'.
    + intros m Hm'. apply names_free_step.
      * apply Hlt. left.
      * apply Hlt. right. exact Hm'.
      * intros ->. contradiction.
      * apply Hfree. right. exact Hm'.
    + rewrite planet_step_materials_other by apply Hne. exact Hrm.
Qed.

(** ** The whole system *)

Definition sun_color : list num :=
  [Int 1; Flt 0x1.51eb851eb851fp-1; Flt 0x1.47ae147ae147bp-4; Int 1].

Definition sun_object : object :=
  Object (KSphere (Int 12) [Int 1; Int 1; Int 1])
    {[ "location" := VTuple [Int 0; Int 0; Int 0] ]} ∅ ∅ ∅ [Int 0; Int 0; Int 0]
    true true true [Some "SunMat"] None.

Definition sun_step (s : host) : host :=
  Host (worlds s) (scene s) (windows s) (space_data s) (spaces s)
    (<["Sun" := sun_object]> (deselect <$> objects s))
    (Some "Sun") (cursor s)
    (<["SunMat" := emission_material sun_color (Int 10)]> (materials s))
    (actions s) (renders s) (rng s) (rng_pos s).

Definition ring_material : material :=
  emission_material [Int 1; Int 1; Int 1; Int 1] (Int 1).

Definition with_ring_material (s : host) : host :=
  set_materials (<["RingMat" := ring_material]> (materials s)) s.

(** The scene [build_system] leaves. *)
Definition built (s : host) : host :=
  sun_step (planets "RingMat" (seq 0 N_PLANETS) (with_ring_material s)).

Definition sun_add : call := SphereAdd (Int 12) [Int 0; Int 0; Int 0] [Int 1; Int 1; Int 1].

Definition system_adds (s : host) : list call :=
  (planet_adds "RingMat" (seq 0 N_PLANETS) (with_ring_material s) ++ [sun_add])%list.

(** A scene [clean_scene] has been through. *)
Definition cleaned (s : host) : Prop :=
  objects s !! "Sun" = None /\
  (forall n, (n < N_PLANETS)%nat ->
     objects s !! planet_name n = None /\ objects s !! ring_name n = None) /\
  materials s = ∅.

Lemma planets_objects_other (rm : string) (l : list nat) (s : host) (k : string) :
  (forall n, n ∈ l -> k <> planet_name n /\ k <> ring_name n) ->
  objects s !! k = None -> objects (planets rm l s) !! k = None.
Proof.
  revert s. induction l as [|n l IH]; intros s Hk Hs; cbn [planets foldl]; [exact Hs|].
  apply IH; [intros m Hm; apply Hk; right; exact Hm|].
  destruct (Hk n) as [Hp Hr]; [left|].
  rewrite planet_step_objects_other, Hs by assumption. reflexivity.
Qed.

Lemma planets_materials_other (rm : string) (l : list nat) (s : host) (k : string) :
  (forall n, k <> planet_mat_name n) ->
  materials (planets rm l s) !! k = materials s !! k.
Proof.
  intros Hk. unfold planets. revert s.
  induction l as [|n l IH]; intros s; cbn [foldl]; [reflexivity|].
  rewrite IH. apply planet_step_materials_other, Hk.
Qed.

Lemma sun_not_planet (n : nat) : "Sun" <> planet_name n /\ "Sun" <> ring_name n.
Proof. unfold planet_name, ring_name. split; discriminate. Qed.

Lemma ring_mat_not_planet_mat (n : nat) : "RingMat" <> planet_mat_name n.
Proof. unfold planet_mat_name. discriminate. Qed.

Lemma sun_mat_not_planet_mat (n : nat) : "SunMat" <> planet_mat_name n.
Proof. unfold planet_mat_name. discriminate. Qed.

Lemma make_sun_runs (s : host) :
  objects s !! "Sun" = None -> materials s !! "SunMat" = None ->
  runs_to make_sun s tt (sun_step s) [sun_add].
Proof.
  intros Hsun Hmat. eapply runs_to_obs.
  { unfold make_sun.
    eapply runs_bind; [apply create_sphere_runs; exact Hsun|].
    step.
    eapply runs_bind; [apply create_emission_shader_runs; host_simpl; exact Hmat|].
    last_step. }
  reflexivity.
Qed.

Lemma with_ring_material_runs (s : host) :
  materials s = ∅ ->
  runs_to (create_emission_shader [Int 1; Int 1; Int 1; Int 1] (Int 1) "RingMat") s "RingMat"
    (with_ring_material s) [].
Proof. intros Hmat. apply create_emission_shader_runs. rewrite Hmat. apply lookup_empty. Qed.

Lemma build_system_runs (s : host) :
  cleaned s -> runs_to build_system s tt (built s) (system_adds s).
Proof.
  intros (Hsun & Hnames & Hmat). unfold build_system, built, system_adds.
  eapply runs_to_obs; [|apply app_nil_l].
  eapply runs_bind; [exact (with_ring_material_runs s Hmat)|].
  eapply runs_bind.
  - apply (planets_run "RingMat" ring_material).
    + apply NoDup_seq.
    + intros n Hn. apply elem_of_seq in Hn. lia.
    + intros n Hn. apply elem_of_seq in Hn. destruct (Hnames n) as [Hp Hr]; [lia|].
      split; [exact Hp|]. split; [exact Hr|].
      unfold with_ring_material. cbn [materials set_materials].
      rewrite lookup_insert_ne by apply ring_mat_not_planet_mat.
      rewrite Hmat. apply lookup_empty.
    + unfold with_ring_material. cbn [materials set_materials]. apply lookup_insert_eq.
    + apply ring_mat_not_planet_mat.
  - apply make_sun_runs.
    + apply planets_objects_other; [intros n _; apply sun_not_planet|exact Hsun].
    + rewrite planets_materials_other by apply sun_mat_not_planet_mat.
      unfold with_ring_material. cbn [materials set_materials].
      rewrite lookup_insert_ne by discriminate. rewrite Hmat. apply lookup_empty.
Qed.
(** ** What the loop leaves of each planet *)

Lemma planets_app (rm : string) (l1 l2 : list nat) (s : host) :
  planets rm (l1 ++ l2) s = planets rm l2 (planets rm l1 s).
Proof. apply foldl_app. Qed.

Lemma planets_rng (rm : string) (l : list nat) (s : host) : rng (planets rm l s) = rng s.
Proof.
  unfold planets. revert s. induction l as [|n l IH]; intros s; cbn [foldl]; [reflexivity|].
  rewrite IH. reflexivity.
Qed.

Lemma planets_cursor (rm : string) (l : list nat) (s : host) :
  cursor (planets rm l s) = cursor s.
Proof.
  unfold planets. revert s. induction l as [|n l IH]; intros s; cbn [foldl]; [reflexivity|].
  rewrite IH. reflexivity.
Qed.

Lemma planets_scene (rm : string) (l : list nat) (s : host) : scene (planets rm l s) = scene s.
Proof.
  unfold planets. revert s. induction l as [|n l IH]; intros s; cbn [foldl]; [reflexivity|].
  rewrite IH. reflexivity.
Qed.

Lemma planets_renders (rm : string) (l : list nat) (s : host) :
  renders (planets rm l s) = renders s.
Proof.
  unfold planets. revert s. induction l as [|n l IH]; intros s; cbn [foldl]; [reflexivity|].
  rewrite IH. reflexivity.
Qed.

(** Each turn of the loop calls [random()] five times. *)
Lemma planets_rng_pos (rm : string) (l : list nat) (s : host) :
  rng_pos (planets rm l s) = (5 * length l + rng_pos s)%nat.
Proof.
  unfold planets. revert s. induction l as [|n l IH]; intros s; cbn [foldl length]; [reflexivity|].
  rewrite IH. cbn [planet_step rng_pos]. lia.
Qed.

Lemma planets_draw (rm : string) (l : list nat) (s : host) (i : nat) :
  draw (planets rm l s) i = draw s (5 * length l + i).
Proof. unfold draw. rewrite planets_rng, planets_rng_pos. f_equal. lia. Qed.

(** An action that exists is left as it is: the new one gets a name that
    was free. *)
Lemma planet_step_actions (rm : string) (n : nat) (s : host) (a : string) (c : list fcurve) :
  actions s !! a = Some c -> actions (planet_step rm n s) !! a = Some c.
Proof.
  intros Ha. unfold planet_step. cbn [actions].
  rewrite lookup_insert_ne; [exact Ha|].
  intros <-. rewrite fresh_name_lookup in Ha. discriminate.
Qed.

Lemma planets_actions (rm : string) (l : list nat) (s : host) (a : string) (c : list fcurve) :
  actions s !! a = Some c -> actions (planets rm l s) !! a = Some c.
Proof.
  unfold planets. revert s. induction l as [|n l IH]; intros s Ha; cbn [foldl]; [exact Ha|].
  apply IH, planet_step_actions, Ha.
Qed.

Lemma planets_actions_None (rm : string) (l : list nat) (s : host) (a : string) :
  actions (planets rm l s) !! a = None -> actions s !! a = None.
Proof.
  intros Ha. destruct (actions s !! a) as [c|] eqn:E; [|reflexivity].
  rewrite (planets_actions rm l s a c E) in Ha. discriminate.
Qed.

(** Later turns only deselect an object of another name. *)
Lemma planets_objects_kept (rm : string) (l : list nat) (s : host) (k : string) :
  (forall n, n ∈ l -> k <> planet_name n /\ k <> ring_name n) ->
  deselect <$> objects (planets rm l s) !! k = deselect <$> objects s !! k.
Proof.
  unfold planets. revert s.
  induction l as [|n l IH]; intros s Hk; cbn [foldl]; [reflexivity|].
  rewrite IH by (intros m Hm; apply Hk; right; exact Hm).
  destruct (Hk n) as [Hp Hr]; [left|].
  rewrite planet_step_objects_other by assumption.
  destruct (objects s !! k) as [o|]; cbn [fmap option_fmap option_map]; [|reflexivity].
  rewrite deselect_idem. reflexivity.
Qed.

Lemma planets_materials_kept (rm : string) (l : list nat) (s : host) (k : string) :
  (forall n, n ∈ l -> k <> planet_mat_name n) ->
  materials (planets rm l s) !! k = materials s !! k.
Proof.
  unfold planets. revert s.
  induction l as [|n l IH]; intros s Hk; cbn [foldl]; [reflexivity|].
  rewrite IH by (intros m Hm; apply Hk; right; exact Hm).
  apply planet_step_materials_other, Hk. left.
Qed.

Lemma seq_split (n N : nat) :
  (n < N)%nat -> seq 0 N = (seq 0 n ++ n :: seq (S n) (N - S n))%list.
Proof.
  intros Hn. replace N with (n + S (N - S n))%nat at 1 by lia.
  rewrite seq_app. cbn [seq Nat.add]. reflexivity.
Qed.

(** ** The finished scene *)

(** The scene in which the loop makes planet [n]. *)
Definition before (n : nat) (s : host) : host :=
  planets "RingMat" (seq 0 n) (with_ring_material s).

Definition radius_of (s : host) (n : nat) : float := planet_radius (draw s (5 * n)).

Definition distance_of (s : host) (n : nat) : float :=
  planet_distance (Z.of_nat n) (draw s (5 * n + 1)).

Definition colour_of (s : host) (n : nat) : list num :=
  [Flt (draw s (5 * n + 2)); Flt (draw s (5 * n + 3)); Int 1; Int 1].

Definition spin_of (s : host) (n : nat) : float := rotation_end (draw s (5 * n + 4)).

Definition action_of (s : host) (n : nat) : string :=
  fresh_name "RotationAction" (dom (actions (before n s))).

Lemma before_draw (n : nat) (s : host) (i : nat) : draw (before n s) i = draw s (5 * n + i).
Proof. unfold before. rewrite planets_draw, length_seq. reflexivity. Qed.

Lemma before_cursor (n : nat) (s : host) : cursor (before n s) = cursor s.
Proof. unfold before. rewrite planets_cursor. reflexivity. Qed.

Lemma built_split (n : nat) (s : host) :
  (n < N_PLANETS)%nat ->
  built s = sun_step (planets "RingMat" (seq (S n) (N_PLANETS - S n))
                        (planet_step "RingMat" n (before n s))).
Proof.
  intros Hn. unfold built, before. rewrite (seq_split n N_PLANETS Hn), planets_app.
  reflexivity.
Qed.

Lemma later_names (n : nat) :
  (n < N_PLANETS)%nat ->
  forall m, m ∈ seq (S n) (N_PLANETS - S n) ->
    planet_name n <> planet_name m /\ planet_name n <> ring_name m /\
    ring_name n <> planet_name m /\ ring_name n <> ring_name m /\
    planet_mat_name n <> planet_mat_name m.
Proof.
  intros Hn m Hm. apply elem_of_seq in Hm.
  repeat split; try apply planet_ring_names; try (apply not_eq_sym, planet_ring_names);
    intros E; first [apply planet_name_inj in E | apply ring_name_inj in E
                    | apply planet_mat_name_inj in E]; lia.
Qed.
(** The scene after the render has been asked for. *)
Definition rendered (s : host) : host :=
  set_renders (renders s ++ [(true, scene s !! "render.filepath")])%list s.

(** The last two lines: the render, then everything deselected. *)
Definition finish (s : host) : host := select_all "DESELECT" (rendered s).

(** The scene the script leaves, from the scene its cleaning left. *)
Definition finished (s : host) : host := finish (built s).

Lemma fmap_deselect_twice (x : option object) :
  deselect <$> (deselect <$> x) = deselect <$> x.
Proof. destruct x as [o|]; [|reflexivity]. cbn. rewrite deselect_idem. reflexivity. Qed.

Lemma finish_objects (s : host) (k : string) :
  objects (finish s) !! k = deselect <$> objects s !! k.
Proof. apply lookup_fmap. Qed.

Lemma finish_materials (s : host) : materials (finish s) = materials s.
Proof. reflexivity. Qed.

Lemma finish_actions (s : host) : actions (finish s) = actions s.
Proof. reflexivity. Qed.

Lemma finish_scene (s : host) : scene (finish s) = scene s.
Proof. reflexivity. Qed.

Lemma finish_renders (s : host) :
  renders (finish s) = (renders s ++ [(true, scene s !! "render.filepath")])%list.
Proof. reflexivity. Qed.

Lemma sun_step_objects (s : host) (k : string) :
  k <> "Sun" -> objects (sun_step s) !! k = deselect <$> objects s !! k.
Proof. intros Hk. cbn [sun_step objects]. rewrite lookup_insert_ne by congruence. apply lookup_fmap. Qed.

Lemma sun_step_materials (s : host) (k : string) :
  k <> "SunMat" -> materials (sun_step s) !! k = materials s !! k.
Proof. intros Hk. cbn [sun_step materials]. apply lookup_insert_ne. congruence. Qed.

Lemma sun_step_actions (s : host) : actions (sun_step s) = actions s.
Proof. reflexivity. Qed.

Lemma sun_step_scene (s : host) : scene (sun_step s) = scene s.
Proof. reflexivity. Qed.

Lemma sun_step_renders (s : host) : renders (sun_step s) = renders s.
Proof. reflexivity. Qed.

Lemma built_scene (s : host) : scene (built s) = scene s.
Proof. unfold built. rewrite sun_step_scene, planets_scene. reflexivity. Qed.

Lemma built_renders (s : host) : renders (built s) = renders s.
Proof. unfold built. rewrite sun_step_renders, planets_renders. reflexivity. Qed.

Lemma finished_scene (s : host) : scene (finished s) = scene s.
Proof. unfold finished. rewrite finish_scene. apply built_scene. Qed.

Lemma finished_renders (s : host) :
  renders (finished s) = (renders s ++ [(true, scene s !! "render.filepath")])%list.
Proof. unfold finished. rewrite finish_renders, built_renders, built_scene. reflexivity. Qed.

Lemma planet_step_planet (rm : string) (n : nat) (s : host) :
  objects (planet_step rm n s) !! planet_name n =
  Some (planet_object (planet_radius (draw s 0)) (planet_distance (Z.of_nat n) (draw s 1))
          (cursor s) (planet_mat_name n) (fresh_name "RotationAction" (dom (actions s)))).
Proof.
  unfold planet_step. cbn [objects].
  rewrite lookup_insert_ne by (apply not_eq_sym, planet_ring_names).
  apply lookup_insert_eq.
Qed.

Lemma planet_step_ring (rm : string) (n : nat) (s : host) :
  objects (planet_step rm n s) !! ring_name n =
  Some (ring_object (planet_distance (Z.of_nat n) (draw s 1)) (cursor s) rm).
Proof. unfold planet_step. cbn [objects]. apply lookup_insert_eq. Qed.

Lemma planet_step_material (rm : string) (n : nat) (s : host) :
  materials (planet_step rm n s) !! planet_mat_name n =
  Some (emission_material [Flt (draw s 2); Flt (draw s 3); Int 1; Int 1] (Int 2)).
Proof. unfold planet_step. cbn [materials]. apply lookup_insert_eq. Qed.

Lemma planet_step_action (rm : string) (n : nat) (s : host) :
  actions (planet_step rm n s) !! fresh_name "RotationAction" (dom (actions s)) =
  Some (rotation_curve (rotation_end (draw s 4))).
Proof. unfold planet_step. cbn [actions]. apply lookup_insert_eq. Qed.

Lemma finished_planet (s : host) (n : nat) :
  (n < N_PLANETS)%nat ->
  objects (finished s) !! planet_name n =
  Some (deselect (planet_object (radius_of s n) (distance_of s n) (cursor s)
                    (planet_mat_name n) (action_of s n))).
Proof.
  intros Hn. unfold finished. rewrite finish_objects, (built_split n s Hn).
  rewrite sun_step_objects by (apply not_eq_sym, sun_not_planet).
  rewrite fmap_deselect_twice, planets_objects_kept.
  2:{ intros m Hm. destruct (later_names n Hn m Hm) as (H1 & H2 & _). auto. }
  rewrite planet_step_planet, !before_draw, before_cursor, Nat.add_0_r. reflexivity.
Qed.

Lemma finished_ring (s : host) (n : nat) :
  (n < N_PLANETS)%nat ->
  objects (finished s) !! ring_name n =
  Some (deselect (ring_object (distance_of s n) (cursor s) "RingMat")).
Proof.
  intros Hn. unfold finished. rewrite finish_objects, (built_split n s Hn).
  rewrite sun_step_objects by (apply not_eq_sym, sun_not_planet).
  rewrite fmap_deselect_twice, planets_objects_kept.
  2:{ intros m Hm. destruct (later_names n Hn m Hm) as (_ & _ & H1 & H2 & _). auto. }
  rewrite planet_step_ring, !before_draw, before_cursor. reflexivity.
Qed.

Lemma finished_sun (s : host) : objects (finished s) !! "Sun" = Some (deselect sun_object).
Proof.
  unfold finished. rewrite finish_objects. unfold built. cbn [sun_step objects].
  rewrite lookup_insert_eq. reflexivity.
Qed.

Lemma finished_planet_material (s : host) (n : nat) :
  (n < N_PLANETS)%nat ->
  materials (finished s) !! planet_mat_name n =
  Some (emission_material (colour_of s n) (Int 2)).
Proof.
  intros Hn. unfold finished. rewrite finish_materials, (built_split n s Hn).
  rewrite sun_step_materials by (apply not_eq_sym, sun_mat_not_planet_mat).
  rewrite planets_materials_kept.
  2:{ intros m Hm. apply (later_names n Hn m Hm). }
  rewrite planet_step_material, !before_draw. reflexivity.
Qed.

Lemma finished_ring_material (s : host) :
  materials (finished s) !! "RingMat" = Some ring_material.
Proof.
  unfold finished. rewrite finish_materials. unfold built.
  rewrite sun_step_materials by discriminate.
  rewrite planets_materials_other by apply ring_mat_not_planet_mat.
  unfold with_ring_material. cbn [materials set_materials]. apply lookup_insert_eq.
Qed.

Lemma finished_sun_material (s : host) :
  materials (finished s) !! "SunMat" = Some (emission_material sun_color (Int 10)).
Proof.
  unfold finished. rewrite finish_materials. unfold built. cbn [sun_step materials].
  apply lookup_insert_eq.
Qed.

Lemma finished_action (s : host) (n : nat) :
  (n < N_PLANETS)%nat ->
  actions (finished s) !! action_of s n = Some (rotation_curve (spin_of s n)).
Proof.
  intros Hn. unfold finished. rewrite finish_actions, (built_split n s Hn), sun_step_actions.
  apply planets_actions. unfold action_of.
  rewrite planet_step_action, before_draw. reflexivity.
Qed.

(** The action of a planet is new: no action had its name before. *)
Lemma action_new (s : host) (n : nat) : actions s !! action_of s n = None.
Proof.
  change (actions s) with (actions (with_ring_material s)).
  apply (planets_actions_None "RingMat" (seq 0 n)). apply fresh_name_lookup.
Qed.

Lemma before_later (n m : nat) (s : host) :
  (n < m)%nat ->
  before m s = planets "RingMat" (seq (S n) (m - S n)) (planet_step "RingMat" n (before n s)).
Proof.
  intros Hnm. unfold before. rewrite (seq_split n m Hnm), planets_app. reflexivity.
Qed.

(** No two planets share an action. *)
Lemma action_of_inj (s : host) (n m : nat) : action_of s n = action_of s m -> n = m.
Proof.
  assert (Hlt : forall a b, (a < b)%nat -> action_of s a <> action_of s b).
  { intros a b Hab E.
    assert (Hb : actions (before b s) !! action_of s b = None) by apply fresh_name_lookup.
    rewrite <- E, (before_later a b s Hab) in Hb.
    erewrite planets_actions in Hb; [discriminate|].
    apply planet_step_action. }
  intros E. destruct (Nat.lt_trichotomy n m) as [H|[H|H]]; [|exact H|].
  - destruct (Hlt n m H E).
  - destruct (Hlt m n H (eq_sym E)).
Qed.

(** ** The phases before the build *)

(** What the calls that neither draw a number, render nor touch an action
    leave as it is. *)
Definition kept (s s' : host) : Prop :=
  rng s' = rng s /\ rng_pos s' = rng_pos s /\ cursor s' = cursor s /\
  renders s' = renders s /\ actions s' = actions s.

Definition quiet (c : call) : bool :=
  negb (is_random c || is_render c || changes_actions c || observed c).

Lemma kept_refl (s : host) : kept s s.
Proof. repeat split. Qed.

Lemma kept_trans (s1 s2 s3 : host) : kept s1 s2 -> kept s2 s3 -> kept s1 s3.
Proof.
  intros (A1 & A2 & A3 & A4 & A5) (B1 & B2 & B3 & B4 & B5).
  repeat split; congruence.
Qed.

Lemma quiet_run {A : Type} (p : Prog A) (s : host) t o :
  all_calls (fun c => quiet c = true) p -> run p s = (t, o) ->
  kept s (final o) /\ observations t = [].
Proof.
  intros Hp E. split.
  - pose proof (run_frame (fun c => quiet c = true)
                  (fun s => (rng s, rng_pos s, cursor s, renders s, actions s)) p) as Hf.
    cbv beta in Hf. specialize (Hf).
    assert (Hstep : forall s c r s', quiet c = true -> ref_handler s c = inr (r, s') ->
              (rng s', rng_pos s', cursor s', renders s', actions s') =
              (rng s, rng_pos s, cursor s, renders s, actions s)).
    { intros s1 c r s2 Hq Hc. unfold quiet in Hq.
      apply negb_true_iff in Hq.
      apply orb_false_elim in Hq as [Hq _]. apply orb_false_elim in Hq as [Hq Ha].
      apply orb_false_elim in Hq as [Hr Hn].
      rewrite (rng_frame _ _ _ _ Hc), (rng_pos_frame _ _ _ _ Hr Hc),
        (cursor_frame _ _ _ _ Hc), (renders_frame _ _ _ _ Hn Hc),
        (actions_frame _ _ _ _ Ha Hc). reflexivity. }
    specialize (Hf Hstep Hp s t o E). injection Hf as H1 H2 H3 H4 H5.
    repeat split; assumption.
  - apply observations_none.
    destruct (all_calls_trace ref_handler _ _ _ _ _ Hp E) as [Ht _].
    eapply Forall_impl; [exact Ht|]. intros ev Hq. cbv beta in Hq. unfold quiet in Hq.
    apply negb_true_iff in Hq. apply orb_false_elim in Hq as [_ Hq]. exact Hq.
Qed.

Lemma scene_run {A : Type} (p : Prog A) (s : host) t o :
  all_calls (fun c => sets_scene c = false) p -> run p s = (t, o) ->
  scene (final o) = scene s.
Proof.
  intros Hp E. eapply (run_frame _ scene p); [|exact Hp|exact E].
  intros s1 c r s2 Hc Hh. exact (scene_frame _ _ _ _ Hc Hh).
Qed.

Lemma setup_scene_quiet : all_calls (fun c => quiet c = true) setup_scene.
Proof. by_calls setup_scene_calls. Qed.

Lemma setup_render_settings_quiet path b :
  all_calls (fun c => quiet c = true) (setup_render_settings path b).
Proof. by_calls setup_render_settings_calls. Qed.

Lemma camera_quiet f1 f2 l1 l2 n1 n2 :
  all_calls (fun c => quiet c = true) (setup_and_animate_camera f1 f2 l1 l2 n1 n2).
Proof. by_calls camera_calls. Qed.

Lemma clean_scene_quiet : all_calls (fun c => quiet c = true) clean_scene.
Proof. by_calls clean_scene_calls. Qed.

Lemma camera_scene f1 f2 l1 l2 n1 n2 :
  all_calls (fun c => sets_scene c = false) (setup_and_animate_camera f1 f2 l1 l2 n1 n2).
Proof. by_calls camera_calls. Qed.

Lemma clean_scene_scene : all_calls (fun c => sets_scene c = false) clean_scene.
Proof. by_calls clean_scene_calls. Qed.

(** [setup_render_settings] only writes render settings of the scene, and
    no call of it can fail. *)
Definition render_settings (path : string) (test_render : bool)
    (sc : gmap string value) : gmap string value :=
  <["render.fps" := VNum (Int 24)]>
    (<["render.resolution_percentage" := VNum (Int (if test_render then 50 else 100))]>
       (<["render.resolution_y" := VNum (Int (if test_render then 540 else 1080))]>
          (<["render.resolution_x" := VNum (Int (if test_render then 960 else 1920))]>
             (<["render.filepath" := VStr path]>
                (<["render.ffmpeg.constant_rate_factor" := VStr "MEDIUM"]>
                   (<["render.ffmpeg.codec" := VStr "H264"]>
                      (<["render.ffmpeg.format" := VStr "MPEG4"]>
                         (<["render.image_settings.file_format" := VStr "FFMPEG"]>
                            (<["render.engine" := VStr "BLENDER_EEVEE"]> sc))))))))).

Lemma setup_render_settings_runs (path : string) (b : bool) (s : host) :
  runs_to (setup_render_settings path b) s tt
    (set_scene (render_settings path b (scene s)) s) [].
Proof.
  destruct b; (eapply runs_to_obs;
    [unfold setup_render_settings, call_; cbn [bind];
     do 10 (eapply runs_call; [reflexivity|]); apply runs_ret|reflexivity]).
Qed.
(** ** The camera *)

(** Lines 44 to 61 of [setup_and_animate_camera]: the settings and the
    keyframes, on the camera the lines before found or made. *)
Definition animate (camera : oref) (start_frame end_frame : Z)
    (start_location end_location : list num) (start_lens end_lens : num) : Prog unit :=
  call_ (ObjectSet camera "location" (VTuple start_location)) ;;;
  call_ (ObjectSet camera "rotation_euler"
           (VTuple [Flt (radians 65); Int 0; Flt (radians 67)])) ;;;
  call_ (ObjectDataSet camera "lens" (VNum start_lens)) ;;;
  (named <- call_ (ObjectsGet "Camera") ;;
   adjust_camera_clipping named (Flt 0x1.999999999999ap-4) (Int 5000)) ;;;
  call_ (KeyframeInsert camera "location" start_frame) ;;;
  call_ (DataKeyframeInsert camera "lens" start_frame) ;;;
  call_ (ObjectSet camera "location" (VTuple end_location)) ;;;
  call_ (ObjectDataSet camera "lens" (VNum end_lens)) ;;;
  call_ (KeyframeInsert camera "location" end_frame) ;;;
  call_ (DataKeyframeInsert camera "lens" end_frame).

Lemma setup_and_animate_camera_eq f1 f2 l1 l2 n1 n2 :
  setup_and_animate_camera f1 f2 l1 l2 n1 n2 =
  (present <- call_ (ObjectsContains "Camera") ;;
   camera <- (if negb present then
                call_ (CameraAdd l1) ;;;
                call_ ContextActiveObject
              else
                camera <- call_ (ObjectsGet "Camera") ;;
                call_ (SetActive camera) ;;;
                call_ (SelectSet camera true) ;;;
                Ret camera) ;;
   animate camera f1 f2 l1 l2 n1 n2).
Proof. reflexivity. Qed.

(** The camera object once [animate] is through with it. *)
Definition animated (f1 f2 : Z) (l1 l2 : list num) (n1 n2 : num) (cam : object) : object :=
  Object (ob_kind_of cam)
    (<["location" := VTuple l2]>
       (<["rotation_euler" := VTuple [Flt (radians 65); Int 0; Flt (radians 67)]]>
          (<["location" := VTuple l1]> (ob_props cam))))
    (<["lens" := VNum n2]>
       (<["clip_end" := VNum (Int 5000)]>
          (<["clip_start" := VNum (Flt 0x1.999999999999ap-4)]>
             (<["lens" := VNum n1]> (ob_data_props cam)))))
    (<[("location", f2) := VTuple l2]> (<[("location", f1) := VTuple l1]> (ob_keys cam)))
    (<[("lens", f2) := VNum n2]> (<[("lens", f1) := VNum n1]> (ob_data_keys cam)))
    (ob_center cam) (ob_selected cam) (ob_in_view_layer cam) (ob_smooth cam)
    (ob_materials cam) (ob_animation cam).

Lemma animate_runs f1 f2 l1 l2 n1 n2 (cam : object) (objs : gmap string object) (s : host) :
  ob_kind_of cam = KCamera ->
  runs_to (animate (Some "Camera") f1 f2 l1 l2 n1 n2)
    (set_objects (<["Camera" := cam]> objs) s) tt
    (set_objects (<["Camera" := animated f1 f2 l1 l2 n1 n2 cam]> objs) s) [].
Proof.
  intros Hk. destruct cam as [k p dp ks dks c sel v sm m a]. cbn in Hk. subst k.
  eapply runs_to_obs.
  { unfold animate, adjust_camera_clipping.
    step. step. step.
    eapply runs_bind; [step; step; last_step|].
    step. step. step. step. step. last_step. }
  reflexivity.
Qed.

(** An object named "Camera" that is no camera has no lens: the third
    assignment raises. *)
Lemma animate_not_camera f1 f2 l1 l2 n1 n2 (cam : object) (objs : gmap string object)
    (s : host) :
  ob_kind_of cam <> KCamera ->
  exists t s', run (animate (Some "Camera") f1 f2 l1 l2 n1 n2)
                 (set_objects (<["Camera" := cam]> objs) s) =
               (t, Raised (ObjectDataSet (Some "Camera") "lens" (VNum n1))
                     (AttributeError "lens") s').
Proof.
  intros Hk. destruct cam as [k p dp ks dks c sel v sm m a]. cbn in Hk.
  unfold run, animate, call_. cbn [bind exec]. host_full.
  destruct k; try contradiction; eexists _, _; reflexivity.
Qed.

Lemma alter_present {A : Type} (f : A -> A) (k : string) (x : A) (m : gmap string A) :
  m !! k = Some x -> alter f k m = <[k := f x]> m.
Proof.
  intros Hk. apply map_eq. intros i. destruct (decide (i = k)) as [->|Hne].
  - rewrite lookup_alter_eq, lookup_insert_eq, Hk. reflexivity.
  - rewrite lookup_alter_ne, lookup_insert_ne by congruence. reflexivity.
Qed.

(** The camera phase, if it returns, leaves a selected camera named
    "Camera" with the settings and keyframes of [animated]; every object
    that was there is still there. *)
Lemma camera_done f1 f2 l1 l2 n1 n2 (s s' : host) t :
  run (setup_and_animate_camera f1 f2 l1 l2 n1 n2) s = (t, Done tt s') ->
  exists cam,
    ob_kind_of cam = KCamera /\ ob_selected cam = true /\
    objects s' !! "Camera" = Some (animated f1 f2 l1 l2 n1 n2 cam) /\
    forall k, is_Some (objects s !! k) -> is_Some (objects s' !! k).
Proof.
  rewrite setup_and_animate_camera_eq. intros E.
  apply exec_bind_done in E as (t1 & present & s1 & t2 & E1 & E & _).
  apply (exec_call_ ref_handler (ObjectsContains "Camera")) in E1 as [E1 _].
  cbn [ref_handler] in E1. injection E1 as <- <-.
  apply exec_bind_done in E as (t3 & camera & s2 & t4 & E2 & E3 & _).
  assert (Hfin : forall cam objs base,
            s2 = set_objects (<["Camera" := cam]> objs) base -> camera = Some "Camera" ->
            ob_kind_of cam = KCamera /\
            s' = set_objects (<["Camera" := animated f1 f2 l1 l2 n1 n2 cam]> objs) base).
  { intros cam objs base -> ->.
    assert (Hk : ob_kind_of cam = KCamera \/ ob_kind_of cam <> KCamera)
      by (destruct (ob_kind_of cam); first [left; reflexivity|right; discriminate]).
    destruct Hk as [Hk|Hk].
    - split; [exact Hk|].
      destruct (runs_to_run _ _ _ _ _ _ _ _ (animate_runs f1 f2 l1 l2 n1 n2 cam objs base Hk) E3)
        as (_ & -> & _). reflexivity.
    - destruct (animate_not_camera f1 f2 l1 l2 n1 n2 cam objs base Hk) as (t' & s'' & Hr).
      unfold run in Hr. rewrite Hr in E3. discriminate E3. }
  destruct (objects s !! "Camera") as [cam0|] eqn:Hcam.
  - rewrite bool_decide_true in E2 by (eexists; reflexivity). cbn [negb] in E2.
    apply exec_bind_done in E2 as (ta & c1 & sa & tb & Ea & Eb & _).
    apply (exec_call_ ref_handler (ObjectsGet "Camera")) in Ea as [Ea _].
    cbn [ref_handler] in Ea. rewrite Hcam in Ea. injection Ea as <- <-.
    apply exec_bind_done in Eb as (tc & [] & sc & td & Ec & Ed & _).
    apply (exec_call_ ref_handler (SetActive (Some "Camera"))) in Ec as [Ec _].
    cbn [ref_handler] in Ec. unfold with_object in Ec. rewrite Hcam in Ec.
    destruct (ob_in_view_layer cam0) eqn:Hv; [|discriminate Ec]. injection Ec as <-.
    apply exec_bind_done in Ed as (te & [] & se & tf & Ee & Ef & _).
    apply (exec_call_ ref_handler (SelectSet (Some "Camera") true)) in Ee as [Ee _].
    cbn [ref_handler] in Ee. unfold with_object in Ee. cbn [objects set_active] in Ee.
    rewrite Hcam, Hv in Ee. injection Ee as <-.
    cbn [exec] in Ef. injection Ef as _ <- <-.
    destruct (Hfin (set_ob_selected true cam0) (objects s) (set_active (Some "Camera") s))
      as [Hk ->]; [|reflexivity|].
    { unfold update_object. cbn [objects set_active]. rewrite (alter_present _ _ _ _ Hcam).
      reflexivity. }
    exists (set_ob_selected true cam0). split; [exact Hk|]. split; [reflexivity|].
    cbn [objects set_objects]. split; [apply lookup_insert_eq|].
    intros k Hsome. destruct (decide (k = "Camera")) as [->|Hne].
    + rewrite lookup_insert_eq. eexists. reflexivity.
    + rewrite lookup_insert_ne by congruence. exact Hsome.
  - rewrite bool_decide_false in E2 by (intros [? ?]; discriminate). cbn [negb] in E2.
    apply exec_bind_done in E2 as (ta & [] & sa & tb & Ea & Eb & _).
    apply (exec_call_ ref_handler (CameraAdd l1)) in Ea as [Ea _].
    cbn [ref_handler] in Ea. injection Ea as <-.
    apply (exec_call_ ref_handler ContextActiveObject) in Eb as [Eb _].
    cbn [ref_handler] in Eb. injection Eb as <- <-.
    unfold add_object in Hfin. rewrite (fresh_name_None _ _ Hcam) in Hfin.
    destruct (Hfin (new_object KCamera l1) (deselect <$> objects s)
                (set_active (Some "Camera") s)) as [Hk ->]; [reflexivity|reflexivity|].
    exists (new_object KCamera l1). split; [exact Hk|]. split; [reflexivity|].
    cbn [objects set_objects]. split; [apply lookup_insert_eq|].
    intros k Hsome. destruct (decide (k = "Camera")) as [->|Hne].
    + rewrite lookup_insert_eq. eexists. reflexivity.
    + rewrite lookup_insert_ne, lookup_fmap by congruence.
      destruct Hsome as [o ->]. eexists. reflexivity.
Qed.
(** ** Cleaning with a selection *)

(** The delete operator takes the whole selection with it: if the named
    object is there and [delete_object] returns, every object that was
    selected is gone. *)
Lemma delete_object_selection (name : string) (s s' : host) t :
  run (delete_object name) s = (t, Done tt s') -> is_Some (objects s !! name) ->
  forall k o, objects s !! k = Some o -> ob_selected o = true -> objects s' !! k = None.
Proof.
  intros E [ob Hl] k o Hk Hsel. destruct (ob_in_view_layer ob) eqn:Hv.
  - rewrite (delete_object_present _ _ _ Hl Hv) in E. injection E as _ <-.
    apply eq_None_not_Some. intros [o' Ho'].
    apply select_then_delete_lookup in Ho' as (Ho' & Hs' & _). congruence.
  - rewrite (delete_object_hidden _ _ _ Hl Hv) in E. discriminate E.
Qed.

Lemma clean_scene_selection (s s' : host) t :
  run clean_scene s = (t, Done tt s') -> is_Some (objects s !! "Sun") ->
  forall k o, objects s !! k = Some o -> ob_selected o = true -> objects s' !! k = None.
Proof.
  unfold clean_scene. intros E Hsun k o Hk Hsel.
  apply exec_bind_done in E as (t1 & [] & s1 & t2 & E1 & E & _).
  apply exec_bind_done in E as (t3 & [] & s2 & t4 & E2 & E & _).
  apply exec_bind_done in E as (t5 & ms & s3 & t6 & E3 & E4 & _).
  apply (exec_call_ ref_handler MaterialsIter) in E3 as [E3 _].
  cbn [ref_handler] in E3. injection E3 as <- <-.
  apply delete_pairs_done in E2 as [H2 _]. apply remove_all_done in E4 as [H3 _].
  apply H3, H2. exact (delete_object_selection _ _ _ _ E1 Hsun k o Hk Hsel).
Qed.

(** ** The whole run *)

Lemma settings_objects s c r s' :
  settings_call c = true -> ref_handler s c = inr (r, s') -> objects s' = objects s.
Proof. intros Hc E. destruct c; try discriminate Hc; handler_cases E; reflexivity. Qed.

Lemma kept_draw (s s' : host) (i : nat) : kept s s' -> draw s' i = draw s i.
Proof. intros (Hr & Hp & _). unfold draw. rewrite Hr, Hp. reflexivity. Qed.

(** The meshes the loop adds for planet [n]. *)
Definition created (s : host) (n : nat) : list call :=
  [SphereAdd (Flt (radius_of s n)) [Flt (distance_of s n); Int 0; Int 0]
     [Int 1; Int 1; Int 1];
   TorusAdd [Int 0; Int 0; Int 0] (Flt (distance_of s n)) (Flt 0x1.999999999999ap-4) 60].

Lemma planet_adds_created (rm : string) (s0 : host) (k a : nat) (s : host) :
  rng s = rng s0 -> rng_pos s = (5 * a + rng_pos s0)%nat ->
  planet_adds rm (seq a k) s = flat_map (created s0) (seq a k).
Proof.
  revert a s. induction k as [|k IH]; intros a s Hr Hp; cbn [seq planet_adds flat_map];
    [reflexivity|].
  rewrite (IH (S a)); [|exact Hr|cbn [planet_step rng_pos]; lia].
  f_equal. unfold planet_adds_at, created, radius_of, distance_of, draw.
  rewrite Hr, Hp. replace (5 * a + 1 + rng_pos s0)%nat with (1 + (5 * a + rng_pos s0))%nat by lia.
  reflexivity.
Qed.

Lemma system_adds_created (s0 s : host) :
  kept s0 s ->
  system_adds s = (flat_map (created s0) (seq 0 N_PLANETS) ++ [sun_add])%list.
Proof.
  intros (Hr & Hp & _). unfold system_adds. f_equal.
  apply planet_adds_created; [exact Hr|]. cbn [with_ring_material rng_pos set_materials].
  rewrite Hp. reflexivity.
Qed.

(** A run of the script that returned, by the scenes between its phases:
    [s2] after the settings, [s3] after the camera, [s4] after the
    cleaning. *)
Inductive phases (s0 s1 : host) (t : list event) : Prop :=
| Phases (s2 s3 s4 : host) (old_scene : gmap string value) (cam : object) (t4 : list event) :
    objects s2 = objects s0 ->
    scene s2 = render_settings output_path false old_scene ->
    ob_kind_of cam = KCamera ->
    ob_selected cam = true ->
    objects s3 !! "Camera" =
      Some (animated START_FRAME END_FRAME start_location end_location start_lens end_lens
              cam) ->
    (forall k, is_Some (objects s2 !! k) -> is_Some (objects s3 !! k)) ->
    run clean_scene s3 = (t4, Done tt s4) ->
    scene s4 = scene s2 ->
    kept s0 s4 ->
    cleaned s4 ->
    s1 = finished s4 ->
    observations t = (system_adds s4 ++ [Render true])%list ->
    phases s0 s1 t.

Lemma finish_step (s5 s6 s1 : host) :
  ref_handler s5 (Render true) = inr (tt, s6) ->
  ref_handler s6 (SelectAll "DESELECT") = inr (tt, s1) ->
  s1 = finish s5.
Proof. cbn [ref_handler]. intros [= <-] [= <-]. reflexivity. Qed.

Lemma script_runs (s0 s1 : host) (t : list event) :
  run script s0 = (t, Done tt s1) -> phases s0 s1 t.
Proof.
  intros E. apply script_phases in E.
  destruct E as (t1 & s1' & t2 & s2 & t3 & s3 & t4 & s4 & t5 & s5 & s6 &
                 E1 & E2 & E3 & E4 & E5 & H6 & H7 & -> & _).
  pose proof (finish_step _ _ _ H6 H7) as Hfin. clear H6 H7.
  destruct (quiet_run _ _ _ _ setup_scene_quiet E1) as [K1 O1].
  destruct (quiet_run _ _ _ _ (setup_render_settings_quiet _ _) E2) as [K2 O2].
  destruct (quiet_run _ _ _ _ (camera_quiet _ _ _ _ _ _) E3) as [K3 O3].
  destruct (quiet_run _ _ _ _ clean_scene_quiet E4) as [K4 O4].
  cbn [final] in K1, K2, K3, K4.
  pose proof (scene_run _ _ _ _ (camera_scene _ _ _ _ _ _) E3) as S3.
  pose proof (scene_run _ _ _ _ clean_scene_scene E4) as S4. cbn [final] in S3, S4.
  assert (Hob1 : objects s1' = objects s0).
  { apply (run_frame (fun c => settings_call c = true) objects setup_scene
             settings_objects setup_scene_calls s0 t1 (Done tt s1') E1). }
  assert (Hob2 : objects s2 = objects s1').
  { apply (run_frame (fun c => settings_call c = true) objects _
             settings_objects (setup_render_settings_calls output_path false)
             s1' t2 (Done tt s2) E2). }
  destruct (runs_to_run _ _ _ _ _ _ _ _ (setup_render_settings_runs output_path false s1') E2)
    as (_ & Hs2 & _).
  destruct (camera_done _ _ _ _ _ _ _ _ _ E3) as (cam & Hk & Hsel & Hcam & Hkeep).
  pose proof (clean_scene_done _ _ _ E4) as (_ & Hc).
  destruct (runs_to_run _ _ _ _ _ _ _ _ (build_system_runs s4 Hc) E5) as (_ & Hs5 & O5).
  apply (Phases s0 s1 _ s2 s3 s4 (scene s1') cam t4).
  - congruence.
  - rewrite Hs2. reflexivity.
  - exact Hk.
  - exact Hsel.
  - exact Hcam.
  - exact Hkeep.
  - exact E4.
  - congruence.
  - eauto using kept_trans.
  - exact Hc.
  - rewrite Hfin, Hs5. reflexivity.
  - rewrite !app_assoc, observations_app. rewrite <- !app_assoc.
    rewrite !observations_app, O1, O2, O3, O4, O5. reflexivity.
Qed.
(** ** The output path *)

(** The value a call writes to the scene's [render.filepath], if it does. *)
Definition filepath_written (c : call) : option value :=
  match c with
  | SceneSet path v => if String.eqb path "render.filepath" then Some v else None
  | _ => None
  end.

Definition filepaths (t : list event) : list value :=
  flat_map (fun ev => match filepath_written (ev_call ev) with
                      | Some v => [v]
                      | None => []
                      end) t.

Lemma filepaths_app (t1 t2 : list event) :
  filepaths (t1 ++ t2) = (filepaths t1 ++ filepaths t2)%list.
Proof. apply flat_map_app. Qed.

Lemma filepaths_none (t : list event) :
  Forall (fun ev => filepath_written (ev_call ev) = None) t -> filepaths t = [].
Proof.
  induction 1 as [|ev t Hev _ IH]; [reflexivity|].
  unfold filepaths in *. cbn [flat_map]. rewrite Hev. exact IH.
Qed.

Lemma filepaths_run {H A : Type} (h : handler H) (p : Prog A) (s : H) t o :
  all_calls (fun c => filepath_written c = None) p -> exec h p s = (t, o) ->
  filepaths t = [].
Proof. intros Hp E. apply filepaths_none. exact (proj1 (all_calls_trace h _ _ _ _ _ Hp E)). Qed.

Lemma setup_scene_no_filepath : all_calls (fun c => filepath_written c = None) setup_scene.
Proof.
  unfold setup_scene, find_3dview_space, call_. walk_calls; reflexivity.
Qed.

Lemma camera_no_filepath f1 f2 l1 l2 n1 n2 :
  all_calls (fun c => filepath_written c = None)
    (setup_and_animate_camera f1 f2 l1 l2 n1 n2).
Proof. by_calls camera_calls. Qed.

Lemma clean_scene_no_filepath : all_calls (fun c => filepath_written c = None) clean_scene.
Proof. by_calls clean_scene_calls. Qed.

Lemma build_system_no_filepath : all_calls (fun c => filepath_written c = None) build_system.
Proof. by_calls build_system_calls. Qed.

(** Takes a run of a straight-line program apart, call by call. *)
Ltac invert_run h :=
  repeat match goal with
         | E : exec h (call_ ?c) _ = (_, Done _ _) |- _ =>
           apply (exec_call_ h c) in E as [_ ->]
         | E : exec h (bind _ _) _ = (_, Done _ _) |- _ =>
           apply exec_bind_done in E as (? & [] & ? & ? & ? & ? & ->)
         end.

(** On every host, [setup_render_settings], if it returns, has written the
    path it was given, once. *)
Lemma setup_render_settings_filepath {H : Type} (h : handler H) path b (s s' : H) t :
  exec h (setup_render_settings path b) s = (t, Done tt s') -> filepaths t = [VStr path].
Proof.
  unfold setup_render_settings. intros E. destruct b; invert_run h; reflexivity.
Qed.

(** On every host, a run of the script that returned wrote one output
    path, the one of line 168. *)
Lemma script_filepaths {H : Type} (h : handler H) (s s' : H) t :
  exec h script s = (t, Done tt s') -> filepaths t = [VStr output_path].
Proof.
  intros E. apply script_phases in E.
  destruct E as (t1 & s1 & t2 & s2 & t3 & s3 & t4 & s4 & t5 & s5 & s6 &
                 E1 & E2 & E3 & E4 & E5 & _ & _ & -> & _).
  rewrite !filepaths_app.
  rewrite (filepaths_run h _ _ _ _ setup_scene_no_filepath E1).
  rewrite (setup_render_settings_filepath h _ _ _ _ _ E2).
  rewrite (filepaths_run h _ _ _ _ (camera_no_filepath _ _ _ _ _ _) E3).
  rewrite (filepaths_run h _ _ _ _ clean_scene_no_filepath E4).
  rewrite (filepaths_run h _ _ _ _ build_system_no_filepath E5).
  reflexivity.
Qed.

Lemma render_settings_filepath path b sc :
  render_settings path b sc !! "render.filepath" = Some (VStr path).
Proof. unfold render_settings. rewrite !lookup_insert_ne by discriminate. apply lookup_insert_eq. Qed.

(** ** The solar system a run leaves *)

(** The planets, rings, sun, materials and actions of the scene [s1] a run
    from [s0] left; [act n] is the name of the action of planet [n]. *)
Definition solar_system (s0 s1 : host) (act : nat -> string) : Prop :=
  (forall n m, act n = act m -> n = m) /\
  (forall n, (n < N_PLANETS)%nat ->
     objects s1 !! planet_name n =
       Some (deselect (planet_object (radius_of s0 n) (distance_of s0 n) (cursor s0)
                         (planet_mat_name n) (act n))) /\
     objects s1 !! ring_name n =
       Some (deselect (ring_object (distance_of s0 n) (cursor s0) "RingMat")) /\
     materials s1 !! planet_mat_name n = Some (emission_material (colour_of s0 n) (Int 2)) /\
     actions s0 !! act n = None /\
     actions s1 !! act n = Some (rotation_curve (spin_of s0 n))) /\
  objects s1 !! "Sun" = Some (deselect sun_object) /\
  materials s1 !! "SunMat" = Some (emission_material sun_color (Int 10)) /\
  materials s1 !! "RingMat" = Some ring_material.

Lemma kept_values (s0 s4 : host) (n : nat) :
  kept s0 s4 ->
  radius_of s4 n = radius_of s0 n /\ distance_of s4 n = distance_of s0 n /\
  colour_of s4 n = colour_of s0 n /\ spin_of s4 n = spin_of s0 n.
Proof.
  intros K. unfold radius_of, distance_of, colour_of, spin_of.
  rewrite !(kept_draw s0 s4) by exact K. auto.
Qed.

Lemma script_system (s0 s1 : host) (t : list event) :
  run script s0 = (t, Done tt s1) -> exists act, solar_system s0 s1 act.
Proof.
  intros E. destruct (script_runs _ _ _ E) as [s2 s3 s4 sc cam t4 _ _ _ _ _ _ _ _ K _ -> _].
  exists (action_of s4). split; [apply action_of_inj|]. split.
  - intros n Hn. destruct (kept_values s0 s4 n K) as (Hr & Hd & Hc & Hs).
    destruct K as (_ & _ & Hcur & _ & Hact).
    rewrite <- Hr, <- Hd, <- Hc, <- Hs, <- Hcur, <- Hact.
    split; [apply finished_planet, Hn|]. split; [apply finished_ring, Hn|].
    split; [apply finished_planet_material, Hn|]. split; [apply action_new|].
    apply finished_action, Hn.
  - split; [apply finished_sun|]. split; [apply finished_sun_material|].
    apply finished_ring_material.
Qed.

(** What a run adds and renders, in order. *)
Lemma script_observations (s0 s1 : host) (t : list event) :
  run script s0 = (t, Done tt s1) ->
  observations t =
    (flat_map (created s0) (seq 0 N_PLANETS) ++ [sun_add; Render true])%list /\
  renders s1 = (renders s0 ++ [(true, Some (VStr output_path))])%list /\
  exists old, scene s1 = render_settings output_path false old.
Proof.
  intros E. destruct (script_runs _ _ _ E) as [s2 s3 s4 sc cam t4 _ Hsc _ _ _ _ _ Hs4 K _ -> Ho].
  split; [|split].
  - rewrite Ho, (system_adds_created s0 s4 K), <- app_assoc. reflexivity.
  - rewrite finished_renders, Hs4, Hsc, render_settings_filepath.
    destruct K as (_ & _ & _ & -> & _). reflexivity.
  - exists sc. rewrite finished_scene, Hs4. exact Hsc.
Qed.

(** The names the script uses. *)
Lemma planet_names :
  map planet_name (seq 0 N_PLANETS) =
  ["Planet-00"; "Planet-01"; "Planet-02"; "Planet-03"; "Planet-04"; "Planet-05"].
Proof. reflexivity. Qed.

Lemma ring_names :
  map ring_name (seq 0 N_PLANETS) =
  ["Radius-00"; "Radius-01"; "Radius-02"; "Radius-03"; "Radius-04"; "Radius-05"].
Proof. reflexivity. Qed.

(** ** Concrete runs *)

Lemma sample_random_unit (i : nat) : unit_float (sample_random i).
Proof.
  unfold sample_random.
  assert (Hk : (0 <= (37 * Z.of_nat i + 11) mod 100 < 100)%Z) by (apply Z.mod_pos_bound; lia).
  generalize dependent ((37 * Z.of_nat i + 11) mod 100)%Z. intros k Hk.
  rewrite <- (Z2Nat.id k) by lia.
  assert (Hn : (Z.to_nat k < 100)%nat) by lia.
  generalize dependent (Z.to_nat k). clear k Hk. intros n Hn.
  do 100 (destruct n as [|n]; [split; vm_compute; reflexivity|]).
  lia.
Qed.

Definition first_run : list event * outcome host unit := run script startup_scene.
Definition first_scene : host := final first_run.2.

Lemma first_run_done : run script startup_scene = (first_run.1, Done tt first_scene).
Proof. vm_compute. reflexivity. Qed.

(** The script run again, on the scene its first run left. *)
Definition second_run : list event * outcome host unit := run script first_scene.
Definition second_scene : host := final second_run.2.

Lemma second_run_done : run script first_scene = (second_run.1, Done tt second_scene).
Proof. vm_compute. reflexivity. Qed.

(** The startup scene with another source of random numbers. *)
Definition reseed (f : nat -> float) (s : host) : host :=
  Host (worlds s) (scene s) (windows s) (space_data s) (spaces s) (objects s) (active s)
    (cursor s) (materials s) (actions s) (renders s) f 0.

(** [random()] returns its largest value every time but the seventh, when
    it returns 0. *)
Definition extreme_random (i : nat) : float :=
  if (i =? 6)%nat then 0%float else random_max.

Definition extreme_scene : host := reseed extreme_random startup_scene.
Definition extreme_run : list event * outcome host unit := run script extreme_scene.
Definition extreme_end : host := final extreme_run.2.

Lemma extreme_random_unit (i : nat) : unit_float (extreme_random i).
Proof.
  unfold extreme_random. destruct (i =? 6)%nat; [apply zero_unit|apply random_max_unit].
Qed.

Lemma extreme_run_done : run script extreme_scene = (extreme_run.1, Done tt extreme_end).
Proof. vm_compute. reflexivity. Qed.


(** * The claims of the specification *)

Lemma finished_other (s : host) (k : string) :
  k <> "Sun" -> (forall n, k <> planet_name n /\ k <> ring_name n) ->
  objects s !! k = None -> objects (finished s) !! k = None.
Proof.
  intros Hsun Hk Hs. unfold finished. rewrite finish_objects. unfold built.
  rewrite sun_step_objects by exact Hsun.
  rewrite planets_objects_other; [reflexivity|intros n _; apply Hk|exact Hs].
Qed.

Lemma no_render_count (t : list event) :
  Forall (fun ev => is_render (ev_call ev) = false) t ->
  List.filter (fun ev => is_render (ev_call ev)) t = [].
Proof.
  induction 1 as [|ev t Hev _ IH]; [reflexivity|]. cbn [List.filter]. rewrite Hev. exact IH.
Qed.

(** ** C1 *)

(** What a run from [s0] that made the calls [t] and left [s1] has created:
    the meshes added and the renders asked for are, in this order, a sphere
    and a torus for each planet, the sun, and one render of the animation;
    [s1] holds each planet as a sphere under its name, each ring as a torus
    about the origin with the distance of its planet as major radius, and
    the sun; the render is on record with the output path. *)
Definition system_created (s0 s1 : host) (t : list event) : Prop :=
  observations t =
    (flat_map (fun n =>
       [SphereAdd (Flt (radius_of s0 n)) [Flt (distance_of s0 n); Int 0; Int 0]
          [Int 1; Int 1; Int 1];
        TorusAdd [Int 0; Int 0; Int 0] (Flt (distance_of s0 n))
          (Flt 0x1.999999999999ap-4) 60]) (seq 0 N_PLANETS) ++
     [SphereAdd (Int 12) [Int 0; Int 0; Int 0] [Int 1; Int 1; Int 1]; Render true])%list /\
  (forall n, (n < N_PLANETS)%nat ->
     exists p r,
       objects s1 !! planet_name n = Some p /\
       ob_kind_of p = KSphere (Flt (radius_of s0 n)) [Int 1; Int 1; Int 1] /\
       ob_center p = [Flt (distance_of s0 n); Int 0; Int 0] /\
       objects s1 !! ring_name n = Some r /\
       ob_kind_of r = KTorus (Flt (distance_of s0 n)) (Flt 0x1.999999999999ap-4) 60 /\
       ob_center r = [Int 0; Int 0; Int 0]) /\
  (exists sun,
     objects s1 !! "Sun" = Some sun /\
     ob_kind_of sun = KSphere (Int 12) [Int 1; Int 1; Int 1] /\
     ob_center sun = [Int 0; Int 0; Int 0]) /\
  renders s1 = (renders s0 ++ [(true, Some (VStr "video.mp4"))])%list /\
  N_PLANETS = 6%nat /\
  map planet_name (seq 0 N_PLANETS) =
    ["Planet-00"; "Planet-01"; "Planet-02"; "Planet-03"; "Planet-04"; "Planet-05"] /\
  map ring_name (seq 0 N_PLANETS) =
    ["Radius-00"; "Radius-01"; "Radius-02"; "Radius-03"; "Radius-04"; "Radius-05"].

(** C1: when the script runs to completion in Blender it adds exactly
    N_PLANETS = 6 planet spheres, named Planet-00 to Planet-05, one torus
    per planet, named Radius-00 to Radius-05, centred at the origin and
    with the distance of its planet as major radius, then exactly one sun
    sphere of radius 12 at the origin, named Sun, and then asks once for
    the render of the animation. *)
Theorem script_creates_system (s0 s1 : host) (t : list event) :
  run script s0 = (t, Done tt s1) -> system_created s0 s1 t.
Proof.
  intros E. destruct (script_observations _ _ _ E) as (Ho & Hr & _).
  destruct (script_system _ _ _ E) as (act & _ & Hn & Hsun & _).
  split; [exact Ho|]. split; [|split; [|split; [exact Hr|]]].
  - intros n Hlt. destruct (Hn n Hlt) as (Hp & Hg & _).
    eexists _, _. split; [exact Hp|]. split; [reflexivity|]. split; [reflexivity|].
    split; [exact Hg|]. split; reflexivity.
  - eexists. split; [exact Hsun|]. split; reflexivity.
  - split; [reflexivity|]. split; [exact planet_names|exact ring_names].
Qed.

Lemma script_creates_system_witness :
  run script startup_scene = (first_run.1, Done tt first_scene) /\
  system_created startup_scene first_scene first_run.1.
Proof.
  split; [exact first_run_done|].
  exact (script_creates_system startup_scene first_scene first_run.1 first_run_done).
Defined.

(** ** C2 *)

(** C2: the camera phase, when it returns, has keyed the location and the
    lens of the camera at the start frame 1 and at the end frame 400; the
    location goes from (20, -10, 5) to (200, -80, 90), but the lens is 35
    at both keyframes: it does not change, the ending lens is not wider. *)
Theorem camera_lens_constant (s s' : host) (t : list event) :
  run (setup_and_animate_camera START_FRAME END_FRAME start_location end_location
         start_lens end_lens) s = (t, Done tt s') ->
  exists c,
    objects s' !! "Camera" = Some c /\
    ob_keys c !! ("location", 1%Z) = Some (VTuple [Int 20; Int (-10); Int 5]) /\
    ob_keys c !! ("location", 400%Z) = Some (VTuple [Int 200; Int (-80); Int 90]) /\
    ob_data_keys c !! ("lens", 1%Z) = Some (VNum (Int 35)) /\
    ob_data_keys c !! ("lens", 400%Z) = Some (VNum (Int 35)).
Proof.
  intros E. destruct (camera_done _ _ _ _ _ _ _ _ _ E) as (cam & _ & _ & Hc & _).
  eexists. split; [exact Hc|]. unfold animated, START_FRAME, END_FRAME.
  cbn [ob_keys ob_data_keys].
  repeat first [rewrite lookup_insert_eq | rewrite lookup_insert_ne by discriminate].
  repeat split.
Qed.

Definition camera_run : list event * outcome host unit :=
  run (setup_and_animate_camera START_FRAME END_FRAME start_location end_location
         start_lens end_lens) startup_scene.

Lemma camera_lens_constant_witness :
  camera_run = (camera_run.1, Done tt (final camera_run.2)) /\
  exists c,
    objects (final camera_run.2) !! "Camera" = Some c /\
    ob_keys c !! ("location", 1%Z) = Some (VTuple [Int 20; Int (-10); Int 5]) /\
    ob_keys c !! ("location", 400%Z) = Some (VTuple [Int 200; Int (-80); Int 90]) /\
    ob_data_keys c !! ("lens", 1%Z) = Some (VNum (Int 35)) /\
    ob_data_keys c !! ("lens", 400%Z) = Some (VNum (Int 35)).
Proof.
  assert (E : camera_run = (camera_run.1, Done tt (final camera_run.2)))
    by (vm_compute; reflexivity).
  split; [exact E|].
  exact (camera_lens_constant startup_scene (final camera_run.2) camera_run.1 E).
Defined.

(** ** C3 *)

(** C3: when a "Sun" is there to delete, as after a previous run, the
    cleaning deletes more than the named objects: the camera, which the
    camera phase has just selected, is deleted with the sun, and the scene
    the run leaves has no object named "Camera". *)
Theorem cleanup_deletes_camera (s0 s1 : host) (t : list event) :
  run script s0 = (t, Done tt s1) -> is_Some (objects s0 !! "Sun") ->
  objects s1 !! "Camera" = None.
Proof.
  intros E Hsun.
  destruct (script_runs _ _ _ E) as [s2 s3 s4 sc cam t4 Hob _ _ Hsel Hcam Hkeep Hclean _ _ _ -> _].
  apply finished_other; [discriminate|intros n; split; discriminate|].
  eapply (clean_scene_selection _ _ _ Hclean); [|exact Hcam|exact Hsel].
  apply Hkeep. rewrite Hob. exact Hsun.
Qed.

Lemma cleanup_deletes_camera_witness :
  run script first_scene = (second_run.1, Done tt second_scene) /\
  is_Some (objects first_scene !! "Sun") /\
  is_Some (objects first_scene !! "Camera") /\
  objects second_scene !! "Camera" = None.
Proof.
  assert (Hsun : is_Some (objects first_scene !! "Sun")) by (vm_compute; eexists; reflexivity).
  split; [exact second_run_done|]. split; [exact Hsun|].
  split; [vm_compute; eexists; reflexivity|].
  exact (cleanup_deletes_camera first_scene second_scene second_run.1 second_run_done Hsun).
Defined.
(** ** C4 *)

(** The render output of a run: one path written to [render.filepath], the
    render settings of the scene it left, and the render on record. *)
Definition output_configured (s0 s1 : host) (t : list event) : Prop :=
  filepaths t = [VStr "video.mp4"] /\
  scene s1 !! "render.filepath" = Some (VStr "video.mp4") /\
  scene s1 !! "render.image_settings.file_format" = Some (VStr "FFMPEG") /\
  scene s1 !! "render.ffmpeg.format" = Some (VStr "MPEG4") /\
  scene s1 !! "render.ffmpeg.codec" = Some (VStr "H264") /\
  scene s1 !! "render.resolution_x" = Some (VNum (Int 1920)) /\
  scene s1 !! "render.resolution_y" = Some (VNum (Int 1080)) /\
  scene s1 !! "render.resolution_percentage" = Some (VNum (Int 100)) /\
  scene s1 !! "render.fps" = Some (VNum (Int 24)) /\
  renders s1 = (renders s0 ++ [(true, Some (VStr "video.mp4"))])%list.

(** C4: a run of the script writes the render file path once, as
    "video.mp4"; the scene it leaves has that path, the file format FFMPEG
    with the MPEG4 container and the H264 codec, the resolution 1920 x 1080
    at 100 percent and 24 frames per second, which is what
    [setup_render_settings] with [test_render = False] set; and the one
    render of the run went to that path. *)
Theorem render_output_configured (s0 s1 : host) (t : list event) :
  run script s0 = (t, Done tt s1) -> output_configured s0 s1 t.
Proof.
  intros E. destruct (script_observations _ _ _ E) as (_ & Hr & old & Hsc).
  split; [exact (script_filepaths ref_handler _ _ _ E)|].
  rewrite Hsc. unfold render_settings, output_path.
  repeat (split; [repeat first [rewrite lookup_insert_eq
                               | rewrite lookup_insert_ne by discriminate]; reflexivity|]).
  exact Hr.
Qed.

Lemma render_output_configured_witness :
  run script startup_scene = (first_run.1, Done tt first_scene) /\
  output_configured startup_scene first_scene first_run.1.
Proof.
  split; [exact first_run_done|].
  exact (render_output_configured startup_scene first_scene first_run.1 first_run_done).
Defined.

(** ** C5 *)

(** The materials of the scene [s1] a run from [s0] left: the sun carries
    "SunMat", planet [n] its own material, every ring "RingMat", and each
    of these is one Emission node, with its colour and strength, linked to
    one Material Output node. *)
Definition emission_shaded (s0 s1 : host) : Prop :=
  (exists sun, objects s1 !! "Sun" = Some sun /\ ob_materials sun = [Some "SunMat"]) /\
  materials s1 !! "SunMat" =
    Some (Material true
            (Some ([Node "ShaderNodeEmission"
                      (<[1%nat := VNum (Int 10)]>
                         (<[0%nat := VTuple [Int 1; Flt 0x1.51eb851eb851fp-1;
                                             Flt 0x1.47ae147ae147bp-4; Int 1]]> ∅));
                    Node "ShaderNodeOutputMaterial" ∅],
                   [Link (0, 0)%nat (1, 0)%nat]))) /\
  (forall n, (n < N_PLANETS)%nat ->
     exists p r,
       objects s1 !! planet_name n = Some p /\
       ob_materials p = [Some (planet_mat_name n)] /\
       materials s1 !! planet_mat_name n =
         Some (emission_material
                 [Flt (draw s0 (5 * n + 2)); Flt (draw s0 (5 * n + 3)); Int 1; Int 1]
                 (Int 2)) /\
       objects s1 !! ring_name n = Some r /\
       ob_materials r = [Some "RingMat"]) /\
  (forall n m, (n < N_PLANETS)%nat -> (m < N_PLANETS)%nat ->
     planet_mat_name n = planet_mat_name m -> n = m) /\
  materials s1 !! "RingMat" = Some (emission_material [Int 1; Int 1; Int 1; Int 1] (Int 1)).

(** C5: after a run every sphere and torus the script made carries an
    emission material: the sun one whose node graph is exactly one Emission
    node (colour (1, 0.66, 0.08, 1), strength 10) linked to one Material
    Output node, planet [n] its own material of that shape with the colour
    (random, random, 1, 1) and strength 2, and all rings the one material
    "RingMat" with colour (1, 1, 1, 1) and strength 1. *)
Theorem objects_emission_shaded (s0 s1 : host) (t : list event) :
  run script s0 = (t, Done tt s1) -> emission_shaded s0 s1.
Proof.
  intros E. destruct (script_system _ _ _ E) as (act & _ & Hn & Hsun & Hsm & Hrm).
  split; [eexists; split; [exact Hsun|reflexivity]|]. split; [exact Hsm|].
  split; [|split; [exact planet_mat_name_inj|exact Hrm]].
  intros n Hlt. destruct (Hn n Hlt) as (Hp & Hg & Hm & _).
  eexists _, _. split; [exact Hp|]. split; [reflexivity|]. split; [exact Hm|].
  split; [exact Hg|reflexivity].
Qed.

Lemma objects_emission_shaded_witness :
  run script startup_scene = (first_run.1, Done tt first_scene) /\
  emission_shaded startup_scene first_scene.
Proof.
  split; [exact first_run_done|].
  exact (objects_emission_shaded startup_scene first_scene first_run.1 first_run_done).
Defined.

(** ** C6 *)

(** The rotation of the planets in the scene [s1] a run from [s0] left:
    planet [n] is animated by an action [act n] of its own that did not
    exist before, with one curve on the z rotation of two LINEAR keyframes,
    0 at frame 1 and [(2 + random() * 2) * pi] at frame 400, a binary64
    number between [2 * pi] and [4 * pi], both included. *)
Definition rotation_keyed (s0 s1 : host) : Prop :=
  exists act : nat -> string,
    (forall n m, act n = act m -> n = m) /\
    forall n, (n < N_PLANETS)%nat ->
      exists p,
        objects s1 !! planet_name n = Some p /\
        ob_animation p = Some (Some (act n)) /\
        actions s0 !! act n = None /\
        actions s1 !! act n =
          Some [FCurve "rotation_euler" 2
                  [Keyframe 1 (Int 0) "LINEAR";
                   Keyframe 400 (Flt (rotation_end (draw s0 (5 * n + 4)))) "LINEAR"]] /\
        is_finite (rotation_end (draw s0 (5 * n + 4))) = true /\
        (B2R (2 * pi) <= B2R (rotation_end (draw s0 (5 * n + 4))) <= B2R (4 * pi))%R.

(** C6, with the interval closed: for every planet a run pins the z
    rotation with exactly two keyframes on an action made for it, 0 at
    frame 1 and a random value at frame 400, both LINEAR; with [random()]
    in [0, 1) the value lies in [2 * pi, 4 * pi], where [pi] is the
    binary64 [math.pi] and [4 * pi] is reached. *)
Theorem rotation_keyframes (s0 s1 : host) (t : list event) :
  run script s0 = (t, Done tt s1) -> (forall i, unit_float (rng s0 i)) ->
  rotation_keyed s0 s1.
Proof.
  intros E Hrng. destruct (script_system _ _ _ E) as (act & Hinj & Hn & _).
  exists act. split; [exact Hinj|]. intros n Hlt.
  destruct (Hn n Hlt) as (Hp & _ & _ & Hnew & Hact).
  destruct (rotation_end_bounds (draw s0 (5 * n + 4)) (Hrng _)) as [Hf Hb].
  eexists. split; [exact Hp|]. split; [reflexivity|]. split; [exact Hnew|].
  split; [exact Hact|]. split; [exact Hf|exact Hb].
Qed.

Lemma rotation_keyframes_witness :
  run script startup_scene = (first_run.1, Done tt first_scene) /\
  (forall i, unit_float (rng startup_scene i)) /\
  rotation_keyed startup_scene first_scene.
Proof.
  split; [exact first_run_done|]. split; [exact sample_random_unit|].
  exact (rotation_keyframes startup_scene first_scene first_run.1 first_run_done
           sample_random_unit).
Defined.

(** The interval of C6 is not open at [4 * pi]: when [random()] returns its
    largest value, 1 - 2^-53, the keyframe of planet 0 at frame 400 is
    [4 * pi] itself. *)
Lemma rotation_reaches_4pi :
  (forall i, unit_float (rng extreme_scene i)) /\
  rotation_end random_max = (4 * pi)%float /\
  run script extreme_scene = (extreme_run.1, Done tt extreme_end) /\
  actions extreme_end !! "RotationAction" =
    Some [FCurve "rotation_euler" 2
            [Keyframe 1 (Int 0) "LINEAR"; Keyframe 400 (Flt (4 * pi)) "LINEAR"]].
Proof.
  split; [exact extreme_random_unit|]. split; [exact rotation_end_max|].
  split; [exact extreme_run_done|]. vm_compute. reflexivity.
Qed.

(** ** C7 *)

(** C7: on every host, a run of the script that returned went through the
    scene setup, the render settings, the camera, the cleaning and the
    building of the planets, rings and sun, each from the state the phase
    before left, then asked for the render of the animation, then
    deselected everything, and made no call after that; the render was
    asked for exactly once. *)
Theorem render_comes_last {H : Type} (h : handler H) (s s' : H) (t : list event) :
  exec h script s = (t, Done tt s') ->
  ran_in_order h s s' t /\
  List.filter (fun ev => is_render (ev_call ev)) t = [Ev (Render true) tt].
Proof.
  intros E. pose proof (script_phases h s s' t E) as Hp. split; [exact Hp|].
  destruct Hp as (t1 & s1 & t2 & s2 & t3 & s3 & t4 & s4 & t5 & s5 & s6 &
                  _ & _ & _ & _ & _ & _ & _ & -> & Hno).
  rewrite !app_assoc, List.filter_app, <- !app_assoc, (no_render_count _ Hno).
  reflexivity.
Qed.

Lemma render_comes_last_witness :
  exec ref_handler script startup_scene = (first_run.1, Done tt first_scene) /\
  ran_in_order ref_handler startup_scene first_scene first_run.1 /\
  List.filter (fun ev => is_render (ev_call ev)) first_run.1 = [Ev (Render true) tt].
Proof.
  split; [exact first_run_done|].
  exact (render_comes_last ref_handler startup_scene first_scene first_run.1 first_run_done).
Defined.

(** ** C8 *)



(** ** C9 *)

(** The sizes and distances of the planets in the scene [s1] a run from
    [s0] left, as real numbers: radius in [1, 5], distance of planet [n] in
    [28 + 12 n, 32 + 12 n] and so beyond the radius 12 of the sun, and the
    next planet at least 8 further out. *)
Definition planets_spaced (s0 s1 : host) : Prop :=
  forall n, (n < N_PLANETS)%nat ->
    exists p,
      objects s1 !! planet_name n = Some p /\
      ob_kind_of p = KSphere (Flt (radius_of s0 n)) [Int 1; Int 1; Int 1] /\
      ob_center p = [Flt (distance_of s0 n); Int 0; Int 0] /\
      radius_of s0 n = planet_radius (draw s0 (5 * n)) /\
      distance_of s0 n = planet_distance (Z.of_nat n) (draw s0 (5 * n + 1)) /\
      (1 <= B2R (radius_of s0 n) <= 5)%R /\
      (IZR (28 + 12 * Z.of_nat n) <= B2R (distance_of s0 n) <= IZR (32 + 12 * Z.of_nat n))%R /\
      (12 < B2R (distance_of s0 n))%R /\
      ((S n < N_PLANETS)%nat ->
       (B2R (distance_of s0 n) + 8 <= B2R (distance_of s0 (S n)))%R).

(** C9, with the intervals closed: with [random()] in [0, 1), every planet
    [n] of a run has its radius in [1, 5] and its distance in
    [28 + 12 n, 32 + 12 n]; so the distances increase strictly with [n],
    two consecutive planets are at least 8 apart, and every centre is
    strictly outside the sun sphere of radius 12. *)
Theorem planets_in_range (s0 s1 : host) (t : list event) :
  run script s0 = (t, Done tt s1) -> (forall i, unit_float (rng s0 i)) ->
  planets_spaced s0 s1.
Proof.
  intros E Hrng.
  assert (Hd : forall n, (n < N_PLANETS)%nat ->
            (IZR (28 + 12 * Z.of_nat n) <= B2R (distance_of s0 n)
             <= IZR (32 + 12 * Z.of_nat n))%R).
  { intros n Hlt. unfold N_PLANETS in Hlt.
    apply (planet_distance_bounds (Z.of_nat n) (draw s0 (5 * n + 1))); [lia|apply Hrng]. }
  destruct (script_system _ _ _ E) as (act & _ & Hn & _).
  intros n Hlt. destruct (Hn n Hlt) as (Hp & _).
  eexists. split; [exact Hp|]. split; [reflexivity|]. split; [reflexivity|].
  split; [reflexivity|]. split; [reflexivity|].
  split; [apply (planet_radius_bounds (draw s0 (5 * n))), Hrng|].
  pose proof (Hd n Hlt) as Hdn. split; [exact Hdn|].
  assert (H28 : (28 <= IZR (28 + 12 * Z.of_nat n))%R) by (apply IZR_le; lia).
  split; [lra|].
  intros Hlt'. pose proof (Hd (S n) Hlt') as Hds.
  replace (28 + 12 * Z.of_nat (S n))%Z with (32 + 12 * Z.of_nat n + 8)%Z in Hds by lia.
  rewrite plus_IZR in Hds. lra.
Qed.

Lemma planets_in_range_witness :
  run script startup_scene = (first_run.1, Done tt first_scene) /\
  (forall i, unit_float (rng startup_scene i)) /\
  planets_spaced startup_scene first_scene.
Proof.
  split; [exact first_run_done|]. split; [exact sample_random_unit|].
  exact (planets_in_range startup_scene first_scene first_run.1 first_run_done
           sample_random_unit).
Defined.

Lemma B2R_5 : B2R 5 = 5%R.
Proof. unfold B2R. prim2sf 5%float. apply (SF2R_dyadic _ _ 5 50); [lia|reflexivity|reflexivity]. Qed.

Lemma B2R_32 : B2R 32 = 32%R.
Proof. unfold B2R. prim2sf 32%float. apply (SF2R_dyadic _ _ 32 47); [lia|reflexivity|reflexivity]. Qed.

Lemma B2R_40 : B2R 40 = 40%R.
Proof. unfold B2R. prim2sf 40%float. apply (SF2R_dyadic _ _ 40 47); [lia|reflexivity|reflexivity]. Qed.

(** The intervals of C9 are not open at the top, and two planets can be
    exactly 8 apart: when [random()] returns its largest value, 1 - 2^-53,
    for planet 0 and then 0 for the distance of planet 1, planet 0 has
    radius 5 and distance 32, and planet 1 distance 40. *)
Lemma planet_bounds_reached :
  (forall i, unit_float (rng extreme_scene i)) /\
  run script extreme_scene = (extreme_run.1, Done tt extreme_end) /\
  ob_kind_of <$> objects extreme_end !! "Planet-00" =
    Some (KSphere (Flt 5) [Int 1; Int 1; Int 1]) /\
  ob_center <$> objects extreme_end !! "Planet-00" = Some [Flt 32; Int 0; Int 0] /\
  ob_center <$> objects extreme_end !! "Planet-01" = Some [Flt 40; Int 0; Int 0] /\
  B2R 5 = 5%R /\ B2R 32 = 32%R /\ B2R 40 = 40%R.
Proof.
  split; [exact extreme_random_unit|]. split; [exact extreme_run_done|].
  split; [vm_compute; reflexivity|]. split; [vm_compute; reflexivity|].
  split; [vm_compute; reflexivity|].
  split; [exact B2R_5|]. split; [exact B2R_32|exact B2R_40].
Qed.

(** ** C10 *)


(** * Beyond the claims: the functions one by one *)

(** ** [setup_render_settings] *)

(** X1: [setup_render_settings] cannot fail and changes nothing but ten
    render settings of the scene; with [test_render] the resolution is
    960 x 540 at 50 percent, the path, format, codec and frame rate being
    those of a final render. *)
Theorem setup_render_settings_total (path : string) (b : bool) (s : host) :
  (exists t, run (setup_render_settings path b) s =
             (t, Done tt (set_scene (render_settings path b (scene s)) s))) /\
  render_settings path true (scene s) !! "render.resolution_x" = Some (VNum (Int 960)) /\
  render_settings path true (scene s) !! "render.resolution_y" = Some (VNum (Int 540)) /\
  render_settings path true (scene s) !! "render.resolution_percentage" =
    Some (VNum (Int 50)) /\
  render_settings path true (scene s) !! "render.filepath" = Some (VStr path) /\
  render_settings path true (scene s) !! "render.fps" = Some (VNum (Int 24)) /\
  forall k, ~ (exists suffix, k = "render." ++ suffix) ->
            render_settings path b (scene s) !! k = scene s !! k.
Proof.
  split.
  { destruct (setup_render_settings_runs path b s) as (t & Ht & _). exists t. exact Ht. }
  unfold render_settings.
  repeat (split; [repeat first [rewrite lookup_insert_eq
                               | rewrite lookup_insert_ne by discriminate]; reflexivity|]).
  intros k Hk.
  rewrite !lookup_insert_ne; [reflexivity|..]; intros <-; apply Hk; eexists; reflexivity.
Qed.

Ltac by_key k key :=
  destruct (decide (k = key)) as [->|?];
  [repeat first [rewrite lookup_insert_eq | rewrite lookup_insert_ne by discriminate];
   reflexivity|].

Lemma render_settings_twice (p1 p2 : string) (b1 b2 : bool) (sc : gmap string value) :
  render_settings p2 b2 (render_settings p1 b1 sc) = render_settings p2 b2 sc.
Proof.
  unfold render_settings. apply map_eq. intros k.
  by_key k "render.fps". by_key k "render.resolution_percentage".
  by_key k "render.resolution_y". by_key k "render.resolution_x".
  by_key k "render.filepath". by_key k "render.ffmpeg.constant_rate_factor".
  by_key k "render.ffmpeg.codec". by_key k "render.ffmpeg.format".
  by_key k "render.image_settings.file_format". by_key k "render.engine".
  rewrite !lookup_insert_ne by congruence. reflexivity.
Qed.

(** X2: what [setup_render_settings] writes does not depend on what an
    earlier call of it wrote: the last call wins, and calling it twice
    with the same arguments is calling it once. *)
Theorem setup_render_settings_last_wins (p1 p2 : string) (b1 b2 : bool) (s : host) :
  exists t,
    run (setup_render_settings p1 b1 ;;; setup_render_settings p2 b2) s =
    (t, Done tt (set_scene (render_settings p2 b2 (scene s)) s)).
Proof.
  destruct (setup_render_settings_runs p1 b1 s) as (t1 & H1 & _).
  destruct (setup_render_settings_runs p2 b2 (set_scene (render_settings p1 b1 (scene s)) s))
    as (t2 & H2 & _).
  exists (t1 ++ t2)%list. unfold run in *. rewrite exec_bind, H1, H2. do 2 f_equal.
  unfold set_scene. cbn [worlds scene windows space_data spaces objects active cursor
                         materials actions renders rng rng_pos].
  rewrite render_settings_twice. reflexivity.
Qed.

(** ** [find_3dview_space] and [setup_scene] *)

(** What [find_3dview_space] does in a scene: the calls it makes and how
    it ends.  With no window it raises IndexError; it returns the first
    space of the first area of type VIEW_3D, raises IndexError when that
    area has no space, and falls back to the context's space data, which
    may be None, when no area is a 3D view. *)
Definition found_space (s : host) : list event * outcome host (option nat) :=
  match windows s with
  | [] => ([], Raised ScreenAreas IndexError s)
  | areas :: _ =>
    match List.find is_view_3d areas with
    | Some a =>
      match area_spaces a with
      | [] => ([Ev ScreenAreas areas], Raised (AreaSpace0 a) IndexError s)
      | sp :: _ => ([Ev ScreenAreas areas; Ev (AreaSpace0 a) (Some sp)], Done (Some sp) s)
      end
    | None =>
      ([Ev ScreenAreas areas; Ev ContextSpaceData (space_data s)], Done (space_data s) s)
    end
  end.

Lemma find_3dview_space_run (s : host) : run find_3dview_space s = found_space s.
Proof.
  unfold run, find_3dview_space, found_space, call_. cbn [bind exec ref_handler].
  destruct (windows s) as [|areas ws]; [reflexivity|].
  destruct (List.find is_view_3d areas) as [a|]; cbn [exec ref_handler]; [|reflexivity].
  destruct (area_spaces a); reflexivity.
Qed.

(** X3: [find_3dview_space] ends as [found_space] says, and in every case
    leaves the scene as it was: IndexError with no window or with a 3D view
    area without spaces, the first space of the first VIEW_3D area
    otherwise, or the context's space data when no area is a 3D view. *)
Theorem find_3dview_space_cases (s : host) :
  run find_3dview_space s = found_space s /\ final (found_space s).2 = s.
Proof.
  split; [exact (find_3dview_space_run s)|]. unfold found_space.
  destruct (windows s) as [|areas ws]; [reflexivity|].
  destruct (List.find is_view_3d areas) as [a|]; [|reflexivity].
  destruct (area_spaces a); reflexivity.
Qed.

(** The space [find_3dview_space] returns, when it returns. *)
Definition view_space (s : host) : option (option nat) :=
  match windows s with
  | [] => None
  | areas :: _ =>
    match List.find is_view_3d areas with
    | Some a => match area_spaces a with [] => None | sp :: _ => Some (Some sp) end
    | None => Some (space_data s)
    end
  end.

Lemma find_3dview_space_runs (s : host) (sp : option nat) :
  view_space s = Some sp -> runs_to find_3dview_space s sp s [].
Proof.
  unfold view_space, runs_to. rewrite find_3dview_space_run. unfold found_space.
  destruct (windows s) as [|areas ws]; [discriminate|].
  destruct (List.find is_view_3d areas) as [a|].
  - destruct (area_spaces a); [discriminate|]. intros [= <-]. eexists. split; reflexivity.
  - intros [= <-]. eexists. split; reflexivity.
Qed.

(** The settings [setup_scene] writes. *)
Definition scene_settings (sc : gmap string value) : gmap string value :=
  <["frame_current" := VNum (Int 1)]>
    (<["frame_end" := VNum (Int 400)]>
       (<["frame_start" := VNum (Int 1)]>
          (<["eevee.use_bloom" := VBool true]>
             (<["render.engine" := VStr "BLENDER_EEVEE"]> sc)))).

Definition space_settings (sp : nat) (m : gmap (nat * string) value)
    : gmap (nat * string) value :=
  <[(sp, "overlay.show_object_origins") := VBool false]>
    (<[(sp, "overlay.show_cursor") := VBool false]>
       (<[(sp, "overlay.show_axis_y") := VBool false]>
          (<[(sp, "overlay.show_axis_x") := VBool false]>
             (<[(sp, "overlay.show_floor") := VBool false]>
                (<[(sp, "shading.type") := VStr "RENDERED"]> m))))).

Definition black : value := VTuple [Int 0; Int 0; Int 0; Int 1].

Definition background_set (nodes : gmap string (list value)) (ins : list value) (s : host)
    : host :=
  set_worlds (<["World" := <["Background" := <[0%nat := black]> ins]> nodes]> (worlds s)) s.

Lemma setup_scene_runs (s : host) nodes ins (sp : nat) :
  worlds s !! "World" = Some nodes -> nodes !! "Background" = Some ins ->
  (0 < length ins)%nat -> view_space s = Some (Some sp) ->
  runs_to setup_scene s tt
    (set_spaces (space_settings sp (spaces s))
       (set_scene (scene_settings (scene s)) (background_set nodes ins s))) [].
Proof.
  intros Hw Hn Hi Hsp. eapply runs_to_obs.
  { unfold setup_scene.
    eapply runs_bind_call.
    { cbn [ref_handler]. rewrite Hw, Hn. rewrite decide_True by exact Hi. reflexivity. }
    fold (background_set nodes ins s).
    do 5 step.
    eapply runs_bind; [apply find_3dview_space_runs; exact Hsp|].
    do 5 step. last_step. }
  reflexivity.
Qed.

(** ** The camera phase, forwards *)

Lemma camera_runs_absent f1 f2 l1 l2 n1 n2 (s : host) :
  objects s !! "Camera" = None ->
  runs_to (setup_and_animate_camera f1 f2 l1 l2 n1 n2) s tt
    (set_objects (<["Camera" := animated f1 f2 l1 l2 n1 n2 (new_object KCamera l1)]>
                    (deselect <$> objects s))
       (set_active (Some "Camera") s)) [].
Proof.
  intros Hcam. rewrite setup_and_animate_camera_eq. eapply runs_to_obs.
  { eapply runs_bind_call; [reflexivity|].
    rewrite bool_decide_false by (rewrite Hcam; intros [? ?]; discriminate). cbn [negb].
    eapply runs_bind.
    { eapply runs_bind_call; [reflexivity|]. unfold call_.
      eapply runs_call; [reflexivity|]. apply runs_ret. }
    cbn [ref_handler]. unfold add_object. rewrite (fresh_name_None _ _ Hcam).
    cbn [active set_active].
    apply (animate_runs f1 f2 l1 l2 n1 n2 (new_object KCamera l1) (deselect <$> objects s)
             (set_active (Some "Camera") s)).
    reflexivity. }
  reflexivity.
Qed.


(** ** The cleaning, forwards *)





(** The names the cleaning looks for. *)
Definition system_name (k : string) : Prop :=
  k = "Sun" \/ exists n, (n < N_PLANETS)%nat /\ (k = planet_name n \/ k = ring_name n).


(** ** When the script returns *)



(** ** Making objects and materials under any name *)

Lemma rename_fresh (f nm : string) (ob : object) (m : gmap string object) (s : host) :
  m !! f = None ->
  rename_object f nm ob (set_active (Some f) (set_objects (<[f := ob]> m) s)) =
  set_active (Some (fresh_name nm (dom m)))
    (set_objects (<[fresh_name nm (dom m) := ob]> m) s).
Proof.
  intros Hf. unfold rename_object. host_simpl.
  rewrite delete_insert_eq, (delete_id _ _ Hf).
  rewrite decide_True by reflexivity. reflexivity.
Qed.

(** The name a new object or material gets when [nm] is asked for. *)
Definition given_name {A : Type} (nm : string) (m : gmap string A) : string :=
  fresh_name nm (dom m).

Lemma given_name_free {A : Type} (nm : string) (m : gmap string A) :
  m !! given_name nm m = None.
Proof. apply fresh_name_lookup. Qed.

Lemma given_name_same {A : Type} (nm : string) (m : gmap string A) :
  m !! nm = None -> given_name nm m = nm.
Proof. apply fresh_name_None. Qed.

Lemma given_name_other {A : Type} (nm : string) (m : gmap string A) :
  is_Some (m !! nm) -> given_name nm m <> nm.
Proof. intros [x Hx] E. pose proof (given_name_free nm m) as Hf. rewrite E in Hf. congruence. Qed.

Lemma add_then_name_any (base nm : string) (ob : object) (s : host) :
  rename_object (fresh_name base (dom (objects s))) nm ob (add_object base ob s) =
  place (given_name nm (objects s)) ob s.
Proof.
  unfold add_object, place, given_name. rewrite rename_fresh.
  - rewrite dom_fmap_L. reflexivity.
  - rewrite lookup_fmap, (fresh_name_lookup base (objects s)). reflexivity.
Qed.

Lemma create_sphere_any (r d : num) (nm : string) (s : host) :
  runs_to (create_sphere r d nm) s (Some (given_name nm (objects s)))
    (place (given_name nm (objects s)) (sphere_object r d) s)
    [SphereAdd r [d; Int 0; Int 0] [Int 1; Int 1; Int 1]].
Proof.
  eapply runs_to_obs.
  { unfold create_sphere, call_. cbn [bind].
    eapply runs_call; [reflexivity|].
    eapply runs_call; [reflexivity|]. cbn [active add_object set_active].
    eapply runs_call.
    { cbn [ref_handler]. unfold with_object.
      unfold add_object at 1. cbn [objects set_objects set_active].
      rewrite lookup_insert_eq. rewrite add_then_name_any. reflexivity. }
    eapply runs_call.
    { cbn [ref_handler]. rewrite shade_placed by reflexivity. reflexivity. }
    eapply runs_call; [reflexivity|].
    cbn [active place set_active set_objects]. apply runs_ret. }
  reflexivity.
Qed.

Lemma create_torus_any (r : num) (nm : string) (s : host) :
  runs_to (create_torus r nm) s (Some (given_name nm (objects s)))
    (place (given_name nm (objects s)) (torus_object r) s)
    [TorusAdd [Int 0; Int 0; Int 0] r (Flt 0x1.999999999999ap-4) 60].
Proof.
  eapply runs_to_obs.
  { unfold create_torus, call_. cbn [bind].
    eapply runs_call; [reflexivity|].
    eapply runs_call; [reflexivity|]. cbn [active add_object set_active].
    eapply runs_call.
    { cbn [ref_handler]. unfold with_object.
      unfold add_object at 1. cbn [objects set_objects set_active].
      rewrite lookup_insert_eq. rewrite add_then_name_any. reflexivity. }
    eapply runs_call.
    { cbn [ref_handler]. rewrite shade_placed by reflexivity. reflexivity. }
    eapply runs_call; [reflexivity|].
    cbn [active place set_active set_objects]. apply runs_ret. }
  reflexivity.
Qed.

Lemma create_emission_shader_any color strength name s :
  runs_to (create_emission_shader color strength name) s (given_name name (materials s))
    (set_materials (<[given_name name (materials s) := emission_material color strength]>
                      (materials s)) s) [].
Proof.
  unfold given_name. eapply runs_to_obs.
  { unfold create_emission_shader, call_. cbn [bind]. host_simpl.
    do 8 run_call idtac. apply runs_ret. }
  reflexivity.
Qed.

(** ** An object named "Camera" that is no camera *)

Definition moved (l1 : list num) (cam : object) : object :=
  set_ob_props (insert "rotation_euler" (VTuple [Flt (radians 65); Int 0; Flt (radians 67)]))
    (set_ob_props (insert "location" (VTuple l1)) cam).

Lemma animate_wrong_kind f1 f2 l1 l2 n1 n2 (cam : object) (objs : gmap string object)
    (s : host) :
  ob_kind_of cam <> KCamera ->
  run (animate (Some "Camera") f1 f2 l1 l2 n1 n2) (set_objects (<["Camera" := cam]> objs) s) =
  ([Ev (ObjectSet (Some "Camera") "location" (VTuple l1)) tt;
    Ev (ObjectSet (Some "Camera") "rotation_euler"
          (VTuple [Flt (radians 65); Int 0; Flt (radians 67)])) tt],
   Raised (ObjectDataSet (Some "Camera") "lens" (VNum n1)) (AttributeError "lens")
     (set_objects (<["Camera" := moved l1 cam]> objs) s)).
Proof.
  intros Hk. destruct cam as [k p dp ks dks c sel v sm m a]. cbn in Hk.
  unfold run, animate, call_, moved. cbn [bind exec]. host_full.
  destruct k; try contradiction; reflexivity.
Qed.

Lemma runs_then_raises {A B : Type} (m : Prog A) (f : A -> Prog B) (s s1 s' : host)
    a o t c e :
  runs_to m s a s1 o -> run (f a) s1 = (t, Raised c e s') ->
  exists t', run (bind m f) s = (t', Raised c e s').
Proof.
  intros (t1 & E1 & _) E2. exists (t1 ++ t)%list. unfold run in *.
  rewrite exec_bind, E1, E2. reflexivity.
Qed.

Lemma camera_wrong_kind f1 f2 l1 l2 n1 n2 (cam : object) (s : host) :
  objects s !! "Camera" = Some cam -> ob_kind_of cam <> KCamera ->
  ob_in_view_layer cam = true ->
  exists t,
    run (setup_and_animate_camera f1 f2 l1 l2 n1 n2) s =
    (t, Raised (ObjectDataSet (Some "Camera") "lens" (VNum n1)) (AttributeError "lens")
          (set_objects (<["Camera" := moved l1 (set_ob_selected true cam)]> (objects s))
             (set_active (Some "Camera") s))).
Proof.
  intros Hcam Hk Hv. rewrite setup_and_animate_camera_eq.
  assert (R : runs_to (camera <- call_ (ObjectsGet "Camera") ;;
                       call_ (SetActive camera) ;;;
                       call_ (SelectSet camera true) ;;;
                       Ret camera) s (Some "Camera")
                (set_objects (<["Camera" := set_ob_selected true cam]> (objects s))
                   (set_active (Some "Camera") s)) []).
  { rewrite <- (alter_present (set_ob_selected true) _ _ _ Hcam).
    eapply runs_to_obs.
    { eapply runs_bind_call; [cbn [ref_handler]; rewrite Hcam; reflexivity|].
      eapply runs_bind_call.
      { cbn [ref_handler]. unfold with_object. rewrite Hcam, Hv. reflexivity. }
      eapply runs_bind_call.
      { cbn [ref_handler]. unfold with_object. cbn [objects set_active].
        rewrite Hcam, Hv. reflexivity. }
      apply runs_ret. }
    reflexivity. }
  destruct (runs_then_raises _ (fun camera => animate camera f1 f2 l1 l2 n1 n2) _ _ _ _ _ _ _ _ R
              (animate_wrong_kind f1 f2 l1 l2 n1 n2 (set_ob_selected true cam) (objects s)
                 (set_active (Some "Camera") s) ltac:(destruct cam; exact Hk))) as (t' & E).
  eapply runs_then_raises.
  { unfold call_. eapply runs_call; [reflexivity|]. apply runs_ret. }
  cbn beta. rewrite bool_decide_true by (rewrite Hcam; eexists; reflexivity). cbn [negb].
  exact E.
Qed.

(** ** What the cleaning keeps *)

Lemma delete_object_keeps (name : string) (s s' : host) t :
  run (delete_object name) s = (t, Done tt s') ->
  forall k o, objects s !! k = Some o -> ob_selected o = false -> k <> name ->
              objects s' !! k = Some o.
Proof.
  intros E k o Ho Hsel Hne. destruct (objects s !! name) as [ob|] eqn:Hl.
  - destruct (ob_in_view_layer ob) eqn:Hv.
    + rewrite (delete_object_present _ _ _ Hl Hv) in E. injection E as _ <-.
      apply select_then_delete_lookup. auto.
    + rewrite (delete_object_hidden _ _ _ Hl Hv) in E. discriminate E.
  - rewrite (delete_object_absent _ _ Hl) in E. injection E as _ <-. exact Ho.
Qed.

Lemma delete_pairs_keeps (f g : nat -> string) (l : list nat) (s s' : host) t :
  run (for_each l (fun n => delete_object (f n) ;;; delete_object (g n))) s = (t, Done tt s') ->
  forall k o, objects s !! k = Some o -> ob_selected o = false ->
              (forall n, n ∈ l -> k <> f n /\ k <> g n) ->
              objects s' !! k = Some o.
Proof.
  revert s t. induction l as [|n l IH]; intros s t E k o Ho Hsel Hne; cbn [for_each] in E.
  - injection E as _ <-. exact Ho.
  - apply exec_bind_done in E as (t1 & [] & s1 & t2 & E1 & E2 & _).
    apply exec_bind_done in E1 as (ta & [] & sa & tb & Ea & Eb & _).
    destruct (Hne n) as [Hf Hg]; [left|].
    apply (IH _ _ E2); [|exact Hsel|intros m Hm; apply Hne; right; exact Hm].
    apply (delete_object_keeps _ _ _ _ Eb); [|exact Hsel|exact Hg].
    apply (delete_object_keeps _ _ _ _ Ea); assumption.
Qed.

(** An object but for its material slots. *)
Definition without_slots (o : object) : object := set_ob_materials (fun _ => []) o.

Lemma remove_all_keeps (l : list string) (s s' : host) t :
  run (for_each l (fun m => call_ (MaterialsRemove m))) s = (t, Done tt s') ->
  forall k o, objects s !! k = Some o ->
              exists o', objects s' !! k = Some o' /\ without_slots o' = without_slots o.
Proof.
  revert s t. induction l as [|m l IH]; intros s t E k o Ho; cbn [for_each] in E.
  - injection E as _ <-. exists o. auto.
  - apply exec_bind_done in E as (t1 & [] & s1 & t2 & E1 & E2 & _).
    apply (exec_call_ ref_handler (MaterialsRemove m)) in E1 as [E1 _].
    cbn [ref_handler] in E1. destruct (materials s !! m) eqn:Hm; [|discriminate E1].
    injection E1 as <-.
    destruct (IH _ _ E2 k (set_ob_materials (map (clear_slot m)) o)) as (o' & Ho' & Hw).
    { unfold remove_material. cbn [objects set_materials set_objects].
      rewrite lookup_fmap, Ho. reflexivity. }
    exists o'. split; [exact Ho'|]. rewrite Hw. destruct o; reflexivity.
Qed.

Lemma clean_scene_keeps (s s' : host) t :
  run clean_scene s = (t, Done tt s') ->
  forall k o, objects s !! k = Some o -> ob_selected o = false -> ~ system_name k ->
              exists o', objects s' !! k = Some o' /\ without_slots o' = without_slots o.
Proof.
  unfold clean_scene. intros E k o Ho Hsel Hk.
  apply exec_bind_done in E as (t1 & [] & s1 & t2 & E1 & E & _).
  apply exec_bind_done in E as (t3 & [] & s2 & t4 & E2 & E & _).
  apply exec_bind_done in E as (t5 & ms & s3 & t6 & E3 & E4 & _).
  apply (exec_call_ ref_handler MaterialsIter) in E3 as [E3 _].
  cbn [ref_handler] in E3. injection E3 as <- <-.
  apply (remove_all_keeps _ _ _ _ E4).
  apply (delete_pairs_keeps _ _ _ _ _ _ E2); [|exact Hsel|].
  - apply (delete_object_keeps _ _ _ _ E1); [exact Ho|exact Hsel|].
    intros ->. apply Hk. left. reflexivity.
  - intros n Hn. apply elem_of_seq in Hn.
    split; intros ->; apply Hk; right; exists n; (split; [lia|]); [left|right]; reflexivity.
Qed.

(** ** Cleaning a clean scene *)

Lemma delete_pairs_absent (f g : nat -> string) (l : list nat) (s : host) :
  (forall n, n ∈ l -> objects s !! f n = None /\ objects s !! g n = None) ->
  exists t, run (for_each l (fun n => delete_object (f n) ;;; delete_object (g n))) s =
            (t, Done tt s).
Proof.
  induction l as [|n l IH]; intros Hl; cbn [for_each]; [eexists; reflexivity|].
  destruct (Hl n) as [Hf Hg]; [left|].
  destruct IH as (t & E); [intros m Hm; apply Hl; right; exact Hm|].
  eexists. unfold run in *. rewrite exec_bind, exec_bind.
  pose proof (delete_object_absent _ _ Hf) as Ef. pose proof (delete_object_absent _ _ Hg) as Eg.
  unfold run in Ef, Eg. rewrite Ef, Eg, E. reflexivity.
Qed.

Lemma clean_scene_again (s : host) :
  cleaned s -> exists t, run clean_scene s = (t, Done tt s).
Proof.
  intros (Hsun & Hn & Hm).
  destruct (delete_pairs_absent planet_name ring_name (seq 0 N_PLANETS) s) as (t & E).
  { intros n Hin. apply elem_of_seq in Hin. apply Hn. lia. }
  eexists. unfold run, clean_scene in *. rewrite exec_bind.
  pose proof (delete_object_absent _ _ Hsun) as Es. unfold run in Es. rewrite Es.
  rewrite exec_bind, E, exec_bind. unfold call_ at 1. cbn [exec ref_handler].
  rewrite Hm, map_to_list_empty. reflexivity.
Qed.

(** ** What no call of the host model changes *)




(** ** Runs that end in an exception *)

(** [p] run from [s] stops at the call [c], which raises [e], in [s']. *)
Definition raises_to {A : Type} (p : Prog A) (s : host) (c : call) (e : exn) (s' : host)
    : Prop :=
  exists t, run p s = (t, Raised c e s').

Lemma raises_here {A : Type} (c : call) (k : resp c -> Prog A) (s : host) e :
  ref_handler s c = inl e -> raises_to (Call c k) s c e s.
Proof. intros H. exists []. unfold run. cbn [exec]. rewrite H. reflexivity. Qed.

Lemma raises_call {A : Type} (c0 : call) (k : resp c0 -> Prog A) (s s1 s' : host) r c e :
  ref_handler s c0 = inr (r, s1) -> raises_to (k r) s1 c e s' ->
  raises_to (Call c0 k) s c e s'.
Proof.
  intros H (t & E). exists (Ev c0 r :: t). unfold run in *. cbn [exec]. rewrite H, E.
  reflexivity.
Qed.

Lemma raises_bind_call {B : Type} (c0 : call) (k : resp c0 -> Prog B) (s s1 s' : host)
    r c e :
  ref_handler s c0 = inr (r, s1) -> raises_to (k r) s1 c e s' ->
  raises_to (bind (call_ c0) k) s c e s'.
Proof. intros H R. unfold call_. cbn [bind]. eapply raises_call; eassumption. Qed.

Lemma raises_bind {A B : Type} (m : Prog A) (f : A -> Prog B) (s s' : host) c e :
  raises_to m s c e s' -> raises_to (bind m f) s c e s'.
Proof. intros (t & E). exists t. unfold run in *. rewrite exec_bind, E. reflexivity. Qed.

Lemma raises_after {A B : Type} (m : Prog A) (f : A -> Prog B) (s s1 s' : host) a o c e :
  runs_to m s a s1 o -> raises_to (f a) s1 c e s' -> raises_to (bind m f) s c e s'.
Proof. intros R (t & E). exact (runs_then_raises m f s s1 s' a o t c e R E). Qed.
(** * Beyond the claims: the theorems *)

(** ** Scenes to run in *)

Definition startup_nodes : gmap string (list value) :=
  {[ "Background" := [VTuple [Flt 0x1.999999999999ap-5; Flt 0x1.999999999999ap-5;
                               Flt 0x1.999999999999ap-5; Flt 1]; VNum (Flt 1)];
     "World Output" := [VNum (Int 0)] ]}.

Definition startup_background : list value :=
  [VTuple [Flt 0x1.999999999999ap-5; Flt 0x1.999999999999ap-5;
           Flt 0x1.999999999999ap-5; Flt 1]; VNum (Flt 1)].

(** Blender started with no window, as with [--background]. *)
Definition headless_scene : host :=
  Host (worlds startup_scene) (scene startup_scene) [] None (spaces startup_scene)
    (objects startup_scene) (active startup_scene) (cursor startup_scene)
    (materials startup_scene) (actions startup_scene) (renders startup_scene)
    (rng startup_scene) (rng_pos startup_scene).

Definition no_world_scene : host := set_worlds ∅ startup_scene.

Definition no_camera_scene : host :=
  set_objects (delete "Camera" (objects startup_scene)) startup_scene.

(** The startup scene with its cube renamed "Camera" and no camera. *)
Definition cube_camera_scene : host :=
  set_objects (<["Camera" := startup_cube]> (delete "Cube" (objects startup_scene)))
    startup_scene.



(** ** [setup_scene] *)

(** X4: in a scene with a world "World" whose Background node has an
    input, and with a 3D view, [setup_scene] returns; it has set that
    input to black, written the engine, bloom and the three frame
    settings of the scene and the six display settings of the space
    [find_3dview_space] found, and changed nothing else. *)
Theorem setup_scene_configures (s : host) (nodes : gmap string (list value))
    (ins : list value) (sp : nat) :
  worlds s !! "World" = Some nodes -> nodes !! "Background" = Some ins ->
  (0 < length ins)%nat -> view_space s = Some (Some sp) ->
  exists t,
    run setup_scene s =
    (t, Done tt (set_spaces (space_settings sp (spaces s))
                   (set_scene (scene_settings (scene s)) (background_set nodes ins s)))).
Proof.
  intros Hw Hn Hi Hsp.
  destruct (setup_scene_runs s nodes ins sp Hw Hn Hi Hsp) as (t & E & _).
  exists t. exact E.
Qed.

Lemma setup_scene_configures_witness :
  exists t,
    run setup_scene startup_scene =
    (t, Done tt (set_spaces (space_settings 0 (spaces startup_scene))
                   (set_scene (scene_settings (scene startup_scene))
                      (background_set startup_nodes startup_background startup_scene)))).
Proof.
  apply (setup_scene_configures startup_scene startup_nodes startup_background 0);
    [reflexivity|reflexivity|cbn; lia|reflexivity].
Defined.

(** X5: with no world named "World", [setup_scene] raises KeyError at its
    first line and has changed nothing. *)
Theorem setup_scene_without_world (s : host) :
  worlds s !! "World" = None ->
  run setup_scene s =
  ([], Raised (WorldInputSet "World" "Background" 0 (VTuple [Int 0; Int 0; Int 0; Int 1]))
         (KeyError "World") s).
Proof.
  intros Hw. unfold run, setup_scene, call_. cbn [bind exec ref_handler]. rewrite Hw.
  reflexivity.
Qed.

Lemma setup_scene_without_world_witness :
  worlds no_world_scene !! "World" = None /\
  run setup_scene no_world_scene =
  ([], Raised (WorldInputSet "World" "Background" 0 (VTuple [Int 0; Int 0; Int 0; Int 1]))
         (KeyError "World") no_world_scene).
Proof.
  split; [reflexivity|]. apply (setup_scene_without_world no_world_scene). reflexivity.
Defined.

(** X6: with no window, [setup_scene] raises IndexError when it looks for
    the 3D view, after the background and the five scene settings have
    been written: these stay written. *)
Theorem setup_scene_headless (s : host) (nodes : gmap string (list value))
    (ins : list value) :
  worlds s !! "World" = Some nodes -> nodes !! "Background" = Some ins ->
  (0 < length ins)%nat -> windows s = [] ->
  exists t,
    run setup_scene s =
    (t, Raised ScreenAreas IndexError
          (set_scene (scene_settings (scene s)) (background_set nodes ins s))).
Proof.
  intros Hw Hn Hi Hwin. change (raises_to setup_scene s ScreenAreas IndexError
    (set_scene (scene_settings (scene s)) (background_set nodes ins s))).
  unfold setup_scene.
  eapply raises_bind_call.
  { cbn [ref_handler]. rewrite Hw, Hn. rewrite decide_True by exact Hi. reflexivity. }
  fold (background_set nodes ins s).
  do 5 (eapply raises_bind_call; [reflexivity|]).
  apply raises_bind. unfold find_3dview_space. eapply raises_bind.
  unfold call_. apply raises_here. unfold background_set.
  cbn [ref_handler windows set_scene set_worlds]. rewrite Hwin. reflexivity.
Qed.

Lemma setup_scene_headless_witness :
  windows headless_scene = [] /\
  exists t,
    run setup_scene headless_scene =
    (t, Raised ScreenAreas IndexError
          (set_scene (scene_settings (scene headless_scene))
             (background_set startup_nodes startup_background headless_scene))).
Proof.
  split; [reflexivity|].
  apply (setup_scene_headless headless_scene startup_nodes startup_background);
    [reflexivity|reflexivity|cbn; lia|reflexivity].
Defined.

(** ** [create_sphere], [create_torus], [create_emission_shader] *)

(** X7: [create_sphere] cannot fail.  It leaves a new smooth sphere of the
    radius, at the distance on the x axis, selected and active, every
    other object deselected, and returns it.  The sphere has the name asked
    for only when that name was free: otherwise the object that had the
    name keeps it and the sphere gets another, free one. *)
Theorem create_sphere_any_name (r d : num) (nm : string) (s : host) :
  (exists t,
     run (create_sphere r d nm) s =
     (t, Done (Some (given_name nm (objects s)))
           (place (given_name nm (objects s)) (sphere_object r d) s))) /\
  objects s !! given_name nm (objects s) = None /\
  (objects s !! nm = None -> given_name nm (objects s) = nm) /\
  (is_Some (objects s !! nm) ->
   given_name nm (objects s) <> nm /\
   objects (place (given_name nm (objects s)) (sphere_object r d) s) !! nm =
     deselect <$> objects s !! nm).
Proof.
  split; [destruct (create_sphere_any r d nm s) as (t & E & _); exists t; exact E|].
  split; [apply given_name_free|]. split; [apply given_name_same|].
  intros Hsome. pose proof (given_name_other nm (objects s) Hsome) as Hne.
  split; [exact Hne|]. unfold place. cbn [objects set_active set_objects].
  rewrite lookup_insert_ne by exact Hne. apply lookup_fmap.
Qed.

(** X8: [create_torus] cannot fail.  It leaves a new smooth torus about the
    origin with the major radius given, minor radius 0.1 and 60 segments,
    selected and active, and returns it; as for the sphere, it has the name
    asked for only when that name was free. *)
Theorem create_torus_any_name (r : num) (nm : string) (s : host) :
  (exists t,
     run (create_torus r nm) s =
     (t, Done (Some (given_name nm (objects s)))
           (place (given_name nm (objects s)) (torus_object r) s))) /\
  torus_object r =
    Object (KTorus r (Flt 0x1.999999999999ap-4) 60)
      {[ "location" := VTuple [Int 0; Int 0; Int 0] ]} ∅ ∅ ∅ [Int 0; Int 0; Int 0]
      true true true [] None /\
  (objects s !! nm = None -> given_name nm (objects s) = nm) /\
  (is_Some (objects s !! nm) ->
   given_name nm (objects s) <> nm /\
   objects (place (given_name nm (objects s)) (torus_object r) s) !! nm =
     deselect <$> objects s !! nm).
Proof.
  split; [destruct (create_torus_any r nm s) as (t & E & _); exists t; exact E|].
  split; [reflexivity|]. split; [apply given_name_same|].
  intros Hsome. pose proof (given_name_other nm (objects s) Hsome) as Hne.
  split; [exact Hne|]. unfold place. cbn [objects set_active set_objects].
  rewrite lookup_insert_ne by exact Hne. apply lookup_fmap.
Qed.

(** X9: [create_emission_shader] cannot fail.  It adds one material, an
    Emission node with the colour and the strength linked to a Material
    Output node, under the name asked for or, when that is taken, under a
    free one, which it returns; the materials that were there stay as they
    were, and nothing else changes. *)
Theorem create_emission_shader_total (color : list num) (strength : num) (name : string)
    (s : host) :
  (exists t,
     run (create_emission_shader color strength name) s =
     (t, Done (given_name name (materials s))
           (set_materials
              (<[given_name name (materials s) := emission_material color strength]>
                 (materials s)) s))) /\
  materials s !! given_name name (materials s) = None /\
  (materials s !! name = None -> given_name name (materials s) = name) /\
  forall k, k <> given_name name (materials s) ->
    (<[given_name name (materials s) := emission_material color strength]> (materials s))
      !! k = materials s !! k.
Proof.
  split; [destruct (create_emission_shader_any color strength name s) as (t & E & _);
          exists t; exact E|].
  split; [apply given_name_free|]. split; [apply given_name_same|].
  intros k Hk. apply lookup_insert_ne. congruence.
Qed.

(** ** The camera *)

(** X10: when no object is named "Camera", the camera phase makes one at
    the start location and returns: the camera is selected and active,
    every other object deselected, it has the end location and lens, the
    rotation (65, 0, 67) degrees, the clipping distances 0.1 and 5000, and
    the four keyframes. *)
Theorem camera_created_when_missing f1 f2 l1 l2 n1 n2 (s : host) :
  objects s !! "Camera" = None ->
  exists t,
    run (setup_and_animate_camera f1 f2 l1 l2 n1 n2) s =
    (t, Done tt
          (set_objects
             (<["Camera" :=
                  Object KCamera
                    (<["location" := VTuple l2]>
                       (<["rotation_euler" :=
                            VTuple [Flt (radians 65); Int 0; Flt (radians 67)]]>
                          (<["location" := VTuple l1]> {[ "location" := VTuple l1 ]})))
                    (<["lens" := VNum n2]>
                       (<["clip_end" := VNum (Int 5000)]>
                          (<["clip_start" := VNum (Flt 0x1.999999999999ap-4)]>
                             (<["lens" := VNum n1]> ∅))))
                    (<[("location", f2) := VTuple l2]> (<[("location", f1) := VTuple l1]> ∅))
                    (<[("lens", f2) := VNum n2]> (<[("lens", f1) := VNum n1]> ∅))
                    l1 true true false [] None]>
                (deselect <$> objects s))
             (set_active (Some "Camera") s))).
Proof.
  intros Hc. destruct (camera_runs_absent f1 f2 l1 l2 n1 n2 s Hc) as (t & E & _).
  exists t. exact E.
Qed.

Lemma camera_created_when_missing_witness :
  objects no_camera_scene !! "Camera" = None /\
  exists t s',
    run (setup_and_animate_camera START_FRAME END_FRAME start_location end_location
           start_lens end_lens) no_camera_scene = (t, Done tt s') /\
    ob_kind_of <$> objects s' !! "Camera" = Some KCamera.
Proof.
  assert (H : objects no_camera_scene !! "Camera" = None) by reflexivity.
  split; [exact H|].
  destruct (camera_created_when_missing START_FRAME END_FRAME start_location end_location
              start_lens end_lens no_camera_scene H) as (t & E).
  eexists t, _. split; [exact E|]. cbn [objects set_objects].
  rewrite lookup_insert_eq. reflexivity.
Defined.

(** X11: when the object named "Camera" is in the view layer but is no
    camera, the camera phase raises AttributeError at [camera.data.lens],
    after it has made the object active, selected it and set its location
    and rotation, which stay set. *)
Theorem camera_not_a_camera f1 f2 l1 l2 n1 n2 (cam : object) (s : host) :
  objects s !! "Camera" = Some cam -> ob_kind_of cam <> KCamera ->
  ob_in_view_layer cam = true ->
  exists t,
    run (setup_and_animate_camera f1 f2 l1 l2 n1 n2) s =
    (t, Raised (ObjectDataSet (Some "Camera") "lens" (VNum n1)) (AttributeError "lens")
          (set_objects
             (<["Camera" :=
                  set_ob_props
                    (insert "rotation_euler"
                       (VTuple [Flt (radians 65); Int 0; Flt (radians 67)]))
                    (set_ob_props (insert "location" (VTuple l1))
                       (set_ob_selected true cam))]> (objects s))
             (set_active (Some "Camera") s))).
Proof. exact (camera_wrong_kind f1 f2 l1 l2 n1 n2 cam s). Qed.

Lemma camera_not_a_camera_witness :
  objects cube_camera_scene !! "Camera" = Some startup_cube /\
  ob_kind_of startup_cube <> KCamera /\
  ob_in_view_layer startup_cube = true /\
  exists t s',
    run (setup_and_animate_camera START_FRAME END_FRAME start_location end_location
           start_lens end_lens) cube_camera_scene =
    (t, Raised (ObjectDataSet (Some "Camera") "lens" (VNum start_lens))
          (AttributeError "lens") s').
Proof.
  assert (H1 : objects cube_camera_scene !! "Camera" = Some startup_cube) by reflexivity.
  assert (H2 : ob_kind_of startup_cube <> KCamera) by discriminate.
  assert (H3 : ob_in_view_layer startup_cube = true) by reflexivity.
  split; [exact H1|]. split; [exact H2|]. split; [exact H3|].
  destruct (camera_not_a_camera START_FRAME END_FRAME start_location end_location
              start_lens end_lens startup_cube cube_camera_scene H1 H2 H3) as (t & E).
  eexists t, _. exact E.
Defined.

(** X12: [adjust_camera_clipping] on a camera sets its two clipping
    distances and nothing else; on None it raises AttributeError and
    changes nothing. *)
Theorem adjust_camera_clipping_sets (nm : string) (cam : object) (a b : num) (s : host) :
  objects s !! nm = Some cam -> ob_kind_of cam = KCamera ->
  (exists t,
     run (adjust_camera_clipping (Some nm) a b) s =
     (t, Done tt
           (set_objects
              (<[nm := set_ob_data_props
                         (fun m => <["clip_end" := VNum b]> (<["clip_start" := VNum a]> m))
                         cam]> (objects s)) s))) /\
  run (adjust_camera_clipping None a b) s =
    ([], Raised (ObjectDataSet None "clip_start" (VNum a)) (AttributeError "NoneType") s).
Proof.
  intros Hc Hk. split; [|reflexivity].
  assert (R : runs_to (adjust_camera_clipping (Some nm) a b)
                (set_objects (<[nm := cam]> (objects s)) s) tt
                (set_objects
                   (<[nm := set_ob_data_props
                              (fun m => <["clip_end" := VNum b]> (<["clip_start" := VNum a]> m))
                              cam]> (objects s)) s) []).
  { destruct cam as [k p dp ks dks c sel v sm m an]. cbn in Hk. subst k.
    eapply runs_to_obs; [unfold adjust_camera_clipping; step; last_step|reflexivity]. }
  rewrite (insert_id _ _ _ Hc) in R. destruct s. destruct R as (t & E & _).
  exists t. exact E.
Qed.

Lemma adjust_camera_clipping_sets_witness :
  objects startup_scene !! "Camera" = Some startup_camera /\
  ob_kind_of startup_camera = KCamera /\
  exists t s',
    run (adjust_camera_clipping (Some "Camera") (Flt 0x1.999999999999ap-4) (Int 5000))
      startup_scene = (t, Done tt s') /\
    (ob_data_props <$> objects s' !! "Camera") =
      Some (<["clip_end" := VNum (Int 5000)]>
              (<["clip_start" := VNum (Flt 0x1.999999999999ap-4)]>
                 {[ "lens" := VNum (Flt 50) ]})).
Proof.
  assert (H1 : objects startup_scene !! "Camera" = Some startup_camera) by reflexivity.
  split; [exact H1|]. split; [reflexivity|].
  destruct (adjust_camera_clipping_sets "Camera" startup_camera (Flt 0x1.999999999999ap-4)
              (Int 5000) startup_scene H1 eq_refl) as ((t & E) & _).
  eexists t, _. split; [exact E|]. cbn [objects set_objects].
  rewrite lookup_insert_eq. reflexivity.
Defined.

(** ** [delete_object] *)

(** X13: deleting the same name twice is deleting it once: the second call
    finds no object of the name and changes nothing, and when the first
    call raises the second is never reached. *)
Theorem delete_object_twice (name : string) (s : host) :
  match run (delete_object name) s with
  | (t, Done _ s') =>
    run (delete_object name ;;; delete_object name) s =
    ((t ++ [Ev (ObjectsContains name) false])%list, Done tt s')
  | (t, Raised c e s') =>
    run (delete_object name ;;; delete_object name) s = (t, Raised c e s')
  end.
Proof.
  destruct (run (delete_object name) s) as [t [[] s'|c e s']] eqn:E.
  - destruct (delete_object_done _ _ _ _ E) as [Hnone _].
    unfold run in *. rewrite exec_bind, E.
    pose proof (delete_object_absent _ _ Hnone) as E2. unfold run in E2. rewrite E2.
    reflexivity.
  - unfold run in *. rewrite exec_bind, E. reflexivity.
Qed.
(** ** The cleaning *)

Lemma light_no_system_name : ~ system_name "Light".
Proof.
  intros [H|(n & _ & [H|H])]; [discriminate H| |];
    unfold planet_name, ring_name in H; discriminate H.
Qed.

Definition cleaning_run : list event * outcome host unit := run clean_scene first_scene.
Definition cleaning_end : host := final cleaning_run.2.

Lemma cleaning_run_done : run clean_scene first_scene = (cleaning_run.1, Done tt cleaning_end).
Proof. vm_compute. reflexivity. Qed.

(** X14: the cleaning, when it returns, keeps every object that was not
    selected and does not have one of the names it looks for: the object
    is still there under its name, the same but for its material slots,
    which the removal of the materials empties. *)
Theorem clean_scene_keeps_others (s s' : host) (t : list event) (k : string) (o : object) :
  run clean_scene s = (t, Done tt s') ->
  objects s !! k = Some o -> ob_selected o = false -> ~ system_name k ->
  exists o', objects s' !! k = Some o' /\
             set_ob_materials (fun _ => []) o' = set_ob_materials (fun _ => []) o.
Proof. intros E. exact (clean_scene_keeps s s' t E k o). Qed.

Lemma clean_scene_keeps_others_witness :
  run clean_scene startup_scene = ((run clean_scene startup_scene).1,
                                    Done tt (final (run clean_scene startup_scene).2)) /\
  objects startup_scene !! "Light" = Some startup_light /\
  ob_selected startup_light = false /\
  ~ system_name "Light" /\
  exists o', objects (final (run clean_scene startup_scene).2) !! "Light" = Some o' /\
             set_ob_materials (fun _ => []) o' = set_ob_materials (fun _ => []) startup_light.
Proof.
  assert (E : run clean_scene startup_scene =
              ((run clean_scene startup_scene).1,
               Done tt (final (run clean_scene startup_scene).2)))
    by (vm_compute; reflexivity).
  assert (H1 : objects startup_scene !! "Light" = Some startup_light) by reflexivity.
  split; [exact E|]. split; [exact H1|]. split; [reflexivity|].
  split; [exact light_no_system_name|].
  exact (clean_scene_keeps_others startup_scene _ _ "Light" startup_light E H1 eq_refl
           light_no_system_name).
Defined.

(** X15: the cleaning, when it returns, leaves no object named Sun,
    Planet-nn or Radius-nn for nn below N_PLANETS, and no material at all;
    and it makes no object: a name that was free is still free. *)
Theorem clean_scene_cleans (s s' : host) (t : list event) :
  run clean_scene s = (t, Done tt s') ->
  objects s' !! "Sun" = None /\
  (forall n, (n < N_PLANETS)%nat ->
     objects s' !! planet_name n = None /\ objects s' !! ring_name n = None) /\
  materials s' = ∅ /\
  forall k, objects s !! k = None -> objects s' !! k = None.
Proof.
  intros E. destruct (clean_scene_done s s' t E) as (Hg & Hsun & Hn & Hm). auto.
Qed.

Lemma clean_scene_cleans_witness :
  run clean_scene first_scene = (cleaning_run.1, Done tt cleaning_end) /\
  is_Some (objects first_scene !! "Sun") /\
  objects cleaning_end !! "Sun" = None /\
  (forall n, (n < N_PLANETS)%nat ->
     objects cleaning_end !! planet_name n = None /\
     objects cleaning_end !! ring_name n = None) /\
  materials cleaning_end = ∅ /\
  forall k, objects first_scene !! k = None -> objects cleaning_end !! k = None.
Proof.
  split; [exact cleaning_run_done|].
  split; [vm_compute; eexists; reflexivity|].
  exact (clean_scene_cleans first_scene cleaning_end cleaning_run.1 cleaning_run_done).
Defined.

(** X16: cleaning a scene the cleaning has left changes nothing: the
    second cleaning returns and leaves the very same scene. *)
Theorem clean_scene_twice (s s' : host) (t : list event) :
  run clean_scene s = (t, Done tt s') ->
  exists t', run clean_scene s' = (t', Done tt s').
Proof.
  intros E. apply clean_scene_again. exact (proj2 (clean_scene_done s s' t E)).
Qed.

Lemma clean_scene_twice_witness :
  run clean_scene first_scene = (cleaning_run.1, Done tt cleaning_end) /\
  exists t', run clean_scene cleaning_end = (t', Done tt cleaning_end).
Proof.
  split; [exact cleaning_run_done|].
  exact (clean_scene_twice first_scene cleaning_end cleaning_run.1 cleaning_run_done).
Defined.

(** ** Building *)

(** X17: after a cleaning that returned, the building of the ring
    material, the planets, the rings and the sun cannot fail: no name it
    asks for is taken.  It leaves the scene [built] and adds the spheres
    and tori of [system_adds], in that order. *)
Theorem build_after_cleaning (s s' : host) (t : list event) :
  run clean_scene s = (t, Done tt s') ->
  exists t', run build_system s' = (t', Done tt (built s')) /\
             observations t' = system_adds s'.
Proof.
  intros E. exact (build_system_runs s' (proj2 (clean_scene_done s s' t E))).
Qed.

Lemma build_after_cleaning_witness :
  run clean_scene first_scene = (cleaning_run.1, Done tt cleaning_end) /\
  exists t', run build_system cleaning_end = (t', Done tt (built cleaning_end)) /\
             observations t' = system_adds cleaning_end.
Proof.
  split; [exact cleaning_run_done|].
  exact (build_after_cleaning first_scene cleaning_end cleaning_run.1 cleaning_run_done).
Defined.

(** A scene with the ring material and nothing else of the system. *)
Definition ring_scene : host := with_ring_material (set_materials ∅ startup_scene).

(** X18: one turn of the planet loop, in a scene where the names of planet
    [n] are free and the ring material exists, returns and leaves
    [planet_step]: it has drawn exactly five random numbers, for the
    radius, the distance, two colour components and the rotation, in that
    order; the planet is the active object, and the sphere and the torus
    were added with the same distance. *)
Theorem make_planet_turn (ring_mat : string) (rm : material) (n : nat) (s : host) :
  objects s !! planet_name n = None -> objects s !! ring_name n = None ->
  materials s !! planet_mat_name n = None -> materials s !! ring_mat = Some rm ->
  ring_mat <> planet_mat_name n ->
  (exists t,
     run (make_planet ring_mat n) s = (t, Done tt (planet_step ring_mat n s)) /\
     observations t =
       [SphereAdd (Flt (planet_radius (rng s (rng_pos s))))
          [Flt (planet_distance (Z.of_nat n) (rng s (1 + rng_pos s))); Int 0; Int 0]
          [Int 1; Int 1; Int 1];
        TorusAdd [Int 0; Int 0; Int 0]
          (Flt (planet_distance (Z.of_nat n) (rng s (1 + rng_pos s))))
          (Flt 0x1.999999999999ap-4) 60]) /\
  rng_pos (planet_step ring_mat n s) = (5 + rng_pos s)%nat /\
  active (planet_step ring_mat n s) = Some (planet_name n) /\
  materials (planet_step ring_mat n s) !! planet_mat_name n =
    Some (emission_material
            [Flt (rng s (2 + rng_pos s)); Flt (rng s (3 + rng_pos s)); Int 1; Int 1] (Int 2)) /\
  actions (planet_step ring_mat n s) !! given_name "RotationAction" (actions s) =
    Some [FCurve "rotation_euler" 2
            [Keyframe 1 (Int 0) "LINEAR";
             Keyframe 400 (Flt (rotation_end (rng s (4 + rng_pos s)))) "LINEAR"]].
Proof.
  intros Hp Hr Hm Hrm Hne.
  split; [exact (make_planet_runs ring_mat rm n s Hp Hr Hm Hrm Hne)|].
  split; [reflexivity|]. split; [reflexivity|].
  split; [apply planet_step_material|apply planet_step_action].
Qed.

Lemma make_planet_turn_witness :
  objects ring_scene !! planet_name 0 = None /\
  exists t,
    run (make_planet "RingMat" 0) ring_scene = (t, Done tt (planet_step "RingMat" 0 ring_scene)).
Proof.
  split; [reflexivity|].
  destruct (make_planet_turn "RingMat" ring_material 0 ring_scene) as ((t & E & _) & _);
    [reflexivity|reflexivity|reflexivity|reflexivity|discriminate|].
  exists t. exact E.
Defined.
(** ** The whole script *)



Lemma sun_step_rng_pos (s : host) : rng_pos (sun_step s) = rng_pos s.
Proof. reflexivity. Qed.

Lemma sun_step_rng (s : host) : rng (sun_step s) = rng s.
Proof. reflexivity. Qed.

Lemma finish_rng_pos (s : host) : rng_pos (finish s) = rng_pos s.
Proof. reflexivity. Qed.

Lemma finish_rng (s : host) : rng (finish s) = rng s.
Proof. reflexivity. Qed.

Lemma built_rng_pos (s : host) : rng_pos (built s) = (30 + rng_pos s)%nat.
Proof.
  unfold built. rewrite sun_step_rng_pos, planets_rng_pos, length_seq. reflexivity.
Qed.

Lemma built_rng (s : host) : rng (built s) = rng s.
Proof. unfold built. rewrite sun_step_rng, planets_rng. reflexivity. Qed.

Lemma built_actions (s : host) (a : string) (c : list fcurve) :
  actions s !! a = Some c -> actions (built s) !! a = Some c.
Proof.
  intros Ha. unfold built. rewrite sun_step_actions. apply planets_actions. exact Ha.
Qed.

(** X20: a run of the script calls [random()] exactly thirty times, five
    for each planet, and nowhere else. *)
Theorem script_draws (s0 s1 : host) (t : list event) :
  run script s0 = (t, Done tt s1) ->
  rng_pos s1 = (5 * N_PLANETS + rng_pos s0)%nat /\ rng s1 = rng s0.
Proof.
  intros E. destruct (script_runs _ _ _ E) as [s2 s3 s4 sc cam t4 _ _ _ _ _ _ _ _ K _ -> _].
  destruct K as (Hr & Hp & _). unfold finished.
  rewrite finish_rng_pos, finish_rng, built_rng_pos, built_rng, Hr, Hp. split; reflexivity.
Qed.

Lemma script_draws_witness :
  run script startup_scene = (first_run.1, Done tt first_scene) /\
  rng_pos first_scene = (5 * N_PLANETS + rng_pos startup_scene)%nat /\
  rng first_scene = rng startup_scene.
Proof.
  split; [exact first_run_done|].
  exact (script_draws startup_scene first_scene first_run.1 first_run_done).
Defined.

(** X21: the origin of every planet and of every ring ends at the 3D
    cursor of the scene, wherever the cursor is, while the planet's mesh
    stays at its distance on the x axis and the ring's about the world
    origin: [origin_set] acts on the selection, which holds the ring just
    made as well as the planet. *)
Theorem origins_at_cursor (s0 s1 : host) (t : list event) :
  run script s0 = (t, Done tt s1) ->
  forall n, (n < N_PLANETS)%nat ->
    exists p r,
      objects s1 !! planet_name n = Some p /\
      ob_props p !! "location" = Some (VTuple (cursor s0)) /\
      ob_center p = [Flt (distance_of s0 n); Int 0; Int 0] /\
      objects s1 !! ring_name n = Some r /\
      ob_props r !! "location" = Some (VTuple (cursor s0)) /\
      ob_center r = [Int 0; Int 0; Int 0].
Proof.
  intros E n Hn. destruct (script_system _ _ _ E) as (act & _ & Hs & _).
  destruct (Hs n Hn) as (Hp & Hr & _).
  eexists _, _. split; [exact Hp|]. split; [apply lookup_insert_eq|].
  split; [reflexivity|]. split; [exact Hr|]. split; [apply lookup_insert_eq|reflexivity].
Qed.

Lemma origins_at_cursor_witness :
  run script startup_scene = (first_run.1, Done tt first_scene) /\
  forall n, (n < N_PLANETS)%nat ->
    exists p r,
      objects first_scene !! planet_name n = Some p /\
      ob_props p !! "location" = Some (VTuple (cursor startup_scene)) /\
      ob_center p = [Flt (distance_of startup_scene n); Int 0; Int 0] /\
      objects first_scene !! ring_name n = Some r /\
      ob_props r !! "location" = Some (VTuple (cursor startup_scene)) /\
      ob_center r = [Int 0; Int 0; Int 0].
Proof.
  split; [exact first_run_done|].
  exact (origins_at_cursor startup_scene first_scene first_run.1 first_run_done).
Defined.

(** X22: a run leaves nothing selected, and the sun as the active object. *)
Theorem nothing_selected_at_end (s0 s1 : host) (t : list event) :
  run script s0 = (t, Done tt s1) ->
  active s1 = Some "Sun" /\
  forall k o, objects s1 !! k = Some o -> ob_selected o = false.
Proof.
  intros E. destruct (script_runs _ _ _ E) as [s2 s3 s4 sc cam t4 _ _ _ _ _ _ _ _ _ _ -> _].
  split; [reflexivity|]. intros k o Ho. unfold finished in Ho.
  rewrite finish_objects in Ho.
  destruct (objects (built s4) !! k) as [o'|]; [|discriminate Ho].
  injection Ho as <-. reflexivity.
Qed.

Lemma nothing_selected_at_end_witness :
  run script startup_scene = (first_run.1, Done tt first_scene) /\
  active first_scene = Some "Sun" /\
  forall k o, objects first_scene !! k = Some o -> ob_selected o = false.
Proof.
  split; [exact first_run_done|].
  exact (nothing_selected_at_end startup_scene first_scene first_run.1 first_run_done).
Defined.

(** X23: the script never removes or changes an action: every action that
    existed before a run is there unchanged after it, so the rotation
    actions of earlier runs pile up. *)
Theorem actions_persist (s0 s1 : host) (t : list event) (a : string) (c : list fcurve) :
  run script s0 = (t, Done tt s1) -> actions s0 !! a = Some c -> actions s1 !! a = Some c.
Proof.
  intros E Ha. destruct (script_runs _ _ _ E) as [s2 s3 s4 sc cam t4 _ _ _ _ _ _ _ _ K _ -> _].
  destruct K as (_ & _ & _ & _ & Hact). unfold finished. rewrite finish_actions.
  apply built_actions. rewrite Hact. exact Ha.
Qed.

Lemma actions_persist_witness :
  run script first_scene = (second_run.1, Done tt second_scene) /\
  actions first_scene !! "RotationAction" =
    Some (rotation_curve (spin_of startup_scene 0)) /\
  actions second_scene !! "RotationAction" =
    Some (rotation_curve (spin_of startup_scene 0)).
Proof.
  assert (Ha : actions first_scene !! "RotationAction" =
               Some (rotation_curve (spin_of startup_scene 0)))
    by (vm_compute; reflexivity).
  split; [exact second_run_done|]. split; [exact Ha|].
  exact (actions_persist first_scene second_scene second_run.1 "RotationAction" _
           second_run_done Ha).
Defined.


(** ** The names *)




